(** * ledmatrix: DMA descriptor ring, bitstream encoder and buffer hand-off

    A shallow embedding of [ledmatrix.c] (the HUB75 LED matrix driver for the
    ESP32 parallel I2S engine) and the properties of its descriptor ring,
    control pattern, pixel decoders and double-buffer hand-off.

    Conventions of the embedding:
    - C integers are [Z]; every conversion to an unsigned type of the source
      is written out with [u8], [u16] or [u32], and the one product held in
      an [int] that can leave its range with [s32];
    - memory blocks are lists indexed by [Z]; a read or write outside a block
      is undefined behaviour and yields [None];
    - pointers are a block (the index of the stream buffer they belong to)
      and an offset; [NULL] is a constructor of its own;
    - the global [matrix] object is threaded through a state monad whose
      outcomes are normal return, a raised MicroPython exception (the global
      keeps whatever was written before the raise) or undefined behaviour. *)

From Stdlib Require Import ZArith List Bool Lia String.
From stdpp Require Import base list.

Local Open Scope Z_scope.

(** ** Machine integers *)

Definition u8 (z : Z) : Z := z mod 256.
Definition u16 (z : Z) : Z := z mod 65536.
Definition u32 (z : Z) : Z := z mod 4294967296.
(** The 32-bit two's complement [int] (and [mp_int_t]) of the target: the
    value an arithmetic result has once it is held in such a variable. *)
Definition s32 (z : Z) : Z := (z + 2147483648) mod 4294967296 - 2147483648.

(** [x << n] and [x >> n] on promoted [int] operands: a negative count, a
    count of 32 or more, or a left shift that leaves the range of [int] is
    undefined behaviour. *)
Definition shl_int (x n : Z) : option Z :=
  if (0 <=? n) && (n <? 32) && (0 <=? x) && (Z.shiftl x n <? 2147483648)
  then Some (Z.shiftl x n) else None.
Definition shr_int (x n : Z) : option Z :=
  if (0 <=? n) && (n <? 32) then Some (Z.shiftr x n) else None.

(** ** Constants of the source *)

Definition BITSTREAM_COLOR_START_IO : Z := 0.
Definition BITSTREAM_COLOR_BYTE : Z := 0.
Definition BITSTREAM_CTRL_BYTE : Z := 1.
Definition BITSTREAM_CTRL_OE_BIT : Z := 0.
Definition BITSTREAM_CTRL_LAT_BIT : Z := 1.
Definition BITSTREAM_CTRL_ROW_START_BIT : Z := 2.
Definition BITSTREAM_CTRL_OE_IO : Z := 8.
Definition BITSTREAM_CTRL_LAT_IO : Z := 9.
Definition BITSTREAM_CTRL_ROW_START_IO : Z := 10.
Definition BITSTREAM_ROWS_MAX : Z := 6.
Definition DMA_MAX_XFER_SIZE : Z := Z.shiftl 1 12 - 4.
Definition COLOR_RGB565 : Z := 0.
Definition COLOR_GS8 : Z := 1.
Definition COLOR_MONO : Z := 2.
Definition ESP_OK : Z := 0.
Definition ESP_ERR_NO_MEM : Z := 257.

(** ** Memory blocks *)

Definition load {A} (l : list A) (i : Z) : option A :=
  if 0 <=? i then l !! Z.to_nat i else None.

Definition store {A} (l : list A) (i : Z) (x : A) : option (list A) :=
  if (0 <=? i) && (i <? Z.of_nat (length l))
  then Some (<[Z.to_nat i := x]> l) else None.

(** The option monad carries undefined behaviour through the pure parts. *)
Definition obind {A B} (o : option A) (f : A -> option B) : option B :=
  match o with Some a => f a | None => None end.

Notation "x <-? c1 ; c2" := (obind c1 (fun x => c2))
  (at level 100, c1 at next level, right associativity).

(** [for (i = lo; i < hi; i++) body] with a loop variable that the body
    does not modify. *)
Fixpoint for_loop {S} (n : nat) (i : Z) (body : Z -> S -> option S) (s : S)
  : option S :=
  match n with
  | O => Some s
  | Datatypes.S n' => s' <-? body i s; for_loop n' (i + 1) body s'
  end.

Definition for_range {S} (lo hi : Z) (body : Z -> S -> option S) (s : S)
  : option S :=
  for_loop (Z.to_nat (hi - lo)) lo body s.

(** ** Data model *)

(** [uint8_t *] into the stream data of buffer [b]. *)
Inductive data_ptr : Type :=
| NullData
| StreamPtr (b : Z) (ofs : Z).

(** [lldesc_t *] to descriptor [i] of buffer [b]. *)
Inductive desc_ptr : Type :=
| NullDesc
| DescPtr (b : Z) (i : Z).

Definition data_ptr_eq_dec (p q : data_ptr) : {p = q} + {p <> q}.
Proof. decide equality; apply Z.eq_dec. Defined.
Arguments data_ptr_eq_dec : simpl never.

Definition is_null (p : data_ptr) : bool :=
  match p with NullData => true | StreamPtr _ _ => false end.

Definition ptr_add (p : data_ptr) (n : Z) : data_ptr :=
  match p with NullData => NullData | StreamPtr b o => StreamPtr b (o + n) end.

(** The hardware DMA descriptor; [size] and [length] are 12-bit fields. *)
Record lldesc_t : Type := mk_lldesc {
  d_size : Z;
  d_length : Z;
  d_offset : Z;
  d_sosf : Z;
  d_eof : Z;
  d_owner : Z;
  d_buf : data_ptr;
  stqe_next : desc_ptr
}.

Definition lldesc_zero : lldesc_t :=
  mk_lldesc 0 0 0 0 0 0 NullData NullDesc.

Definition set_buf (p : data_ptr) (d : lldesc_t) : lldesc_t :=
  mk_lldesc (d_size d) (d_length d) (d_offset d) (d_sosf d) (d_eof d)
            (d_owner d) p (stqe_next d).

Definition set_block (p : data_ptr) (block : Z) (d : lldesc_t) : lldesc_t :=
  mk_lldesc (block mod 4096) (block mod 4096) (d_offset d) (d_sosf d)
            (d_eof d) 1 p (stqe_next d).

Definition set_next (n : desc_ptr) (d : lldesc_t) : lldesc_t :=
  mk_lldesc (d_size d) (d_length d) (d_offset d) (d_sosf d) (d_eof d)
            (d_owner d) (d_buf d) n.

(** [stream_buffer_t]; [None] is a [NULL] pointer. *)
Record stream_buffer_t : Type := mk_stream_buffer {
  stream_data : option (list Z);
  dma_desc : option (list lldesc_t)
}.

Definition stream_buffer_zero : stream_buffer_t := mk_stream_buffer None None.

(** The global [matrix] object. *)
Record matrix_t : Type := mk_matrix {
  buffer : list stream_buffer_t;
  dma_desc_count : Z;
  width : Z;
  height : Z;
  brightness : Z;
  mono_color : list Z;
  rows : Z;
  color_depth : Z;
  backbuffer : Z;
  invert : bool;
  column_swap : bool;
  double_buffer : bool;
  single_chn : bool;
  initialized : bool
}.

Definition matrix_zero : matrix_t :=
  mk_matrix [stream_buffer_zero; stream_buffer_zero] 0 0 0 0 [0; 0; 0] 0 0 0
            false false false false false.

Definition set_buffer (bs : list stream_buffer_t) (m : matrix_t) : matrix_t :=
  mk_matrix bs (dma_desc_count m) (width m) (height m) (brightness m)
            (mono_color m) (rows m) (color_depth m) (backbuffer m) (invert m)
            (column_swap m) (double_buffer m) (single_chn m) (initialized m).

Definition set_dma_desc_count (n : Z) (m : matrix_t) : matrix_t :=
  mk_matrix (buffer m) n (width m) (height m) (brightness m)
            (mono_color m) (rows m) (color_depth m) (backbuffer m) (invert m)
            (column_swap m) (double_buffer m) (single_chn m) (initialized m).

Definition set_brightness_field (b : Z) (m : matrix_t) : matrix_t :=
  mk_matrix (buffer m) (dma_desc_count m) (width m) (height m) b
            (mono_color m) (rows m) (color_depth m) (backbuffer m) (invert m)
            (column_swap m) (double_buffer m) (single_chn m) (initialized m).

Definition set_mono_color (c : list Z) (m : matrix_t) : matrix_t :=
  mk_matrix (buffer m) (dma_desc_count m) (width m) (height m) (brightness m)
            c (rows m) (color_depth m) (backbuffer m) (invert m)
            (column_swap m) (double_buffer m) (single_chn m) (initialized m).

Definition set_backbuffer (b : Z) (m : matrix_t) : matrix_t :=
  mk_matrix (buffer m) (dma_desc_count m) (width m) (height m) (brightness m)
            (mono_color m) (rows m) (color_depth m) b (invert m)
            (column_swap m) (double_buffer m) (single_chn m) (initialized m).

Definition set_initialized (b : bool) (m : matrix_t) : matrix_t :=
  mk_matrix (buffer m) (dma_desc_count m) (width m) (height m) (brightness m)
            (mono_color m) (rows m) (color_depth m) (backbuffer m) (invert m)
            (column_swap m) (double_buffer m) (single_chn m) b.

(** [matrix.buffer[b].stream_data] and [matrix.buffer[b].dma_desc]. *)
Definition stream_of (m : matrix_t) (b : Z) : option (list Z) :=
  sb <-? load (buffer m) b; stream_data sb.

Definition descs_of (m : matrix_t) (b : Z) : option (list lldesc_t) :=
  sb <-? load (buffer m) b; dma_desc sb.

Definition set_stream (b : Z) (sd : option (list Z)) (m : matrix_t)
  : option matrix_t :=
  sb <-? load (buffer m) b;
  bs <-? store (buffer m) b (mk_stream_buffer sd (dma_desc sb));
  Some (set_buffer bs m).

Definition set_descs (b : Z) (dd : option (list lldesc_t)) (m : matrix_t)
  : option matrix_t :=
  sb <-? load (buffer m) b;
  bs <-? store (buffer m) b (mk_stream_buffer (stream_data sb) dd);
  Some (set_buffer bs m).

(** ** Exceptions and the state monad over [matrix] *)

Inductive mp_exception : Type :=
| ValueError (msg : string)
| TypeError (msg : string)
| OSError (code : Z).

Inductive outcome (A : Type) : Type :=
| Done (a : A) (m : matrix_t)
| Raised (e : mp_exception) (m : matrix_t)
| Undefined.
Arguments Done {A} a m.
Arguments Raised {A} e m.
Arguments Undefined {A}.

Definition M (A : Type) : Type := matrix_t -> outcome A.

Definition ret {A} (a : A) : M A := fun m => Done a m.

Definition bind {A B} (c : M A) (f : A -> M B) : M B :=
  fun m => match c m with
           | Done a m' => f a m'
           | Raised e m' => Raised e m'
           | Undefined => Undefined
           end.

Definition mp_raise {A} (e : mp_exception) : M A := fun m => Raised e m.
Definition undefined {A} : M A := fun _ => Undefined.
Definition get : M matrix_t := fun m => Done m m.
Definition modify (f : matrix_t -> matrix_t) : M unit := fun m => Done tt (f m).

(** A pure step that may be undefined. *)
Definition defined {A} (o : option A) : M A :=
  match o with Some a => ret a | None => undefined end.

Definition put_opt (f : matrix_t -> option matrix_t) : M unit :=
  fun m => match f m with Some m' => Done tt m' | None => Undefined end.

Definition when_ (b : bool) (c : M unit) : M unit := if b then c else ret tt.

Notation "x <- c1 ;; c2" := (bind c1 (fun x => c2))
  (at level 100, c1 at next level, right associativity).
Notation "c1 ;; c2" := (bind c1 (fun _ => c2))
  (at level 100, right associativity).

(** More field updates of [matrix]. *)
Definition set_geometry (w d : Z) (inv dbl swap single : bool) (m : matrix_t)
  : matrix_t :=
  mk_matrix (buffer m) (dma_desc_count m) w (height m) (brightness m)
            (mono_color m) (rows m) d (backbuffer m) inv swap dbl single
            (initialized m).

Definition set_rows (r : Z) (m : matrix_t) : matrix_t :=
  mk_matrix (buffer m) (dma_desc_count m) (width m) (height m) (brightness m)
            (mono_color m) r (color_depth m) (backbuffer m) (invert m)
            (column_swap m) (double_buffer m) (single_chn m) (initialized m).

Definition set_height (h : Z) (m : matrix_t) : matrix_t :=
  mk_matrix (buffer m) (dma_desc_count m) (width m) h (brightness m)
            (mono_color m) (rows m) (color_depth m) (backbuffer m) (invert m)
            (column_swap m) (double_buffer m) (single_chn m) (initialized m).

(** ** MicroPython objects and the arguments of the entry points *)

Inductive mp_obj : Type :=
| MpSmallInt (v : Z)
| MpOther.

Record init_args : Type := mk_init_args {
  io_colors : list mp_obj;
  io_rows : list mp_obj;
  io_oe : Z;
  io_lat : Z;
  io_clk : Z;
  arg_width : Z;
  arg_color_depth : Z;
  arg_clock_speed_khz : Z;
  arg_invert : bool;
  arg_double_buffer : bool;
  arg_column_swap : bool;
  arg_single_channel : bool;
  arg_brightness : Z
}.

(** Modelled from the spec: [i2s_parallel.h] is not among the sources; the
    parallel engine has 16 data lines, a clock pin, a sample rate and a
    sample width. *)
Definition GPIOS_BUS_SIZE : Z := 16.
Definition I2S_PARALLEL_WIDTH_16 : Z := 16.

Record i2s_parallel_config_t : Type := mk_i2s_config {
  sample_width : Z;
  gpios_bus : list Z;
  gpio_clk : Z;
  sample_rate : Z
}.

(** [sizeof(lldesc_t)] on the target: three 32-bit words. *)
Definition SIZEOF_LLDESC : Z := 12.

(** The decoder signature [get_color_func], with the global it reads. *)
Definition get_color_func : Type :=
  matrix_t -> Z -> Z -> Z -> list Z -> option Z.

(** ** [initialize_buffer]: the descriptor ring *)

(** The probing loop [while (buf->dma_desc[pos].buf) { pos += per; if (pos >=
    count) pos = 0; }].  [fuel] bounds the number of probes. *)
Fixpoint find_free (fuel : nat) (per count : Z) (d : list lldesc_t) (pos : Z)
  : option Z :=
  e <-? load d pos;
  if is_null (d_buf e) then Some pos
  else match fuel with
       | O => None
       | Datatypes.S f =>
           let pos := u32 (pos + per) in
           let pos := if pos >=? count then 0 else pos in
           find_free f per count d pos
       end.

(** Body of the [k] loop: one placement of subimage [i]. *)
Definition place_subimage (b stride per count i n k : Z) (d : list lldesc_t)
  : option (list lldesc_t) :=
  let pos := u32 (u32 (count * k) / n + count / n / 2) in
  let pos := pos / per in
  let pos := u32 (pos * per) in
  pos <-? find_free (Z.to_nat count) per count d pos;
  e <-? load d pos;
  store d pos (set_buf (StreamPtr b (u32 (stride * i))) e).

(** The first pair of loops: all subimages but the last are spread. *)
Definition spread_subimages (b stride per count depth : Z)
  (d : list lldesc_t) : option (list lldesc_t) :=
  for_range 0 (u32 (depth - 1)) (fun i d =>
    n <-? shl_int 1 i;
    let n := u32 n in
    for_range 0 n (fun k d => place_subimage b stride per count i n k d) d) d.

(** The inner [while (remaining)] loop; it advances the index [i] of the
    enclosing [for] loop and returns it. *)
Fixpoint fill_blocks (fuel : nat) (d : list lldesc_t) (i : Z) (ptr : data_ptr)
  (remaining : Z) : option (list lldesc_t * Z) :=
  if remaining =? 0 then Some (d, i)
  else match fuel with
       | O => None
       | Datatypes.S f =>
           let i := u32 (i + 1) in
           let block := remaining in
           let block :=
             if block >? DMA_MAX_XFER_SIZE then DMA_MAX_XFER_SIZE else block in
           e <-? load d i;
           d <-? store d i (set_block ptr block e);
           fill_blocks f d i (ptr_add ptr block) (u32 (remaining - block))
       end.

(** The second loop: unpopulated entries get the last subimage, and every
    subimage is cut into blocks. *)
Fixpoint fill_remaining (fuel : nat) (b stride count depth : Z)
  (d : list lldesc_t) (i : Z) : option (list lldesc_t) :=
  if i <? count then
    match fuel with
    | O => None
    | Datatypes.S f =>
        e <-? load d i;
        d <-? (if is_null (d_buf e)
               then store d i
                      (set_buf (StreamPtr b (u32 (stride * (depth - 1)))) e)
               else Some d);
        e <-? load d i;
        let remaining := stride in
        let ptr := d_buf e in
        let i := u32 (i - 1) in
        r <-? fill_blocks (Z.to_nat stride) d i ptr remaining;
        fill_remaining f b stride count depth (fst r) (u32 (snd r + 1))
    end
  else Some d.

(** The third loop and the statement that closes the ring. *)
Definition link_ring (b count : Z) (d : list lldesc_t)
  : option (list lldesc_t) :=
  d <-? for_range 0 (u32 (count - 1)) (fun i d =>
          e <-? load d i;
          store d i (set_next (DescPtr b (i + 1)) e)) d;
  e <-? load d (u32 (count - 1));
  store d (u32 (count - 1)) (set_next (DescPtr b 0) e).

Definition build_ring (b stride per count depth : Z) (d : list lldesc_t)
  : option (list lldesc_t) :=
  d <-? spread_subimages b stride per count depth d;
  d <-? fill_remaining (Z.to_nat count) b stride count depth d 0;
  link_ring b count d.

(** ** [create_control_pattern] *)

(** The control byte computed in the body of the pixel loop. *)
Definition control_byte (m : matrix_t) (display_row pixel : Z) : Z :=
  let ctrl := u8 (Z.shiftl display_row BITSTREAM_CTRL_ROW_START_BIT) in
  let ctrl :=
    if (pixel <? 2) || (pixel >? brightness m)
    then u8 (Z.lor ctrl (Z.shiftl 1 BITSTREAM_CTRL_OE_BIT)) else ctrl in
  let ctrl :=
    if pixel =? width m - 2
    then u8 (Z.lor ctrl (Z.shiftl 1 BITSTREAM_CTRL_LAT_BIT)) else ctrl in
  if invert m then u8 (Z.lnot ctrl) else ctrl.

Definition create_control_pattern_data (m : matrix_t) (sd : list Z)
  : option (list Z) :=
  let row_stride := u32 (2 * width m) in
  let subimage_stride := u32 (row_stride * rows m) in
  for_range 0 (color_depth m) (fun lvl sd =>
    let si := u32 (subimage_stride * lvl) in
    for_range 0 (rows m) (fun row sd =>
      let r := si + u32 (row_stride * row) in
      let display_row := u8 (row - 1) in
      for_range 0 (width m) (fun pixel sd =>
        let px := r + u32 (2 * pixel) in
        store sd (px + BITSTREAM_CTRL_BYTE) (control_byte m display_row pixel))
        sd) sd) sd.

(** ** Pixel decoders *)

Definition get_rgb565_bits (color bit : Z) : option Z :=
  let r := u8 (Z.land (Z.shiftr color 8) 248) in
  let g := u8 (Z.land (Z.shiftr color 3) 252) in
  let b := u8 (Z.shiftl color 3) in
  rs <-? shr_int r (7 - bit);
  gs <-? shr_int g (7 - bit);
  bs <-? shr_int b (7 - bit);
  Some (u8 (Z.lor (Z.lor (Z.land rs 1) (Z.shiftl (Z.land gs 1) 1))
                  (Z.shiftl (Z.land bs 1) 2))).

Definition get_mono_color_bits (m : matrix_t) (bit : Z) : option Z :=
  c0 <-? load (mono_color m) 0;
  c1 <-? load (mono_color m) 1;
  c2 <-? load (mono_color m) 2;
  rs <-? shr_int c0 (7 - bit);
  gs <-? shr_int c1 (7 - bit);
  bs <-? shr_int c2 (7 - bit);
  Some (u8 (Z.lor (Z.lor (Z.land rs 1) (Z.shiftl (Z.land gs 1) 1))
                  (Z.shiftl (Z.land bs 1) 2))).

Definition get_color_bits_mono_hlsb : get_color_func := fun m x y bit data =>
  byte <-? load data (Z.shiftr x 3 + Z.shiftr (y * width m) 3);
  mask <-? shr_int 128 (1 - Z.land x 7);
  if negb (Z.land byte mask =? 0)
  then get_mono_color_bits m bit
  else Some 0.

Definition get_color_bits_rgb : get_color_func := fun m x y bit data =>
  lo <-? load data (2 * (y * width m + x));
  hi <-? load data (2 * (y * width m + x) + 1);
  get_rgb565_bits (u16 (lo + 256 * hi)) bit.

Definition get_color_bits_gs8 : get_color_func := fun m x y bit data =>
  v <-? load data (y * width m + x);
  c0 <-? load (mono_color m) 0;
  c1 <-? load (mono_color m) 1;
  c2 <-? load (mono_color m) 2;
  let r := u8 (v * c0 / 255) in
  let g := u8 (v * c1 / 255) in
  let b := u8 (v * c2 / 255) in
  rs <-? shr_int r (7 - bit);
  gs <-? shr_int g (7 - bit);
  bs <-? shr_int b (7 - bit);
  Some (u8 (Z.lor (Z.lor (Z.land rs 1) (Z.shiftl (Z.land gs 1) 1))
                  (Z.shiftl (Z.land bs 1) 2))).

(** ** [update_framebuffer] *)

(** The colour byte computed in the body of the pixel loop. *)
Definition color_byte (m : matrix_t) (get_color_bits : get_color_func)
  (data : list Z) (lvl row pixel : Z) : option Z :=
  let source_px := pixel in
  let source_px := if column_swap m then Z.lxor source_px 1 else source_px in
  let bit := u8 (color_depth m - lvl - 1) in
  c <-? get_color_bits m source_px row bit data;
  c <-? (if negb (single_chn m)
         then c2 <-? get_color_bits m source_px (u16 (row + rows m)) bit data;
              Some (u8 (Z.lor c (Z.shiftl c2 3)))
         else Some c);
  Some (if invert m then u8 (Z.lnot c) else c).

Definition update_framebuffer_data (m : matrix_t) (data : list Z)
  (get_color_bits : get_color_func) (sd : list Z) : option (list Z) :=
  let row_stride := u32 (2 * width m) in
  let subimage_stride := u32 (row_stride * rows m) in
  for_range 0 (color_depth m) (fun lvl sd =>
    let si := u32 (subimage_stride * lvl) in
    for_range 0 (rows m) (fun row sd =>
      let r := si + u32 (row_stride * row) in
      for_range 0 (width m) (fun pixel sd =>
        let px := r + u32 (2 * pixel) in
        c <-? color_byte m get_color_bits data lvl row pixel;
        store sd (px + BITSTREAM_COLOR_BYTE) c) sd) sd) sd.

(** ** The entry points, over the external collaborators *)

Section Driver.

(** Whether [heap_caps_malloc(size, MALLOC_CAP_DMA)] returns a block. *)
Variable heap_caps_malloc : Z -> bool.
(** Result code of [i2s_parallel_driver_install(I2S_CHN, &cfg, invert, ..)]. *)
Variable i2s_parallel_driver_install : i2s_parallel_config_t -> bool -> Z.
(** Result code of [i2s_parallel_send_dma(I2S_CHN, desc)]. *)
Variable i2s_parallel_send_dma : desc_ptr -> Z.

Definition start_dma : M unit :=
  m <- get ;;
  let buf := 0 in
  let buf := if double_buffer m then u8 (Z.lxor (backbuffer m) 1) else buf in
  let err := i2s_parallel_send_dma (DescPtr buf 0) in
  if negb (err =? ESP_OK) then mp_raise (OSError err) else ret tt.

(** [stop_dma] sends one blanking word and waits for the peripheral; it does
    not touch [matrix]. *)
Definition stop_dma : M unit := ret tt.

Definition deinit : M unit :=
  m <- get ;;
  when_ (initialized m) stop_dma ;;
  modify (fun _ => matrix_zero).

Definition initialize_buffer (b : Z) : M unit :=
  m <- get ;;
  let subimage_stride := u32 (u32 (2 * width m) * rows m) in
  let buffersize := u32 (subimage_stride * color_depth m) in
  let dma_entries_per_subimage :=
    u32 (u32 (subimage_stride - 1) / DMA_MAX_XFER_SIZE + 1) in
  one <- defined (shl_int 1 (color_depth m)) ;;
  let count := u32 ((one - 1) * dma_entries_per_subimage) in
  modify (set_dma_desc_count count) ;;
  let sd := if heap_caps_malloc buffersize
            then Some (repeat 0 (Z.to_nat buffersize)) else None in
  let dd := if heap_caps_malloc (u32 (count * SIZEOF_LLDESC))
            then Some (repeat lldesc_zero (Z.to_nat count)) else None in
  put_opt (set_stream b sd) ;;
  put_opt (set_descs b dd) ;;
  match sd, dd with
  | Some _, Some _ =>
      put_opt (set_stream b
        (Some (repeat (if invert m then 255 else 0) (Z.to_nat buffersize)))) ;;
      ring <- defined
        (build_ring b subimage_stride dma_entries_per_subimage count
           (color_depth m) (repeat lldesc_zero (Z.to_nat count))) ;;
      put_opt (set_descs b (Some ring))
  | _, _ => mp_raise (OSError ESP_ERR_NO_MEM)
  end.

Definition create_control_pattern (b : Z) : M unit :=
  m <- get ;;
  match stream_of m b with
  | Some sd =>
      sd' <- defined (create_control_pattern_data m sd) ;;
      put_opt (set_stream b (Some sd'))
  | None =>
      _ <- defined (create_control_pattern_data m []) ;; ret tt
  end.

Definition update_framebuffer (b : Z) (data : list Z)
  (get_color_bits : get_color_func) : M unit :=
  m <- get ;;
  match stream_of m b with
  | Some sd =>
      sd' <- defined (update_framebuffer_data m data get_color_bits sd) ;;
      put_opt (set_stream b (Some sd'))
  | None =>
      _ <- defined (update_framebuffer_data m data get_color_bits []) ;; ret tt
  end.

(** The loop over [io_colors]: at most six values are taken. *)
Fixpoint read_colors (items : list mp_obj) (iteridx : Z) (bus : list Z)
  : mp_exception + option (Z * list Z) :=
  match items with
  | [] => inr (Some (iteridx, bus))
  | item :: rest =>
      if iteridx >=? 6 then inr (Some (iteridx, bus))
      else match item with
           | MpSmallInt v =>
               match store bus (BITSTREAM_COLOR_START_IO + iteridx) v with
               | Some bus' => read_colors rest (iteridx + 1) bus'
               | None => inr None
               end
           | MpOther => inl (TypeError "values of io_colors must be ints")
           end
  end.

(** The loop over [io_rows]: a seventh value is an error. *)
Fixpoint read_rows (items : list mp_obj) (iteridx : Z) (bus : list Z)
  : mp_exception + option (Z * list Z) :=
  match items with
  | [] => inr (Some (iteridx, bus))
  | item :: rest =>
      if iteridx >=? BITSTREAM_ROWS_MAX
      then inl (ValueError "Too many values given for io_rows")
      else match item with
           | MpSmallInt v =>
               match store bus (BITSTREAM_CTRL_ROW_START_IO + iteridx) v with
               | Some bus' => read_rows rest (iteridx + 1) bus'
               | None => inr None
               end
           | MpOther => inl (TypeError "values of io_rows must be ints")
           end
  end.

Definition lift_read {A} (r : mp_exception + option A) : M A :=
  match r with
  | inl e => mp_raise e
  | inr o => defined o
  end.

(** The configuration [cfg] is filled in while the arguments are read and
    is used once, by the install call; [cfg.sample_rate] is the product
    [args[7].u_int * 1000] of two 32-bit integers, held in an [int]. *)
Definition ledmatrix_init (args : init_args) : M unit :=
  deinit ;;
  modify (set_geometry (u16 (arg_width args)) (u8 (arg_color_depth args))
            (arg_invert args) (arg_double_buffer args) (arg_column_swap args)
            (arg_single_channel args)) ;;
  m <- get ;;
  (if negb (Z.land (width m) 1 =? 0)
   then mp_raise (ValueError "width must be an even number") else ret tt) ;;
  (if arg_brightness args >? 0 then
     modify (set_brightness_field (u16 (arg_brightness args))) ;;
     m <- get ;;
     (if brightness m >=? width m - 1
      then mp_raise (ValueError "Brightness must be between 0 and width - 2")
      else ret tt) ;;
     modify (set_brightness_field (u16 (brightness m + 1)))
   else
     modify (set_brightness_field (u16 (width m - 1)))) ;;
  m <- get ;;
  (if color_depth m =? 0
   then mp_raise (ValueError "invalid value for color depth") else ret tt) ;;
  let bus := repeat (-1) (Z.to_nat GPIOS_BUS_SIZE) in
  bus <- defined (store bus BITSTREAM_CTRL_OE_IO (io_oe args)) ;;
  bus <- defined (store bus BITSTREAM_CTRL_LAT_IO (io_lat args)) ;;
  r <- lift_read (read_colors (io_colors args) 0 bus) ;;
  let iteridx := fst r in
  let bus := snd r in
  (if (single_chn m && negb (iteridx =? 3))
      || (negb (single_chn m) && negb (iteridx =? 6))
   then mp_raise (ValueError "Unexpected number of color io lines")
   else ret tt) ;;
  r <- lift_read (read_rows (io_rows args) 0 bus) ;;
  let iteridx := fst r in
  let bus := snd r in
  let cfg := mk_i2s_config I2S_PARALLEL_WIDTH_16 bus (io_clk args)
               (s32 (arg_clock_speed_khz args * 1000)) in
  modify (set_rows (u8 (Z.shiftl 1 iteridx))) ;;
  m <- get ;;
  modify (set_height (if single_chn m then rows m
                      else u16 (Z.shiftl (rows m) 1))) ;;
  modify (set_backbuffer 0) ;;
  modify (set_mono_color [255; 255; 255]) ;;
  initialize_buffer 0 ;;
  create_control_pattern 0 ;;
  (if double_buffer m then
     initialize_buffer 1 ;;
     create_control_pattern 1 ;;
     modify (set_backbuffer 1)
   else ret tt) ;;
  let err := i2s_parallel_driver_install cfg (invert m) in
  (if negb (err =? ESP_OK) then mp_raise (OSError err) else ret tt) ;;
  modify (set_initialized true) ;;
  start_dma.

Definition ledmatrix_set_brightness (b : mp_obj) : M unit :=
  m <- get ;;
  (if negb (initialized m)
   then mp_raise (ValueError "ledmatrix not initialized") else ret tt) ;;
  match b with
  | MpOther => mp_raise (TypeError "expected small int")
  | MpSmallInt newb =>
      (if (newb <? 0) || (newb >=? width m - 1)
       then mp_raise (ValueError "Brightness must be between 0 and width - 2")
       else ret tt) ;;
      modify (set_brightness_field (u16 (newb + 1))) ;;
      create_control_pattern 0 ;;
      (if double_buffer m then create_control_pattern 1 else ret tt)
  end.

(** [dma_desc[count - 1].qe.stqe_next = target] in buffer [b]. *)
Definition set_tail (b : Z) (target : desc_ptr) : M unit :=
  m <- get ;;
  match descs_of m b with
  | Some d =>
      e <- defined (load d (u32 (dma_desc_count m - 1))) ;;
      d' <- defined (store d (u32 (dma_desc_count m - 1)) (set_next target e)) ;;
      put_opt (set_descs b (Some d'))
  | None => undefined
  end.

Definition ledmatrix_show (fb : list Z) (color mode : Z) : M unit :=
  m <- get ;;
  (if negb (initialized m)
   then mp_raise (ValueError "ledmatrix not initialized") else ret tt) ;;
  (if color >=? 0 then
     modify (set_mono_color [Z.land (Z.shiftr color 16) 255;
                             Z.land (Z.shiftr color 8) 255;
                             Z.land color 255])
   else ret tt) ;;
  let strm := backbuffer m in
  let len := Z.of_nat (length fb) in
  (if mode =? COLOR_RGB565 then
     (if negb (len =? u32 (width m * height m * 2))
      then mp_raise (ValueError "Unexpected buffer size") else ret tt) ;;
     update_framebuffer strm fb get_color_bits_rgb
   else if mode =? COLOR_GS8 then
     (if negb (len =? u32 (width m * height m))
      then mp_raise (ValueError "Unexpected buffer size") else ret tt) ;;
     update_framebuffer strm fb get_color_bits_gs8
   else if mode =? COLOR_MONO then
     (if negb (len =? u32 ((Z.quot (width m - 1) 8 + 1) * height m))
      then mp_raise (ValueError "Unexpected buffer size") else ret tt) ;;
     update_framebuffer strm fb get_color_bits_mono_hlsb
   else ret tt) ;;
  (if double_buffer m then
     set_tail 0 (DescPtr (backbuffer m) 0) ;;
     set_tail 1 (DescPtr (backbuffer m) 0) ;;
     modify (set_backbuffer (u8 (Z.lxor (backbuffer m) 1)))
   else ret tt).

Definition ledmatrix_stop : M unit :=
  m <- get ;;
  (if negb (initialized m)
   then mp_raise (ValueError "ledmatrix not initialized") else ret tt) ;;
  stop_dma.

Definition ledmatrix_resume : M unit :=
  m <- get ;;
  (if negb (initialized m)
   then mp_raise (ValueError "ledmatrix not initialized") else ret tt) ;;
  start_dma.

Definition ledmatrix_deinitialize : M unit := deinit.

End Driver.

(** ** Vocabulary of the statements *)

(** Both passes over the stream data have this shape: every cell
    [(lvl, row, pixel)] receives one byte, at offset [off] of its word. *)
Definition fill_cells (W R D off : Z) (v : Z -> Z -> Z -> option Z)
  (sd : list Z) : option (list Z) :=
  let row_stride := u32 (2 * W) in
  let subimage_stride := u32 (row_stride * R) in
  for_range 0 D (fun lvl sd =>
    let si := u32 (subimage_stride * lvl) in
    for_range 0 R (fun row sd =>
      let r := si + u32 (row_stride * row) in
      for_range 0 W (fun pixel sd =>
        let px := r + u32 (2 * pixel) in
        c <-? v lvl row pixel; store sd (px + off) c) sd) sd) sd.

(** Byte offset of the stream word of a cell. *)
Definition cell (W R lvl row pixel : Z) : Z :=
  2 * W * R * lvl + 2 * W * row + 2 * pixel.

(** All cells below the frontier [F] hold the byte [v] computes; every
    other byte is as in [sd0]. *)
Definition filled (W R D off : Z) (v : Z -> Z -> Z -> option Z) (F : Z)
  (sd0 sd : list Z) : Prop :=
  length sd = length sd0 /\
  (forall l r p, 0 <= l < D -> 0 <= r < R -> 0 <= p < W ->
     cell W R l r p < F ->
     exists c, v l r p = Some c /\ load sd (cell W R l r p + off) = Some c) /\
  (forall a, ~ (a - off < F /\ (a - off) mod 2 = 0) -> load sd a = load sd0 a).

(** The ring seen in units of one subimage: slot [s] starts at descriptor
    [s * per]; its head is the [buf] of that descriptor. *)
Definition head (per : Z) (d : list lldesc_t) (s : Z) : data_ptr :=
  match load d (s * per) with
  | Some e => d_buf e
  | None => NullData
  end.

Definition heads (per slots : Z) (d : list lldesc_t) : list data_ptr :=
  map (head per d) (seqZ 0 slots).

(** Number of slots of the ring that show subimage [l] of buffer [b]. *)
Definition appearances (b stride per slots l : Z) (d : list lldesc_t) : Z :=
  Z.of_nat (count_occ data_ptr_eq_dec (heads per slots d)
              (StreamPtr b (stride * l))).

(** Bytes transferred by one pass over the descriptors. *)
Definition total_length (d : list lldesc_t) : Z :=
  fold_right (fun e acc => d_length e + acc) 0 d.

(** What the second loop leaves in an unpopulated head. *)
Definition fill_head (b stride depth : Z) (p : data_ptr) : data_ptr :=
  if is_null p then StreamPtr b (stride * (depth - 1)) else p.

(** Invariant of the spreading loops, before placement [k] of subimage [i]. *)
Definition spread_inv (b stride per depth i k : Z) (d : list lldesc_t) : Prop :=
  Z.of_nat (length d) = (2 ^ depth - 1) * per /\
  (forall s, 0 <= s < 2 ^ depth - 1 ->
     head per d s = NullData \/
     exists j, 0 <= j < depth - 1 /\ head per d s = StreamPtr b (stride * j)) /\
  (forall j, 0 <= j < depth ->
     appearances b stride per (2 ^ depth - 1) j d
     = if j <? i then 2 ^ j else if j =? i then k else 0) /\
  Z.of_nat (count_occ data_ptr_eq_dec (heads per (2 ^ depth - 1) d) NullData)
  = 2 ^ depth - 1 - (2 ^ i - 1) - k.

(** A finished descriptor: it points into the stream data of buffer [b] and
    its block stays inside the [size] bytes of that buffer. *)
Definition block_ok (b size : Z) (e : lldesc_t) : Prop :=
  exists o, d_buf e = StreamPtr b o /\ 0 <= o /\ o + d_length e <= size /\
            0 < d_length e <= DMA_MAX_XFER_SIZE /\
            d_size e = d_length e /\ d_owner e = 1.

(** The first [n] descriptors are finished. *)
Definition blocks_ok (b size n : Z) (d : list lldesc_t) : Prop :=
  forall i e, 0 <= i < n -> load d i = Some e -> block_ok b size e.

(** Invariant of the second loop before slot [s], where [d1] is the array
    left by the spreading loops. *)
Definition fill_inv (b stride per depth : Z) (d1 : list lldesc_t) (s : Z)
  (d : list lldesc_t) : Prop :=
  Z.of_nat (length d) = (2 ^ depth - 1) * per /\
  (forall s', 0 <= s' < 2 ^ depth - 1 ->
     head per d s' = if s' <? s then fill_head b stride depth (head per d1 s')
                     else head per d1 s') /\
  blocks_ok b (stride * depth) (s * per) d /\
  total_length (take (Z.to_nat (s * per)) d) = s * stride.

(** [ceil_div a b] is the least [n] with [a <= n * b], for positive [b]. *)
Definition ceil_div (a b : Z) : Z := (a + b - 1) / b.

(** Appearances of all subimages together. *)
Definition total_appearances (b stride per slots depth : Z)
  (d : list lldesc_t) : Z :=
  fold_right Z.add 0
    (map (fun l => appearances b stride per slots l d) (seqZ 0 depth)).

(** A small geometry used to exercise the statements: 4 columns, one row
    pin (2 rows), dual channel, 2 bits per colour. *)
Definition demo_geometry : matrix_t :=
  set_brightness_field 3
    (set_height 4 (set_rows 2
       (set_geometry 4 2 false true true false matrix_zero))).

Definition always_allocates : Z -> bool := fun _ => true.

(** Collaborators that always succeed. *)
Definition install_ok : i2s_parallel_config_t -> bool -> Z := fun _ _ => ESP_OK.
Definition send_ok : desc_ptr -> Z := fun _ => ESP_OK.

(** [init(io_colors=[1..6], io_rows=[7], io_oe=8, io_lat=9, io_clk=10,
    width=4, color_depth=2, double_buffer=True)]. *)
Definition demo_args : init_args :=
  mk_init_args (map MpSmallInt [1; 2; 3; 4; 5; 6]) [MpSmallInt 7] 8 9 10
               4 2 2500 false true true false (-1).

Definition demo_init (args : init_args) : outcome unit :=
  ledmatrix_init always_allocates install_ok send_ok args matrix_zero.

Definition state_of (o : outcome unit) : matrix_t :=
  match o with
  | Done _ m => m
  | Raised _ m => m
  | Undefined => matrix_zero
  end.

(** The global after the demo initialisation. *)
Definition demo_matrix : matrix_t := state_of (demo_init demo_args).

(** The demo display behind inverting level shifters ([invert=True]). *)
Definition inverted_args : init_args :=
  mk_init_args (map MpSmallInt [1; 2; 3; 4; 5; 6]) [MpSmallInt 7] 8 9 10
               4 2 2500 true true true false (-1).
Definition inverted_matrix : matrix_t := state_of (demo_init inverted_args).

Definition stream_or_nil (m : matrix_t) (b : Z) : list Z :=
  match stream_of m b with Some sd => sd | None => [] end.

(** A buffer as [initialize_buffer] leaves it: stream data of [D]
    subimages and a ring of [dma_desc_count] descriptors. *)
Definition allocated (m : matrix_t) (sb : stream_buffer_t) : Prop :=
  exists sd d,
    sb = mk_stream_buffer (Some sd) (Some d) /\
    Z.of_nat (length sd) = 2 * width m * rows m * color_depth m /\
    Z.of_nat (length d) = dma_desc_count m.

(** The state invariant between the entry points, once initialised. *)
Definition wf_matrix (m : matrix_t) : Prop :=
  0 < width m < 65536 /\ 0 < rows m < 256 /\ 1 <= color_depth m <= 8 /\
  0 < dma_desc_count m < 4294967296 /\
  (backbuffer m = 0 \/ (backbuffer m = 1 /\ double_buffer m = true)) /\
  exists sb0 sb1,
    buffer m = [sb0; sb1] /\ allocated m sb0 /\
    (double_buffer m = true -> allocated m sb1).

(** [matrix.buffer[b].dma_desc[dma_desc_count - 1].qe.stqe_next]. *)
Definition tail_next (m : matrix_t) (b : Z) : option desc_ptr :=
  d <-? descs_of m b;
  e <-? load d (dma_desc_count m - 1);
  Some (stqe_next e).

(** The buffer being streamed in double-buffer mode. *)
Definition frontbuffer (m : matrix_t) : Z := u8 (Z.lxor (backbuffer m) 1).

(** Buffer [b] holds the encoding of [fb]: the colour pass for [fb] would
    not change a byte of it. *)
Definition holds_frame (m : matrix_t) (b : Z) (fb : list Z)
  (get_color_bits : get_color_func) : Prop :=
  exists sd, stream_of m b = Some sd /\
             update_framebuffer_data m fb get_color_bits sd = Some sd.

(** A sequence of [show] calls, each with its [fb], [mono_color] and
    [mode]. *)
Fixpoint show_all (calls : list (list Z * Z * Z)) : M unit :=
  match calls with
  | [] => ret tt
  | (fb, color, mode) :: rest =>
      ledmatrix_show fb color mode ;; show_all rest
  end.

(** The error kind [InvalidArgument] of the interface. *)
Definition is_invalid_argument (e : mp_exception) : bool :=
  match e with
  | ValueError _ | TypeError _ => true
  | OSError _ => false
  end.

(** The [switch] of [ledmatrix_show], for a display of [W] by [H] pixels. *)
Definition show_colors (fb : list Z) (mode strm W H : Z) : M unit :=
  let len := Z.of_nat (length fb) in
  if mode =? COLOR_RGB565 then
    (if negb (len =? u32 (W * H * 2))
     then mp_raise (ValueError "Unexpected buffer size") else ret tt) ;;
    update_framebuffer strm fb get_color_bits_rgb
  else if mode =? COLOR_GS8 then
    (if negb (len =? u32 (W * H))
     then mp_raise (ValueError "Unexpected buffer size") else ret tt) ;;
    update_framebuffer strm fb get_color_bits_gs8
  else if mode =? COLOR_MONO then
    (if negb (len =? u32 ((Z.quot (W - 1) 8 + 1) * H))
     then mp_raise (ValueError "Unexpected buffer size") else ret tt) ;;
    update_framebuffer strm fb get_color_bits_mono_hlsb
  else ret tt.

(** The [mono_color] update of [ledmatrix_show]. *)
Definition show_tint (color : Z) (m : matrix_t) : matrix_t :=
  if color >=? 0
  then set_mono_color [Z.land (Z.shiftr color 16) 255;
                       Z.land (Z.shiftr color 8) 255;
                       Z.land color 255] m
  else m.

(** The decoder [show] selects for a mode, if any. *)
Definition decoder_of (mode : Z) : option get_color_func :=
  if mode =? COLOR_RGB565 then Some get_color_bits_rgb
  else if mode =? COLOR_GS8 then Some get_color_bits_gs8
  else if mode =? COLOR_MONO then Some get_color_bits_mono_hlsb
  else None.

(** [sd'] is [sd] after the colour pass of a [show] in that mode. *)
Definition encoded (m : matrix_t) (fb : list Z) (mode : Z) (sd sd' : list Z)
  : Prop :=
  match decoder_of mode with
  | Some dec => update_framebuffer_data m fb dec sd = Some sd'
  | None => sd' = sd
  end.

(** The fields that only [init] and [set_brightness] write. *)
Definition same_geometry (m m' : matrix_t) : Prop :=
  width m' = width m /\ height m' = height m /\ rows m' = rows m /\
  color_depth m' = color_depth m /\ invert m' = invert m /\
  column_swap m' = column_swap m /\ single_chn m' = single_chn m /\
  dma_desc_count m' = dma_desc_count m /\ brightness m' = brightness m /\
  double_buffer m' = double_buffer m /\ initialized m' = initialized m.

(** Two RGB565 frames for the demo geometry (4 by 4 pixels): all black and
    all white. *)
Definition demo_fbA : list Z := repeat 0 32.
Definition demo_fbB : list Z := repeat 255 32.

Definition demo_calls : list (list Z * Z * Z) :=
  [(demo_fbA, -1, COLOR_RGB565); (demo_fbB, -1, COLOR_RGB565)].

(** The arguments [ledmatrix_init] rejects before it allocates anything. *)
Definition init_invalid (args : init_args) : bool :=
  Z.odd (arg_width args)
  || ((0 <? arg_brightness args)
      && (u16 (arg_width args) - 1 <=? u16 (arg_brightness args)))
  || (u8 (arg_color_depth args) =? 0)
  || (6 <? Z.of_nat (length (io_rows args)))
  || (if arg_single_channel args
      then negb (Z.min 6 (Z.of_nat (length (io_colors args))) =? 3)
      else Z.of_nat (length (io_colors args)) <? 6).

(** All the pin indices handed to [init], in the order of the bus. *)
Definition pins_of (args : init_args) : list mp_obj :=
  io_colors args ++ io_rows args
  ++ [MpSmallInt (io_oe args); MpSmallInt (io_lat args);
      MpSmallInt (io_clk args)].

Definition mp_obj_eq_dec (x y : mp_obj) : {x = y} + {x <> y}.
Proof. decide equality; apply Z.eq_dec. Defined.

Fixpoint has_duplicate (l : list mp_obj) : bool :=
  match l with
  | [] => false
  | x :: rest =>
      (if in_dec mp_obj_eq_dec x rest then true else false)
      || has_duplicate rest
  end.

Definition is_small_int (o : mp_obj) : bool :=
  match o with MpSmallInt _ => true | MpOther => false end.

(** Two argument sets that differ in the pin numbers only: the same
    arguments otherwise, as many colour and row pins, and integers at the
    same places of [io_colors] and [io_rows]. *)
Definition same_but_pins (a a' : init_args) : Prop :=
  map is_small_int (io_colors a) = map is_small_int (io_colors a') /\
  map is_small_int (io_rows a) = map is_small_int (io_rows a') /\
  arg_width a = arg_width a' /\
  arg_color_depth a = arg_color_depth a' /\
  arg_clock_speed_khz a = arg_clock_speed_khz a' /\
  arg_invert a = arg_invert a' /\
  arg_double_buffer a = arg_double_buffer a' /\
  arg_column_swap a = arg_column_swap a' /\
  arg_single_channel a = arg_single_channel a' /\
  arg_brightness a = arg_brightness a'.

(** Whether an outcome is an [InvalidArgument] error. *)
Definition fails_invalid {A} (o : outcome A) : bool :=
  match o with
  | Raised e _ => is_invalid_argument e
  | _ => false
  end.

(** Variations of the demo arguments. *)
Definition with_pins (colors rows : list Z) (oe lat clk : Z)
  (args : init_args) : init_args :=
  mk_init_args (map MpSmallInt colors) (map MpSmallInt rows) oe lat clk
    (arg_width args) (arg_color_depth args) (arg_clock_speed_khz args)
    (arg_invert args) (arg_double_buffer args) (arg_column_swap args)
    (arg_single_channel args) (arg_brightness args).

Definition with_brightness (v : Z) (args : init_args) : init_args :=
  mk_init_args (io_colors args) (io_rows args) (io_oe args) (io_lat args)
    (io_clk args) (arg_width args) (arg_color_depth args)
    (arg_clock_speed_khz args) (arg_invert args) (arg_double_buffer args)
    (arg_column_swap args) (arg_single_channel args) v.

Definition with_width (w : Z) (args : init_args) : init_args :=
  mk_init_args (io_colors args) (io_rows args) (io_oe args) (io_lat args)
    (io_clk args) w (arg_color_depth args)
    (arg_clock_speed_khz args) (arg_invert args) (arg_double_buffer args)
    (arg_column_swap args) (arg_single_channel args) (arg_brightness args).

(** Argument sets that [init] accepts: every pin index equal; no row pin;
    a negative brightness; seven colour pins in dual-channel mode. *)
Definition dup_args : init_args :=
  with_pins [1; 1; 1; 1; 1; 1] [1] 1 1 1 demo_args.
Definition norow_args : init_args :=
  with_pins [1; 2; 3; 4; 5; 6] [] 8 9 10 demo_args.
Definition dim_args : init_args := with_brightness (-5) demo_args.
Definition seven_args : init_args :=
  with_pins [1; 2; 3; 4; 5; 6; 7] [8] 9 10 11 demo_args.

(** An 8 pixel wide geometry with the default white tint, for the
    monochrome decoder. *)
Definition mono_geometry : matrix_t :=
  set_mono_color [255; 255; 255]
    (set_height 4 (set_rows 2
       (set_geometry 8 1 false false true false matrix_zero))).

(** *** Vocabulary of the further properties *)

(** Bit [bit] (0 is the most significant) of a colour channel of [bits]
    bits whose most significant bit is bit [msb] of the pixel; 0 past the
    width of the channel. *)
Definition channel_bit (color msb bits bit : Z) : Z :=
  if bit <? bits then Z.b2z (Z.testbit color (msb - bit)) else 0.

(** The three colour lines of an RGB565 pixel in plane [bit]. *)
Definition rgb_lines (color bit : Z) : Z :=
  channel_bit color 15 5 bit + 2 * channel_bit color 10 6 bit
  + 4 * channel_bit color 4 5 bit.

(** Pixel [(x, y)] of an RGB565 framebuffer of width [W], little endian. *)
Definition pixel565 (W : Z) (fb : list Z) (x y : Z) : Z :=
  match load fb (2 * (y * W + x)), load fb (2 * (y * W + x) + 1) with
  | Some lo, Some hi => u16 (lo + 256 * hi)
  | _, _ => 0
  end.

(** An initialised display between two calls: [wf_matrix], the even width
    [init] insists on, the height that goes with the rows, and three tint
    bytes. *)
Definition wf_display (m : matrix_t) : Prop :=
  wf_matrix m /\ initialized m = true /\ Z.even (width m) = true /\
  height m = (if single_chn m then rows m else 2 * rows m) /\
  exists c0 c1 c2, mono_color m = [c0; c1; c2].

(** The number of bytes [show] expects of a framebuffer. *)
Definition frame_size (m : matrix_t) (mode : Z) : Z :=
  if mode =? COLOR_RGB565 then width m * height m * 2
  else if mode =? COLOR_GS8 then width m * height m
  else (Z.quot (width m - 1) 8 + 1) * height m.

(** A one-buffer variant of the demo display. *)
Definition single_args : init_args :=
  mk_init_args (map MpSmallInt [1; 2; 3; 4; 5; 6]) [MpSmallInt 7] 8 9 10
               4 2 2500 false false true false (-1).

Definition single_matrix : matrix_t := state_of (demo_init single_args).

(** [init] with a colour depth of 9, which it accepts, and the display it
    leaves. *)
Definition deep_args : init_args :=
  mk_init_args (map MpSmallInt [1; 2; 3; 4; 5; 6]) [MpSmallInt 7] 8 9 10
               4 9 2500 false true true false (-1).
Definition deep_matrix : matrix_t := state_of (demo_init deep_args).

(** A GS8 frame for the demo geometry. *)
Definition demo_fbG : list Z := repeat 128 16.

(** The column a stream pixel is taken from. *)
Definition source_column (m : matrix_t) (pixel : Z) : Z :=
  if column_swap m then Z.lxor pixel 1 else pixel.


(** Whether a control byte of the stream blanks the output: its OE bit,
    with the inversion for the level shifters undone. *)
Definition oe_bit (m : matrix_t) (c : Z) : bool :=
  xorb (Z.testbit c BITSTREAM_CTRL_OE_BIT) (invert m).

(** The columns of row [row] of plane [l] during which the output is on. *)
Definition lit_columns (m : matrix_t) (sd : list Z) (l row : Z) : list Z :=
  List.filter
    (fun p =>
       match load sd (cell (width m) (rows m) l row p + BITSTREAM_CTRL_BYTE)
       with
       | Some c => negb (oe_bit m c)
       | None => false
       end)
    (seqZ 0 (width m)).

(** *** [init]: the configuration it derives from its arguments *)

Definition pin_value (o : mp_obj) : Z :=
  match o with MpSmallInt v => v | MpOther => -1 end.

(** The arguments that pass every check of [init]: not [init_invalid], and
    integers for the six colour pins that are read and for the row pins. *)
Definition init_accepts (args : init_args) : bool :=
  negb (init_invalid args)
  && forallb is_small_int (take 6 (io_colors args))
  && forallb is_small_int (io_rows args).

(** The routing of the 16 bus lines: colour pins from line 0, OE and LAT on
    lines 8 and 9, row pins from line 10, [-1] on the lines not used. *)
Definition init_bus (args : init_args) : list Z :=
  let cs := map pin_value (take 6 (io_colors args)) in
  let rs := map pin_value (io_rows args) in
  cs ++ repeat (-1) (8 - length cs) ++ [io_oe args; io_lat args]
  ++ rs ++ repeat (-1) (6 - length rs).

Definition init_config (args : init_args) : i2s_parallel_config_t :=
  mk_i2s_config I2S_PARALLEL_WIDTH_16 (init_bus args) (io_clk args)
    (s32 (arg_clock_speed_khz args * 1000)).

Definition init_rows (args : init_args) : Z :=
  2 ^ Z.of_nat (length (io_rows args)).

Definition init_brightness (args : init_args) : Z :=
  if 0 <? arg_brightness args then arg_brightness args + 1
  else arg_width args - 1.

(** The global when [init] has read its arguments, before it allocates. *)
Definition init_geometry (args : init_args) : matrix_t :=
  mk_matrix [stream_buffer_zero; stream_buffer_zero] 0
    (arg_width args)
    (if arg_single_channel args then init_rows args else 2 * init_rows args)
    (init_brightness args) [255; 255; 255] (init_rows args)
    (arg_color_depth args) 0 (arg_invert args) (arg_column_swap args)
    (arg_double_buffer args) (arg_single_channel args) false.

(** Bytes of one stream buffer and number of descriptors of one ring. *)
Definition init_stream_bytes (args : init_args) : Z :=
  2 * arg_width args * init_rows args * arg_color_depth args.

Definition init_descriptors (args : init_args) : Z :=
  (2 ^ arg_color_depth args - 1)
  * ceil_div (2 * arg_width args * init_rows args) DMA_MAX_XFER_SIZE.



(** *** Scripts of calls *)

(** A call of one of the entry points that need an initialised display. *)
Inductive api_call : Type :=
| CallShow (fb : list Z) (color mode : Z)
| CallSetBrightness (b : mp_obj)
| CallStop
| CallResume.

Definition run_call (send : desc_ptr -> Z) (c : api_call) : M unit :=
  match c with
  | CallShow fb color mode => ledmatrix_show fb color mode
  | CallSetBrightness b => ledmatrix_set_brightness b
  | CallStop => ledmatrix_stop
  | CallResume => ledmatrix_resume send
  end.

(** A script whose caller catches every exception and goes on; [None] when
    a call has undefined behaviour. *)
Fixpoint run_script (send : desc_ptr -> Z) (cs : list api_call)
  (m : matrix_t) : option matrix_t :=
  match cs with
  | [] => Some m
  | c :: rest =>
      match run_call send c m with
      | Done _ m' => run_script send rest m'
      | Raised _ m' => run_script send rest m'
      | Undefined => None
      end
  end.

Definition is_mono_show (c : api_call) : bool :=
  match c with
  | CallShow _ _ mode => mode =? COLOR_MONO
  | _ => false
  end.

Definition demo_script : list api_call :=
  [CallShow demo_fbA (-1) COLOR_RGB565; CallSetBrightness (MpSmallInt 1);
   CallShow [1; 2; 3] 255 COLOR_GS8; CallSetBrightness (MpSmallInt 9);
   CallStop; CallSetBrightness MpOther; CallShow demo_fbG 16711680 COLOR_GS8;
   CallResume; CallShow demo_fbB (-1) 7].

(** *** The blocks of a subimage *)

(** Descriptor [j] of a slot that streams the subimage at offset [o] of
    buffer [b]: it transfers block [j] of that subimage. *)
Definition slot_block (b stride o j : Z) (e : lldesc_t) : Prop :=
  d_buf e = StreamPtr b (o + DMA_MAX_XFER_SIZE * j) /\
  d_length e = Z.min DMA_MAX_XFER_SIZE (stride - DMA_MAX_XFER_SIZE * j) /\
  d_size e = d_length e /\ d_owner e = 1.

(** The first [n] slots of the ring are cut into the blocks of the
    subimage their first descriptor points at. *)
Definition tiled (b stride per n : Z) (d : list lldesc_t) : Prop :=
  forall s j, 0 <= s < n -> 0 <= j < per ->
    exists o e,
      head per d s = StreamPtr b o /\
      load d (s * per + j) = Some e /\
      slot_block b stride o j e.
(** ** Memory and loop lemmas *)

Lemma load_lookup {A} (l : list A) (i : Z) :
  0 <= i -> load l i = l !! Z.to_nat i.
Proof. intros H. unfold load. destruct (Z.leb_spec 0 i); [reflexivity | lia]. Qed.

Lemma load_in_range {A} (l : list A) (i : Z) :
  0 <= i < Z.of_nat (length l) -> exists x, load l i = Some x.
Proof.
  intros H. rewrite load_lookup by lia.
  destruct (l !! Z.to_nat i) eqn:E; [eauto |].
  apply lookup_ge_None in E. lia.
Qed.

Lemma load_Some_range {A} (l : list A) (i : Z) (x : A) :
  load l i = Some x -> 0 <= i < Z.of_nat (length l).
Proof.
  unfold load. destruct (Z.leb_spec 0 i); [| discriminate].
  intros E. apply lookup_lt_Some in E. lia.
Qed.

Lemma store_in_range {A} (l : list A) (i : Z) (x : A) :
  0 <= i < Z.of_nat (length l) -> store l i x = Some (<[Z.to_nat i := x]> l).
Proof.
  intros H. unfold store.
  destruct (Z.leb_spec 0 i); [| lia].
  destruct (Z.ltb_spec i (Z.of_nat (length l))); [reflexivity | lia].
Qed.

Lemma store_Some {A} (l l' : list A) (i : Z) (x : A) :
  store l i x = Some l' ->
  0 <= i < Z.of_nat (length l) /\ l' = <[Z.to_nat i := x]> l.
Proof.
  unfold store.
  destruct (Z.leb_spec 0 i); [| discriminate].
  destruct (Z.ltb_spec i (Z.of_nat (length l))); [| discriminate].
  simpl. intros E. inversion E. split; [lia | reflexivity].
Qed.

Lemma length_store {A} (l l' : list A) (i : Z) (x : A) :
  store l i x = Some l' -> length l' = length l.
Proof.
  intros E. apply store_Some in E as [_ ->]. apply length_insert.
Qed.

Lemma load_store_eq {A} (l l' : list A) (i : Z) (x : A) :
  store l i x = Some l' -> load l' i = Some x.
Proof.
  intros E. apply store_Some in E as [Hi ->].
  rewrite load_lookup by lia. apply list_lookup_insert_eq. lia.
Qed.

Lemma load_store_ne {A} (l l' : list A) (i j : Z) (x : A) :
  store l i x = Some l' -> j <> i -> load l' j = load l j.
Proof.
  intros E Hne. apply store_Some in E as [Hi ->].
  unfold load. destruct (Z.leb_spec 0 j); [| reflexivity].
  apply list_lookup_insert_ne. lia.
Qed.

Lemma lookup_repeat {A} (x : A) (n i : nat) :
  (i < n)%nat -> repeat x n !! i = Some x.
Proof.
  revert i. induction n as [| n IH]; intros i Hi; [lia |].
  destruct i as [| i]; simpl; [reflexivity |]. apply IH. lia.
Qed.

Lemma for_loop_partial {S} (P : Z -> S -> Prop) (body : Z -> S -> option S) :
  forall (n : nat) (lo : Z) (s s' : S),
  P lo s ->
  (forall i t t', lo <= i < lo + Z.of_nat n -> P i t -> body i t = Some t' ->
                  P (i + 1) t') ->
  for_loop n lo body s = Some s' ->
  P (lo + Z.of_nat n) s'.
Proof.
  induction n as [| n IH]; intros lo s s' H0 Hstep Hrun; simpl in Hrun.
  - inversion Hrun; subst. now rewrite Z.add_0_r.
  - destruct (body lo s) as [t |] eqn:Eb; simpl in Hrun; [| discriminate].
    replace (lo + Z.of_nat (Datatypes.S n)) with (lo + 1 + Z.of_nat n) by lia.
    apply (IH (lo + 1) t s').
    + apply (Hstep lo s t); [lia | assumption | assumption].
    + intros i u u' Hi. apply Hstep. lia.
    + assumption.
Qed.

Lemma for_loop_total {S} (P : Z -> S -> Prop) (body : Z -> S -> option S) :
  forall (n : nat) (lo : Z) (s : S),
  P lo s ->
  (forall i t, lo <= i < lo + Z.of_nat n -> P i t ->
               exists t', body i t = Some t' /\ P (i + 1) t') ->
  exists s', for_loop n lo body s = Some s' /\ P (lo + Z.of_nat n) s'.
Proof.
  induction n as [| n IH]; intros lo s H0 Hstep; simpl.
  - exists s. now rewrite Z.add_0_r.
  - destruct (Hstep lo s) as (t & Eb & Ht); [lia | assumption |].
    rewrite Eb. simpl.
    replace (lo + Z.of_nat (Datatypes.S n)) with (lo + 1 + Z.of_nat n) by lia.
    apply IH; [assumption |].
    intros i u Hi. apply Hstep. lia.
Qed.

Lemma for_range_partial {S} (P : Z -> S -> Prop) (body : Z -> S -> option S)
  (lo hi : Z) (s s' : S) :
  lo <= hi -> P lo s ->
  (forall i t t', lo <= i < hi -> P i t -> body i t = Some t' -> P (i + 1) t') ->
  for_range lo hi body s = Some s' -> P hi s'.
Proof.
  intros Hle H0 Hstep Hrun. unfold for_range in Hrun.
  replace hi with (lo + Z.of_nat (Z.to_nat (hi - lo))) by lia.
  eapply for_loop_partial; eauto.
  intros i t t' Hi. apply Hstep. lia.
Qed.

Lemma for_range_total {S} (P : Z -> S -> Prop) (body : Z -> S -> option S)
  (lo hi : Z) (s : S) :
  lo <= hi -> P lo s ->
  (forall i t, lo <= i < hi -> P i t ->
               exists t', body i t = Some t' /\ P (i + 1) t') ->
  exists s', for_range lo hi body s = Some s' /\ P hi s'.
Proof.
  intros Hle H0 Hstep. unfold for_range.
  destruct (for_loop_total P body (Z.to_nat (hi - lo)) lo s) as (s' & E & Hs');
    [assumption | |].
  - intros i t Hi. apply Hstep. lia.
  - exists s'. split; [assumption |].
    replace hi with (lo + Z.of_nat (Z.to_nat (hi - lo))) by lia. assumption.
Qed.

Lemma for_range_total_const {S} (Q : S -> Prop) (body : Z -> S -> option S)
  (lo hi : Z) (s : S) :
  lo <= hi -> Q s ->
  (forall i t, lo <= i < hi -> Q t -> exists t', body i t = Some t' /\ Q t') ->
  exists s', for_range lo hi body s = Some s' /\ Q s'.
Proof.
  intros Hle H0 Hstep.
  apply (for_range_total (fun _ => Q)); assumption.
Qed.

(** ** The traversal of the stream data *)

Lemma u32_small (z : Z) : 0 <= z < 4294967296 -> u32 z = z.
Proof. intros H. unfold u32. now apply Z.mod_small. Qed.

Lemma cell_wrap (W R D l r p : Z) :
  0 <= l < D -> 0 <= r < R -> 0 <= p < W -> 2 * W * R * D < 4294967296 ->
  u32 (u32 (u32 (2 * W) * R) * l) + u32 (u32 (2 * W) * r) + u32 (2 * p)
  = cell W R l r p.
Proof.
  intros Hl Hr Hp Hsz. unfold cell.
  assert (H0 : 0 <= W * R) by nia.
  assert (HWR : 2 * W * R <= 2 * W * R * D).
  { pose proof (Z.mul_nonneg_nonneg (W * R) (D - 1) H0). nia. }
  assert (HW : 2 * W <= 2 * W * R) by nia.
  assert (Hl' : 0 <= 2 * W * R * l <= 2 * W * R * D).
  { pose proof (Z.mul_nonneg_nonneg (W * R) l H0).
    pose proof (Z.mul_nonneg_nonneg (W * R) (D - l) H0). nia. }
  rewrite (u32_small (2 * W)) by lia.
  rewrite (u32_small (2 * W * R)) by lia.
  rewrite (u32_small (2 * W * R * l)) by lia.
  rewrite (u32_small (2 * W * r)) by nia.
  rewrite (u32_small (2 * p)) by lia.
  reflexivity.
Qed.

Lemma cell_bound (W R D l r p : Z) :
  0 <= l < D -> 0 <= r < R -> 0 <= p < W ->
  0 <= cell W R l r p /\ cell W R l r p + 2 <= 2 * W * R * D.
Proof.
  intros Hl Hr Hp. unfold cell.
  assert (H0 : 0 <= W * R) by nia.
  assert (2 * W * r + 2 * p + 2 <= 2 * W * R) by nia.
  assert (2 * W * R * l + 2 * W * R <= 2 * W * R * D).
  { pose proof (Z.mul_nonneg_nonneg (W * R) (D - l - 1) H0). nia. }
  assert (0 <= 2 * W * R * l).
  { pose proof (Z.mul_nonneg_nonneg (W * R) l H0). nia. }
  nia.
Qed.

Lemma cell_inj (W R l r p l' r' p' : Z) :
  0 <= r < R -> 0 <= p < W -> 0 <= r' < R -> 0 <= p' < W ->
  cell W R l r p = cell W R l' r' p' -> l = l' /\ r = r' /\ p = p'.
Proof.
  intros Hr Hp Hr' Hp'. unfold cell. intros E.
  assert (Hx : 0 <= 2 * W * r + 2 * p < 2 * W * R) by nia.
  assert (Hx' : 0 <= 2 * W * r' + 2 * p' < 2 * W * R) by nia.
  assert (l = l') by nia. subst l'.
  assert (r = r') by nia. subst r'.
  repeat split; lia.
Qed.

Lemma cell_even (W R l r p : Z) : cell W R l r p mod 2 = 0.
Proof.
  unfold cell.
  replace (2 * W * R * l + 2 * W * r + 2 * p)
    with ((W * R * l + W * r + p) * 2) by ring.
  apply Z.mod_mul. lia.
Qed.

(** One store at the frontier moves the frontier by one word. *)
Lemma filled_step (W R D off : Z) (v : Z -> Z -> Z -> option Z)
  (sd0 sd sd' : list Z) (l r p c : Z) :
  0 <= l < D -> 0 <= r < R -> 0 <= p < W ->
  filled W R D off v (cell W R l r p) sd0 sd ->
  v l r p = Some c ->
  store sd (cell W R l r p + off) c = Some sd' ->
  filled W R D off v (cell W R l r p + 2) sd0 sd'.
Proof.
  intros Hl Hr Hp (Hlen & Hcells & Hrest) Hv Hst.
  pose proof (cell_even W R l r p) as Hev.
  split; [| split].
  - rewrite (length_store _ _ _ _ Hst). exact Hlen.
  - intros l1 r1 p1 Hl1 Hr1 Hp1 Hlt.
    pose proof (cell_even W R l1 r1 p1) as Hev1.
    destruct (Z.eq_dec (cell W R l1 r1 p1) (cell W R l r p)) as [E | NE].
    + apply cell_inj in E as (-> & -> & ->); try assumption.
      exists c. split; [assumption |]. eapply load_store_eq; eassumption.
    + assert (Hlt' : cell W R l1 r1 p1 < cell W R l r p).
      { apply Z.mod_divide in Hev, Hev1; try lia.
        destruct Hev as [x Hx], Hev1 as [y Hy]. lia. }
      destruct (Hcells l1 r1 p1 Hl1 Hr1 Hp1 Hlt') as (c1 & Hv1 & Hld).
      exists c1. split; [assumption |].
      rewrite (load_store_ne _ _ _ _ _ Hst) by lia. assumption.
  - intros a Ha.
    rewrite (load_store_ne sd sd' (cell W R l r p + off) a c Hst).
    + apply Hrest. intros [H1 H2]. apply Ha. split; [lia | assumption].
    + intros ->. apply Ha.
      replace (cell W R l r p + off - off) with (cell W R l r p) by lia.
      split; [lia | assumption].
Qed.

Lemma filled_start (W R D off : Z) (v : Z -> Z -> Z -> option Z)
  (sd0 : list Z) :
  filled W R D off v 0 sd0 sd0.
Proof.
  split; [reflexivity | split].
  - intros l r p Hl Hr Hp Hlt.
    pose proof (cell_bound W R D l r p Hl Hr Hp). lia.
  - reflexivity.
Qed.

Lemma fill_cells_partial (W R D off : Z) (v : Z -> Z -> Z -> option Z)
  (sd sd' : list Z) :
  0 <= W -> 0 <= R -> 0 <= D -> 2 * W * R * D < 4294967296 ->
  fill_cells W R D off v sd = Some sd' ->
  filled W R D off v (2 * W * R * D) sd sd'.
Proof.
  intros HW HR HD Hsz Hrun. unfold fill_cells in Hrun. cbv zeta in Hrun.
  replace (2 * W * R * D) with (cell W R D 0 0) by (unfold cell; ring).
  revert Hrun.
  apply (for_range_partial (fun l t => filled W R D off v (cell W R l 0 0) sd t));
    [assumption
    | replace (cell W R 0 0 0) with 0 by (unfold cell; ring); apply filled_start
    |].
  intros l t t' Hl Ht.
  replace (cell W R (l + 1) 0 0) with (cell W R l R 0) by (unfold cell; ring).
  apply (for_range_partial (fun r u => filled W R D off v (cell W R l r 0) sd u));
    [assumption | assumption |].
  intros r u u' Hr Hu.
  replace (cell W R l (r + 1) 0) with (cell W R l r W) by (unfold cell; ring).
  apply (for_range_partial (fun p w => filled W R D off v (cell W R l r p) sd w));
    [assumption | assumption |].
  intros p w w' Hp Hw Hbody.
  rewrite (cell_wrap W R D l r p) in Hbody by assumption.
  destruct (v l r p) as [c |] eqn:Hv; simpl in Hbody; [| discriminate].
  replace (cell W R l r (p + 1)) with (cell W R l r p + 2) by (unfold cell; ring).
  eapply filled_step; eassumption.
Qed.

Lemma fill_cells_total (W R D off : Z) (v : Z -> Z -> Z -> option Z)
  (sd : list Z) :
  0 <= W -> 0 <= R -> 0 <= D -> 2 * W * R * D < 4294967296 ->
  0 <= off <= 1 ->
  2 * W * R * D <= Z.of_nat (length sd) ->
  (forall l r p, 0 <= l < D -> 0 <= r < R -> 0 <= p < W -> v l r p <> None) ->
  exists sd', fill_cells W R D off v sd = Some sd'.
Proof.
  intros HW HR HD Hsz Hoff Hlen Hv. unfold fill_cells. cbv zeta.
  set (Q := fun t : list Z => length t = length sd).
  destruct (for_range_total_const Q
    (fun lvl sd1 =>
       for_range 0 R (fun row sd2 =>
         for_range 0 W (fun pixel sd3 =>
           c <-? v lvl row pixel;
           store sd3 (u32 (u32 (u32 (2 * W) * R) * lvl) + u32 (u32 (2 * W) * row)
                      + u32 (2 * pixel) + off) c) sd2) sd1) 0 D sd)
    as (sd' & E & _); [assumption | reflexivity | | eauto].
  intros l t Hl Ht.
  apply (for_range_total_const Q); [assumption | assumption |].
  intros r u Hr Hu.
  apply (for_range_total_const Q); [assumption | assumption |].
  intros p w Hp Hw.
  rewrite (cell_wrap W R D l r p) by assumption.
  destruct (v l r p) as [c |] eqn:Ev; [| now destruct (Hv l r p)].
  simpl. pose proof (cell_bound W R D l r p Hl Hr Hp) as Hb.
  unfold Q in Hw.
  rewrite store_in_range by lia.
  eexists. split; [reflexivity |]. unfold Q. rewrite length_insert. assumption.
Qed.

(** ** Updates of one buffer of [matrix] *)

Lemma set_stream_spec (b : Z) (sd : option (list Z)) (m : matrix_t)
  (sb : stream_buffer_t) :
  load (buffer m) b = Some sb ->
  exists bs,
    set_stream b sd m = Some (set_buffer bs m) /\
    length bs = length (buffer m) /\
    load bs b = Some (mk_stream_buffer sd (dma_desc sb)) /\
    (forall b', b' <> b -> load bs b' = load (buffer m) b').
Proof.
  intros Hld. unfold set_stream. rewrite Hld. simpl.
  pose proof (load_Some_range _ _ _ Hld) as Hb.
  rewrite store_in_range by assumption. simpl.
  eexists. split; [reflexivity |].
  assert (Hst : store (buffer m) b (mk_stream_buffer sd (dma_desc sb))
                = Some (<[Z.to_nat b := mk_stream_buffer sd (dma_desc sb)]>
                          (buffer m)))
    by now apply store_in_range.
  split; [apply length_insert | split].
  - eapply load_store_eq; eassumption.
  - intros b' Hne. eapply load_store_ne; eassumption.
Qed.

Lemma set_descs_spec (b : Z) (dd : option (list lldesc_t)) (m : matrix_t)
  (sb : stream_buffer_t) :
  load (buffer m) b = Some sb ->
  exists bs,
    set_descs b dd m = Some (set_buffer bs m) /\
    length bs = length (buffer m) /\
    load bs b = Some (mk_stream_buffer (stream_data sb) dd) /\
    (forall b', b' <> b -> load bs b' = load (buffer m) b').
Proof.
  intros Hld. unfold set_descs. rewrite Hld. simpl.
  pose proof (load_Some_range _ _ _ Hld) as Hb.
  rewrite store_in_range by assumption. simpl.
  eexists. split; [reflexivity |].
  assert (Hst : store (buffer m) b (mk_stream_buffer (stream_data sb) dd)
                = Some (<[Z.to_nat b := mk_stream_buffer (stream_data sb) dd]>
                          (buffer m)))
    by now apply store_in_range.
  split; [apply length_insert | split].
  - eapply load_store_eq; eassumption.
  - intros b' Hne. eapply load_store_ne; eassumption.
Qed.

Lemma stream_of_Some (m : matrix_t) (b : Z) (sd : list Z) :
  stream_of m b = Some sd ->
  exists sb, load (buffer m) b = Some sb /\ stream_data sb = Some sd.
Proof.
  unfold stream_of. destruct (load (buffer m) b) as [sb |]; simpl; [| discriminate].
  eauto.
Qed.

(** ** The control byte *)

Lemma u8_testbit (z k : Z) : 0 <= k < 8 -> Z.testbit (u8 z) k = Z.testbit z k.
Proof.
  intros Hk. unfold u8. change 256 with (2 ^ 8).
  apply Z.mod_pow2_bits_low. lia.
Qed.

Lemma u8_range (z : Z) : 0 <= u8 z < 256.
Proof. unfold u8. apply Z.mod_pos_bound. lia. Qed.

Lemma u8_lnot_testbit (z k : Z) :
  0 <= k < 8 -> Z.testbit (u8 (Z.lnot z)) k = negb (Z.testbit z k).
Proof. intros Hk. rewrite u8_testbit by assumption. apply Z.lnot_spec. lia. Qed.

(** What one control byte holds before the inversion is applied. *)
Lemma control_byte_fields (m : matrix_t) (a row pixel : Z) :
  0 <= a <= 6 ->
  exists ctrl,
    control_byte m (u8 (row - 1)) pixel
      = (if invert m then u8 (Z.lnot ctrl) else ctrl) /\
    0 <= ctrl < 256 /\
    Z.shiftr ctrl BITSTREAM_CTRL_ROW_START_BIT mod 2 ^ a = (row - 1) mod 2 ^ a /\
    Z.testbit ctrl BITSTREAM_CTRL_OE_BIT
      = ((pixel <? 2) || (pixel >? brightness m)) /\
    Z.testbit ctrl BITSTREAM_CTRL_LAT_BIT = (pixel =? width m - 2).
Proof.
  intros Ha. unfold control_byte. cbv zeta.
  eexists. split; [reflexivity |].
  unfold BITSTREAM_CTRL_ROW_START_BIT, BITSTREAM_CTRL_OE_BIT,
    BITSTREAM_CTRL_LAT_BIT.
  change (Z.shiftl 1 0) with 1. change (Z.shiftl 1 1) with 2.
  set (X := u8 (Z.shiftl (u8 (row - 1)) 2)).
  assert (HX : forall k, 0 <= k < 6 -> Z.testbit X (k + 2) = Z.testbit (row - 1) k).
  { intros k Hk. unfold X. rewrite u8_testbit by lia.
    rewrite Z.shiftl_spec by lia.
    replace (k + 2 - 2) with k by lia. apply u8_testbit. lia. }
  assert (HX0 : Z.testbit X 0 = false).
  { unfold X. rewrite u8_testbit by lia. apply Z.shiftl_spec_low. lia. }
  assert (HX1 : Z.testbit X 1 = false).
  { unfold X. rewrite u8_testbit by lia. apply Z.shiftl_spec_low. lia. }
  assert (HXr : 0 <= X < 256) by apply u8_range.
  clearbody X.
  split; [| split; [| split]].
  - destruct (pixel =? width m - 2);
      destruct ((pixel <? 2) || (pixel >? brightness m));
      try apply u8_range; assumption.
  - apply Z.bits_inj'. intros k Hk.
    destruct (Z.lt_ge_cases k a) as [Hlt | Hge].
    + rewrite !Z.mod_pow2_bits_low by lia.
      rewrite Z.shiftr_spec by lia.
      assert (H1 : Z.testbit 1 (k + 2) = false)
        by (apply (Z.bits_above_log2 1 (k + 2)); simpl; lia).
      assert (H2 : Z.testbit 2 (k + 2) = false)
        by (apply (Z.bits_above_log2 2 (k + 2)); simpl; lia).
      destruct (pixel =? width m - 2);
        destruct ((pixel <? 2) || (pixel >? brightness m));
        repeat ((rewrite u8_testbit by lia) || rewrite Z.lor_spec);
        rewrite ?H1, ?H2, ?orb_false_r; apply HX; lia.
    + rewrite !Z.mod_pow2_bits_high by lia. reflexivity.
  - destruct (pixel =? width m - 2);
      destruct ((pixel <? 2) || (pixel >? brightness m));
      repeat ((rewrite u8_testbit by lia) || rewrite Z.lor_spec);
      rewrite ?HX0; reflexivity.
  - destruct (pixel =? width m - 2);
      destruct ((pixel <? 2) || (pixel >? brightness m));
      repeat ((rewrite u8_testbit by lia) || rewrite Z.lor_spec);
      rewrite ?HX1; reflexivity.
Qed.

Lemma create_control_pattern_data_cells (m : matrix_t) (sd : list Z) :
  0 <= width m -> 0 <= rows m -> 0 <= color_depth m ->
  2 * width m * rows m * color_depth m < 4294967296 ->
  2 * width m * rows m * color_depth m <= Z.of_nat (length sd) ->
  exists sd',
    create_control_pattern_data m sd = Some sd' /\
    length sd' = length sd /\
    (forall l r p,
       0 <= l < color_depth m -> 0 <= r < rows m -> 0 <= p < width m ->
       load sd' (cell (width m) (rows m) l r p + BITSTREAM_CTRL_BYTE)
       = Some (control_byte m (u8 (r - 1)) p)) /\
    (forall a, a mod 2 = 0 -> load sd' a = load sd a).
Proof.
  intros HW HR HD Hsz Hlen.
  change (create_control_pattern_data m sd)
    with (fill_cells (width m) (rows m) (color_depth m) BITSTREAM_CTRL_BYTE
            (fun _ row pixel => Some (control_byte m (u8 (row - 1)) pixel)) sd).
  destruct (fill_cells_total (width m) (rows m) (color_depth m)
              BITSTREAM_CTRL_BYTE
              (fun _ row pixel => Some (control_byte m (u8 (row - 1)) pixel)) sd)
    as (sd' & E); try assumption.
  { unfold BITSTREAM_CTRL_BYTE. lia. }
  { intros; discriminate. }
  exists sd'. split; [assumption |].
  apply fill_cells_partial in E as (Hlen' & Hcells & Hrest); try assumption.
  split; [assumption | split].
  - intros l r p Hl Hr Hp.
    pose proof (cell_bound _ _ _ l r p Hl Hr Hp) as Hb.
    destruct (Hcells l r p Hl Hr Hp) as (c & Hc & Hld); [lia |].
    inversion Hc; subst c. assumption.
  - intros a Ha. apply Hrest. unfold BITSTREAM_CTRL_BYTE. intros [_ H].
    replace a with (a - 1 + 1) in Ha by lia.
    rewrite Z.add_mod in Ha by lia. rewrite H in Ha. discriminate.
Qed.

Lemma create_control_pattern_spec (b : Z) (m : matrix_t) (sd : list Z) :
  0 <= width m -> 0 <= rows m -> 0 <= color_depth m ->
  2 * width m * rows m * color_depth m < 4294967296 ->
  stream_of m b = Some sd ->
  2 * width m * rows m * color_depth m <= Z.of_nat (length sd) ->
  exists bs sd',
    create_control_pattern b m = Done tt (set_buffer bs m) /\
    length bs = length (buffer m) /\
    stream_of (set_buffer bs m) b = Some sd' /\
    descs_of (set_buffer bs m) b = descs_of m b /\
    (forall b', b' <> b -> load bs b' = load (buffer m) b') /\
    length sd' = length sd /\
    (forall l r p,
       0 <= l < color_depth m -> 0 <= r < rows m -> 0 <= p < width m ->
       load sd' (cell (width m) (rows m) l r p + BITSTREAM_CTRL_BYTE)
       = Some (control_byte m (u8 (r - 1)) p)) /\
    (forall a, a mod 2 = 0 -> load sd' a = load sd a).
Proof.
  intros HW HR HD Hsz Hstream Hlen.
  destruct (create_control_pattern_data_cells m sd)
    as (sd' & Hrun & Hlen' & Hcells & Hrest); try assumption.
  destruct (stream_of_Some _ _ _ Hstream) as (sb & Hsb & Hsd).
  destruct (set_stream_spec b (Some sd') m sb Hsb)
    as (bs & Hset & Hbs & Hnew & Hother).
  exists bs, sd'.
  split.
  { unfold create_control_pattern, bind, get. rewrite Hstream, Hrun. simpl.
    unfold put_opt. rewrite Hset. reflexivity. }
  split; [assumption |].
  split.
  { unfold stream_of. simpl. rewrite Hnew. reflexivity. }
  split.
  { unfold descs_of. simpl. rewrite Hnew, Hsb. reflexivity. }
  repeat split; assumption.
Qed.

Lemma u8_row_field (r : Z) :
  u8 (Z.shiftl (u8 r) BITSTREAM_CTRL_ROW_START_BIT) = 4 * (r mod 64).
Proof.
  unfold u8, BITSTREAM_CTRL_ROW_START_BIT. rewrite Z.shiftl_mul_pow2 by lia.
  change (2 ^ 2) with 4. change 256 with (4 * 64) at 2.
  rewrite (Z.mul_comm (r mod 256) 4), Z.mul_mod_distr_l by lia.
  rewrite <- (Z.mod_mod_divide r 256 64) by (exists 4; reflexivity).
  reflexivity.
Qed.

Lemma below_64 (P : Z -> bool) :
  forallb P (seqZ 0 64) = true -> forall q, 0 <= q < 64 -> P q = true.
Proof.
  intros H q Hq. rewrite forallb_forall in H. apply H.
  apply list_elem_of_In, elem_of_seqZ. lia.
Qed.

(** The flags are or-ed into a byte whose two low bits are clear, and the
    complement of a byte [c] is [255 - c]. *)
Lemma control_flags (q : Z) (oe lat inv : bool) :
  0 <= q < 64 ->
  let c0 := 4 * q in
  let c1 := if oe then u8 (Z.lor c0 (Z.shiftl 1 BITSTREAM_CTRL_OE_BIT))
            else c0 in
  let c2 := if lat then u8 (Z.lor c1 (Z.shiftl 1 BITSTREAM_CTRL_LAT_BIT))
            else c1 in
  (if inv then u8 (Z.lnot c2) else c2)
  = (if inv then 255 - (4 * q + 2 * Z.b2z lat + Z.b2z oe)
     else 4 * q + 2 * Z.b2z lat + Z.b2z oe).
Proof.
  cbv zeta.
  change (Z.shiftl 1 BITSTREAM_CTRL_OE_BIT) with 1.
  change (Z.shiftl 1 BITSTREAM_CTRL_LAT_BIT) with 2.
  revert q.
  destruct oe, lat, inv; cbv iota; intros q Hq; apply Z.eqb_eq;
    revert q Hq;
    match goal with
    | |- forall q, _ -> (@?f q =? @?g q) = true =>
        apply (below_64 (fun q => f q =? g q))
    end; vm_compute; reflexivity.
Qed.

Lemma control_byte_value (m : matrix_t) (row pixel : Z) :
  control_byte m (u8 (row - 1)) pixel
  = let ctrl := 4 * ((row - 1) mod 64)
                + 2 * Z.b2z (pixel =? width m - 2)
                + Z.b2z ((pixel <? 2) || (pixel >? brightness m)) in
    if invert m then 255 - ctrl else ctrl.
Proof.
  unfold control_byte. cbv zeta. rewrite u8_row_field.
  apply (control_flags ((row - 1) mod 64)).
  apply Z.mod_pos_bound. lia.
Qed.

(** C2 (control-byte pass): after [create_control_pattern] on an allocated
    buffer, the control byte of every cell [(l, row, pixel)] is the byte
    [ctrl = 4 * ((row - 1) mod 64) + 2 * LAT + OE], with every one of its
    eight bits complemented when [invert] is set ([255 - ctrl]). In [ctrl]
    the [a] row-address bits (bits 2 and up, the ones routed to the bus)
    equal [(row - 1) mod rows], the OE bit is set iff [pixel < 2] or
    [pixel > brightness], and the LAT bit is set iff [pixel = width - 2]. *)
Theorem control_pattern_cells (b : Z) (m : matrix_t) (sd : list Z)
  (a l row pixel : Z) :
  0 < width m < 65536 -> 0 <= a <= 6 -> rows m = 2 ^ a ->
  0 <= color_depth m < 256 ->
  stream_of m b = Some sd ->
  Z.of_nat (length sd) = 2 * width m * rows m * color_depth m ->
  0 <= l < color_depth m -> 0 <= row < rows m -> 0 <= pixel < width m ->
  let oe := (pixel <? 2) || (pixel >? brightness m) in
  let lat := pixel =? width m - 2 in
  let ctrl := 4 * ((row - 1) mod 64) + 2 * Z.b2z lat + Z.b2z oe in
  exists m' sd' byte,
    create_control_pattern b m = Done tt m' /\
    stream_of m' b = Some sd' /\
    load sd' (cell (width m) (rows m) l row pixel + BITSTREAM_CTRL_BYTE)
      = Some byte /\
    byte = (if invert m then 255 - ctrl else ctrl) /\
    0 <= ctrl < 256 /\
    Z.shiftr ctrl BITSTREAM_CTRL_ROW_START_BIT mod 2 ^ a
      = (row - 1) mod rows m /\
    Z.testbit ctrl BITSTREAM_CTRL_OE_BIT = oe /\
    Z.testbit ctrl BITSTREAM_CTRL_LAT_BIT = lat /\
    (forall k, 0 <= k < 8 ->
       Z.testbit byte k = xorb (invert m) (Z.testbit ctrl k)).
Proof.
  intros HW Ha HR HD Hstream Hlen Hl Hrow Hpx oe lat ctrl.
  assert (HR' : 1 <= rows m <= 64).
  { rewrite HR. split.
    - apply (Z.pow_le_mono_r 2 0 a); lia.
    - apply (Z.pow_le_mono_r 2 a 6); lia. }
  assert (Hsz : 2 * width m * rows m * color_depth m < 4294967296).
  { assert (0 <= width m * rows m <= 65535 * 64) by nia.
    assert (0 <= width m * rows m * color_depth m <= 65535 * 64 * 255) by nia.
    lia. }
  destruct (create_control_pattern_spec b m sd)
    as (bs & sd' & Hrun & _ & Hst' & _ & _ & _ & Hcells & _);
    try assumption; try lia.
  pose proof (Z.mod_pos_bound (row - 1) 64 ltac:(lia)) as Hq.
  assert (Hctrl : 0 <= ctrl < 256).
  { unfold ctrl. destruct lat, oe; simpl Z.b2z; lia. }
  exists (set_buffer bs m), sd', (control_byte m (u8 (row - 1)) pixel).
  split; [assumption |]. split; [assumption |].
  split; [apply Hcells; assumption |].
  assert (Hval : control_byte m (u8 (row - 1)) pixel
                 = (if invert m then 255 - ctrl else ctrl))
    by apply control_byte_value.
  split; [exact Hval |]. split; [exact Hctrl |].
  split.
  { unfold BITSTREAM_CTRL_ROW_START_BIT. rewrite Z.shiftr_div_pow2 by lia.
    change (2 ^ 2) with 4.
    replace (ctrl / 4) with ((row - 1) mod 64).
    - rewrite HR.
      assert (D : (2 ^ a | 64)).
      { exists (2 ^ (6 - a)). rewrite <- Z.pow_add_r by lia.
        replace (6 - a + a) with 6 by lia. reflexivity. }
      apply Z.mod_mod_divide. exact D.
    - unfold ctrl.
      apply (Z.div_unique_pos _ 4 _ (2 * Z.b2z lat + Z.b2z oe));
        destruct lat, oe; simpl Z.b2z; lia. }
  split.
  { unfold BITSTREAM_CTRL_OE_BIT, ctrl.
    replace (4 * ((row - 1) mod 64) + 2 * Z.b2z lat + Z.b2z oe)
      with (2 * (2 * ((row - 1) mod 64) + Z.b2z lat) + Z.b2z oe) by lia.
    apply Z.testbit_0_r. }
  split.
  { unfold BITSTREAM_CTRL_LAT_BIT, ctrl.
    replace (4 * ((row - 1) mod 64) + 2 * Z.b2z lat + Z.b2z oe)
      with (2 * (2 * ((row - 1) mod 64) + Z.b2z lat) + Z.b2z oe) by lia.
    change 1 with (Z.succ 0). rewrite Z.testbit_succ_r by lia.
    apply Z.testbit_0_r. }
  intros k Hk. rewrite Hval.
  destruct (invert m); simpl xorb; [| reflexivity].
  replace (255 - ctrl) with (u8 (Z.lnot ctrl)).
  - apply u8_lnot_testbit. assumption.
  - unfold u8, Z.lnot. symmetry. apply (Z.mod_unique_pos _ _ (-1)); lia.
Qed.

(** ** The slots of the descriptor ring *)

Lemma count_occ_insert {A} (dec : forall x y : A, {x = y} + {x <> y})
  (l : list A) (i : nat) (x y p : A) :
  l !! i = Some y ->
  (count_occ dec (<[i := x]> l) p + (if dec y p then 1 else 0)
   = count_occ dec l p + (if dec x p then 1 else 0))%nat.
Proof.
  revert i. induction l as [| h t IH]; intros i Hi.
  - destruct i; discriminate.
  - destruct i as [| i]; simpl in *.
    + inversion Hi; subst h.
      destruct (dec x p), (dec y p); lia.
    + specialize (IH i Hi).
      destruct (dec h p); lia.
Qed.

Lemma heads_lookup (per slots : Z) (d : list lldesc_t) (s : Z) :
  0 <= s < slots -> heads per slots d !! Z.to_nat s = Some (head per d s).
Proof.
  intros Hs. unfold heads.
  change (map (head per d) (seqZ 0 slots)) with (head per d <$> seqZ 0 slots).
  rewrite list_lookup_fmap, lookup_seqZ_lt by lia.
  simpl. f_equal. f_equal. lia.
Qed.

Lemma length_heads (per slots : Z) (d : list lldesc_t) :
  length (heads per slots d) = Z.to_nat slots.
Proof. unfold heads. rewrite length_map. apply length_seqZ. Qed.

Lemma heads_ext (per slots : Z) (d d' : list lldesc_t) (f : data_ptr -> data_ptr) :
  (forall s, 0 <= s < slots -> head per d' s = f (head per d s)) ->
  heads per slots d' = map f (heads per slots d).
Proof.
  intros H. unfold heads. rewrite map_map. apply map_ext_in.
  intros s Hs. apply H.
  apply list_elem_of_In in Hs. apply elem_of_seqZ in Hs. lia.
Qed.

Lemma head_store_eq (per : Z) (d d' : list lldesc_t) (s : Z) (e : lldesc_t) :
  store d (s * per) e = Some d' -> head per d' s = d_buf e.
Proof.
  intros Hst. unfold head. now rewrite (load_store_eq _ _ _ _ Hst).
Qed.

Lemma head_store_ne (per : Z) (d d' : list lldesc_t) (i s : Z) (e : lldesc_t) :
  store d i e = Some d' -> i <> s * per -> head per d' s = head per d s.
Proof.
  intros Hst Hne. unfold head.
  now rewrite (load_store_ne _ _ _ _ _ Hst) by congruence.
Qed.

Lemma heads_store (per slots : Z) (d d' : list lldesc_t) (s : Z) (e : lldesc_t) :
  0 < per -> 0 <= s < slots ->
  store d (s * per) e = Some d' ->
  heads per slots d' = <[Z.to_nat s := d_buf e]> (heads per slots d).
Proof.
  intros Hper Hs Hst. apply list_eq. intros i.
  destruct (Nat.eq_dec i (Z.to_nat s)) as [-> | Hne].
  - rewrite list_lookup_insert_eq by (rewrite length_heads; lia).
    rewrite heads_lookup by assumption.
    f_equal. eapply head_store_eq; eassumption.
  - rewrite list_lookup_insert_ne by congruence.
    destruct (Z.lt_ge_cases (Z.of_nat i) slots) as [Hlt | Hge].
    + replace i with (Z.to_nat (Z.of_nat i)) by lia.
      rewrite !heads_lookup by lia. f_equal.
      eapply head_store_ne; [eassumption |]. nia.
    + rewrite !(proj2 (lookup_ge_None _ _)); [reflexivity | |];
        rewrite length_heads; lia.
Qed.

Lemma head_in_range (per slots : Z) (d : list lldesc_t) (s : Z) :
  0 < per -> 0 <= s < slots -> Z.of_nat (length d) = slots * per ->
  exists e, load d (s * per) = Some e /\ head per d s = d_buf e.
Proof.
  intros Hper Hs Hlen.
  destruct (load_in_range d (s * per)) as (e & He); [nia |].
  exists e. split; [assumption |]. unfold head. now rewrite He.
Qed.

Lemma free_slot_exists (per slots : Z) (d : list lldesc_t) :
  (0 < count_occ data_ptr_eq_dec (heads per slots d) NullData)%nat ->
  exists t, 0 <= t < slots /\ head per d t = NullData.
Proof.
  intros Hc. apply count_occ_In in Hc. unfold heads in Hc.
  apply in_map_iff in Hc as (t & Ht & Hin).
  apply list_elem_of_In in Hin. apply elem_of_seqZ in Hin.
  exists t. split; [lia | assumption].
Qed.

(** The probing loop reaches a free slot when there is one. *)
Lemma find_free_finds (per slots : Z) (d : list lldesc_t) (t : Z) :
  0 < per -> slots * per < 4294967296 ->
  Z.of_nat (length d) = slots * per ->
  0 <= t < slots -> head per d t = NullData ->
  forall (fuel : nat) (s : Z),
  0 <= s < slots ->
  (if s <=? t then t - s else t - s + slots) <= Z.of_nat fuel ->
  exists s', 0 <= s' < slots /\
             find_free fuel per (slots * per) d (s * per) = Some (s' * per) /\
             head per d s' = NullData.
Proof.
  intros Hper Hsz Hlen Ht Hfree.
  induction fuel as [| fuel IH]; intros s Hs Hdist.
  - assert (s = t) by (destruct (Z.leb_spec s t); lia). subst s.
    destruct (head_in_range per slots d t Hper Ht Hlen) as (e & He & Hhe).
    exists t. split; [assumption |]. split; [| assumption].
    simpl. rewrite He. simpl. rewrite <- Hhe, Hfree. reflexivity.
  - destruct (head_in_range per slots d s Hper Hs Hlen) as (e & He & Hhe).
    simpl. rewrite He. simpl.
    destruct (is_null (d_buf e)) eqn:Hnull.
    + exists s. split; [assumption |]. split; [reflexivity |].
      rewrite Hhe. destruct (d_buf e); [reflexivity | discriminate].
    + assert (Hst : s <> t).
      { intros ->. rewrite Hhe in Hfree. rewrite Hfree in Hnull. discriminate. }
      rewrite (u32_small (s * per + per)) by nia.
      destruct (Z.geb_spec (s * per + per) (slots * per)) as [Hwrap | Hnext].
      * assert (s = slots - 1) by nia. subst s.
        destruct (IH 0) as (s' & Hs' & Hrun & Hnul); [lia | |].
        { destruct (Z.leb_spec 0 t); destruct (Z.leb_spec (slots - 1) t); lia. }
        exists s'. rewrite Z.mul_0_l in Hrun. auto.
      * assert (s + 1 < slots) by nia.
        destruct (IH (s + 1)) as (s' & Hs' & Hrun & Hnul); [lia | |].
        { destruct (Z.leb_spec (s + 1) t); destruct (Z.leb_spec s t); lia. }
        exists s'. replace (s * per + per) with ((s + 1) * per) by ring. auto.
Qed.

Lemma shl_int_one (i : Z) : 0 <= i < 31 -> shl_int 1 i = Some (2 ^ i).
Proof.
  intros Hi. unfold shl_int. rewrite Z.shiftl_1_l.
  assert (2 ^ i < 2 ^ 31) by (apply Z.pow_lt_mono_r; lia).
  change (2 ^ 31) with 2147483648 in *.
  destruct (Z.leb_spec 0 i); [| lia].
  destruct (Z.ltb_spec i 32); [| lia].
  destruct (Z.ltb_spec (2 ^ i) 2147483648); [| lia].
  reflexivity.
Qed.

Lemma initial_pos_bound (count n k : Z) :
  0 < count -> 0 < n -> 0 <= k < n ->
  0 <= count * k / n + count / n / 2 < count.
Proof.
  intros Hc Hn Hk.
  pose proof (Z.mul_div_le (count * k) n Hn) as H1.
  pose proof (Z.mul_div_le count n Hn) as H2.
  pose proof (Z.mul_div_le (count / n) 2 ltac:(lia)) as H3.
  assert (0 <= count * k / n) by (apply Z.div_pos; nia).
  assert (0 <= count / n) by (apply Z.div_pos; lia).
  assert (0 <= count / n / 2) by (apply Z.div_pos; lia).
  split; [lia |].
  assert (count * k <= count * n - count) by nia.
  assert (2 * n * (count * k / n + count / n / 2) < 2 * n * count) by nia.
  nia.
Qed.

Section Spread.

Variables b stride per depth : Z.
Hypothesis Hper : 0 < per.
Hypothesis Hstride : 0 < stride.
Hypothesis Hdepth : 1 <= depth <= 30.
Hypothesis Hcount : (2 ^ depth - 1) * per * 2 ^ depth < 4294967296.
Hypothesis Hsize : stride * depth < 4294967296.

Lemma slots_pos : 0 < 2 ^ depth - 1.
Proof.
  assert (2 ^ 1 <= 2 ^ depth) by (apply Z.pow_le_mono_r; lia).
  change (2 ^ 1) with 2 in *. lia.
Qed.

Lemma count_small : 0 < (2 ^ depth - 1) * per < 4294967296.
Proof.
  pose proof slots_pos. split; [nia |].
  assert (1 <= 2 ^ depth) by lia. nia.
Qed.

Lemma plane_small (j : Z) : 0 <= j < depth -> 0 <= stride * j < 4294967296.
Proof. intros Hj. nia. Qed.

Lemma spread_inv_start :
  spread_inv b stride per depth 0 0
    (repeat lldesc_zero (Z.to_nat ((2 ^ depth - 1) * per))).
Proof.
  pose proof slots_pos as HS. pose proof count_small as HN.
  assert (Hlen : Z.of_nat (length (repeat lldesc_zero
                   (Z.to_nat ((2 ^ depth - 1) * per)))) = (2 ^ depth - 1) * per)
    by (rewrite repeat_length; lia).
  assert (Hhead : forall s, 0 <= s < 2 ^ depth - 1 ->
            head per (repeat lldesc_zero (Z.to_nat ((2 ^ depth - 1) * per))) s
            = NullData).
  { intros s Hs.
    destruct (head_in_range per _ _ s Hper Hs Hlen) as (e & He & ->).
    rewrite load_lookup in He by nia.
    apply list_elem_of_lookup_2, list_elem_of_In, repeat_spec in He.
    now subst e. }
  assert (Hheads : heads per (2 ^ depth - 1)
                     (repeat lldesc_zero (Z.to_nat ((2 ^ depth - 1) * per)))
                   = repeat NullData (Z.to_nat (2 ^ depth - 1))).
  { apply list_eq. intros i.
    destruct (Z.lt_ge_cases (Z.of_nat i) (2 ^ depth - 1)) as [Hlt | Hge].
    - replace i with (Z.to_nat (Z.of_nat i)) at 1 by lia.
      rewrite heads_lookup, Hhead by lia.
      symmetry. apply lookup_repeat. lia.
    - rewrite !(proj2 (lookup_ge_None _ _)); [reflexivity | |].
      + rewrite repeat_length. lia.
      + rewrite length_heads. lia. }
  split; [assumption |]. split; [| split].
  - intros s Hs. left. now apply Hhead.
  - intros j Hj. unfold appearances. rewrite Hheads.
    rewrite count_occ_repeat_neq by discriminate.
    destruct (Z.ltb_spec j 0); [lia |].
    destruct (Z.eqb_spec j 0); reflexivity.
  - rewrite Hheads, count_occ_repeat_eq by reflexivity. simpl. lia.
Qed.

Lemma place_subimage_step (i k : Z) (d : list lldesc_t) :
  0 <= i < depth - 1 -> 0 <= k < 2 ^ i ->
  spread_inv b stride per depth i k d ->
  exists d',
    place_subimage b stride per ((2 ^ depth - 1) * per) i (2 ^ i) k d = Some d' /\
    spread_inv b stride per depth i (k + 1) d'.
Proof.
  intros Hi Hk Hinv. unfold spread_inv in *.
  destruct Hinv as (Hlen & Hkinds & Happ & Hnull).
  pose proof slots_pos as HS. pose proof count_small as HN.
  set (slots := 2 ^ depth - 1) in *.
  assert (Hpow : 2 * 2 ^ i <= 2 ^ depth).
  { replace (2 * 2 ^ i) with (2 ^ (i + 1))
      by (rewrite Z.pow_add_r by lia; change (2 ^ 1) with 2; ring).
    apply Z.pow_le_mono_r; lia. }
  assert (Hpos : 0 < 2 ^ i) by (apply Z.pow_pos_nonneg; lia).
  (* a free slot exists *)
  destruct (free_slot_exists per slots d) as (t & Ht & Hfree); [lia |].
  (* the start of the probing *)
  pose proof (initial_pos_bound (slots * per) (2 ^ i) k ltac:(lia) Hpos Hk)
    as Hpos0.
  unfold place_subimage. cbv zeta.
  rewrite (u32_small (slots * per * k)) by nia.
  rewrite (u32_small (slots * per * k / 2 ^ i + slots * per / 2 ^ i / 2)) by lia.
  set (pos0 := slots * per * k / 2 ^ i + slots * per / 2 ^ i / 2) in *.
  assert (Hs0 : 0 <= pos0 / per < slots).
  { split; [apply Z.div_pos; lia | apply Z.div_lt_upper_bound; lia]. }
  rewrite (u32_small (pos0 / per * per)) by nia.
  destruct (find_free_finds per slots d t Hper ltac:(lia) Hlen Ht Hfree
              (Z.to_nat (slots * per)) (pos0 / per) Hs0)
    as (s' & Hs' & Hfind & Hnul).
  { destruct (Z.leb_spec (pos0 / per) t); nia. }
  rewrite Hfind. simpl.
  destruct (head_in_range per slots d s' Hper Hs' Hlen) as (e & He & Hhe).
  rewrite He. simpl.
  rewrite (u32_small (stride * i)) by (apply plane_small; lia).
  rewrite store_in_range by nia.
  eexists. split; [reflexivity |].
  assert (Hst : store d (s' * per) (set_buf (StreamPtr b (stride * i)) e)
                = Some (<[Z.to_nat (s' * per) :=
                            set_buf (StreamPtr b (stride * i)) e]> d))
    by (apply store_in_range; nia).
  pose proof (heads_store per slots _ _ s' _ Hper Hs' Hst) as Hheads.
  simpl in Hheads.
  pose proof (heads_lookup per slots d s' Hs') as Hold. rewrite Hnul in Hold.
  split; [| split; [| split]].
  - rewrite length_insert. assumption.
  - intros s Hs. destruct (Z.eq_dec s s') as [-> | Hne].
    + right. exists i. split; [lia |].
      rewrite (head_store_eq _ _ _ _ _ Hst). reflexivity.
    + rewrite (head_store_ne _ _ _ _ _ _ Hst) by nia. now apply Hkinds.
  - intros j Hj. specialize (Happ j Hj). unfold appearances in *.
    rewrite Hheads.
    pose proof (count_occ_insert data_ptr_eq_dec _ _
                  (StreamPtr b (stride * i)) _ (StreamPtr b (stride * j)) Hold)
      as Hc.
    destruct (data_ptr_eq_dec NullData (StreamPtr b (stride * j)));
      [discriminate |].
    destruct (data_ptr_eq_dec (StreamPtr b (stride * i))
                (StreamPtr b (stride * j))) as [E | NE].
    + assert (j = i) by (inversion E; nia). subst j.
      destruct (Z.ltb_spec i i); [lia |].
      destruct (Z.eqb_spec i i); [lia | lia].
    + assert (j <> i) by (intros ->; now apply NE).
      destruct (Z.ltb_spec j i); [lia |].
      destruct (Z.eqb_spec j i); [lia | lia].
  - rewrite Hheads.
    pose proof (count_occ_insert data_ptr_eq_dec _ _
                  (StreamPtr b (stride * i)) _ NullData Hold) as Hc.
    destruct (data_ptr_eq_dec NullData NullData); [| congruence].
    destruct (data_ptr_eq_dec (StreamPtr b (stride * i)) NullData);
      [discriminate |].
    lia.
Qed.

Lemma spread_subimages_spec :
  exists d,
    spread_subimages b stride per ((2 ^ depth - 1) * per) depth
      (repeat lldesc_zero (Z.to_nat ((2 ^ depth - 1) * per))) = Some d /\
    spread_inv b stride per depth (depth - 1) 0 d.
Proof.
  unfold spread_subimages.
  rewrite (u32_small (depth - 1)) by lia.
  apply (for_range_total (fun i d => spread_inv b stride per depth i 0 d));
    [lia | apply spread_inv_start |].
  intros i d Hi Hinv.
  rewrite shl_int_one by lia. simpl.
  assert (Hpos : 0 < 2 ^ i) by (apply Z.pow_pos_nonneg; lia).
  assert (Hlt : 2 ^ i < 2 ^ 31) by (apply Z.pow_lt_mono_r; lia).
  change (2 ^ 31) with 2147483648 in Hlt.
  rewrite (u32_small (2 ^ i)) by lia.
  destruct (for_range_total
              (fun k d => spread_inv b stride per depth i k d)
              (fun k d => place_subimage b stride per ((2 ^ depth - 1) * per)
                            i (2 ^ i) k d) 0 (2 ^ i) d)
    as (d' & Hrun & Hinv'); [lia | assumption | |].
  - intros k t Hk Ht. apply place_subimage_step; [lia | lia | assumption].
  - exists d'. split; [assumption |].
    destruct Hinv' as (Hlen & Hkinds & Happ & Hnull).
    split; [assumption |]. split; [assumption |]. split.
    + intros j Hj. rewrite (Happ j Hj).
      destruct (Z.ltb_spec j i); destruct (Z.ltb_spec j (i + 1)); try lia.
      * destruct (Z.eqb_spec j i); [subst; reflexivity | lia].
      * destruct (Z.eqb_spec j i); [lia |].
        destruct (Z.eqb_spec j (i + 1)); reflexivity.
    + rewrite Hnull. rewrite (Z.pow_add_r 2 i 1) by lia.
      change (2 ^ 1) with 2. lia.
Qed.

End Spread.

(** ** Cutting the subimages into blocks *)

Lemma u32_pred_succ (x : Z) : 0 <= x < 4294967296 -> u32 (u32 (x - 1) + 1) = x.
Proof.
  intros Hx. unfold u32. rewrite Z.add_mod_idemp_l by lia.
  replace (x - 1 + 1) with x by lia. now apply Z.mod_small.
Qed.

Lemma total_length_app (l k : list lldesc_t) :
  total_length (l ++ k) = total_length l + total_length k.
Proof.
  induction l as [| e l IH]; simpl; [reflexivity |].
  unfold total_length in *. simpl. rewrite IH. lia.
Qed.

Lemma total_length_take_store (d d' : list lldesc_t) (n : Z) (e : lldesc_t) :
  store d n e = Some d' ->
  total_length (take (Z.to_nat (n + 1)) d')
  = total_length (take (Z.to_nat n) d) + d_length e.
Proof.
  intros Hst. pose proof (load_store_eq _ _ _ _ Hst) as Hld.
  apply store_Some in Hst as [Hn ->].
  rewrite load_lookup in Hld by lia.
  replace (Z.to_nat (n + 1)) with (Datatypes.S (Z.to_nat n)) by lia.
  rewrite (take_S_r _ _ _ Hld), take_insert_ge by lia.
  rewrite total_length_app. unfold total_length at 2. simpl. lia.
Qed.

Lemma blocks_ok_store (b size n : Z) (d d' : list lldesc_t) (e : lldesc_t) :
  blocks_ok b size n d -> store d n e = Some d' -> block_ok b size e ->
  blocks_ok b size (n + 1) d'.
Proof.
  intros Hok Hst He i e' Hi Hld.
  destruct (Z.eq_dec i n) as [-> | Hne].
  - rewrite (load_store_eq _ _ _ _ Hst) in Hld. inversion Hld; subst. assumption.
  - rewrite (load_store_ne _ _ _ _ _ Hst) in Hld by assumption.
    apply (Hok i e'); [lia | assumption].
Qed.

Lemma slot_index_ne (per s s' j : Z) :
  0 < per -> 0 <= j < per -> s' <> s -> s * per + j <> s' * per.
Proof.
  intros Hper Hj Hne E.
  assert (Hj0 : j = (s' - s) * per) by lia.
  destruct (Z.lt_trichotomy s' s) as [Hlt | [Heq | Hgt]]; [| contradiction |].
  - assert ((s' - s) * per <= -1 * per) by (apply Z.mul_le_mono_nonneg_r; lia).
    lia.
  - assert (1 * per <= (s' - s) * per) by (apply Z.mul_le_mono_nonneg_r; lia).
    lia.
Qed.

Section Blocks.

Variables b stride per depth : Z.
Hypothesis Hper : per = (stride - 1) / DMA_MAX_XFER_SIZE + 1.
Hypothesis Hstride : 0 < stride.
Hypothesis Hdepth : 1 <= depth <= 30.
Hypothesis Hcount : (2 ^ depth - 1) * per * 2 ^ depth < 4294967296.
Hypothesis Hsize : stride * depth < 4294967296.

Lemma per_bounds :
  0 < per /\ DMA_MAX_XFER_SIZE * (per - 1) < stride <= DMA_MAX_XFER_SIZE * per.
Proof.
  unfold DMA_MAX_XFER_SIZE in *. change (Z.shiftl 1 12 - 4) with 4092 in *.
  pose proof (Z.div_mod (stride - 1) 4092 ltac:(lia)) as Hdm.
  pose proof (Z.mod_pos_bound (stride - 1) 4092 ltac:(lia)) as Hmod.
  assert (0 <= (stride - 1) / 4092) by (apply Z.div_pos; lia).
  lia.
Qed.

(** The inner loop, started after [j] blocks of slot [s]. *)
Lemma fill_blocks_spec (s o : Z) :
  0 <= s < 2 ^ depth - 1 -> 0 <= o -> o + stride <= stride * depth ->
  forall (fuel : nat) (j : Z) (d : list lldesc_t),
  0 <= j <= per -> per - j <= Z.of_nat fuel ->
  Z.of_nat (length d) = (2 ^ depth - 1) * per ->
  (0 < j -> head per d s = StreamPtr b o) ->
  blocks_ok b (stride * depth) (s * per + j) d ->
  total_length (take (Z.to_nat (s * per + j)) d)
    = s * stride + Z.min stride (DMA_MAX_XFER_SIZE * j) ->
  exists d',
    fill_blocks fuel d (u32 (s * per + j - 1))
      (StreamPtr b (o + Z.min stride (DMA_MAX_XFER_SIZE * j)))
      (stride - Z.min stride (DMA_MAX_XFER_SIZE * j))
    = Some (d', u32 (s * per + per - 1)) /\
    Z.of_nat (length d') = (2 ^ depth - 1) * per /\
    (forall s', s' <> s -> head per d' s' = head per d s') /\
    head per d' s = StreamPtr b o /\
    blocks_ok b (stride * depth) ((s + 1) * per) d' /\
    total_length (take (Z.to_nat ((s + 1) * per)) d') = (s + 1) * stride.
Proof.
  intros Hs Ho Hfit.
  pose proof per_bounds as (Hper0 & Hlo & Hhi).
  assert (HM : DMA_MAX_XFER_SIZE = 4092) by reflexivity.
  induction fuel as [| fuel IH]; intros j d Hj Hfuel Hlen Hhead Hok Hsum.
  - assert (j = per) by lia. subst j.
    rewrite Z.min_l in * by lia.
    simpl. rewrite Z.sub_diag. simpl.
    eexists. split; [reflexivity |].
    split; [assumption |]. split; [reflexivity |].
    split; [apply Hhead; lia |].
    replace ((s + 1) * per) with (s * per + per) by ring.
    split; [assumption |]. rewrite Hsum. ring.
  - destruct (Z.eq_dec j per) as [-> | Hne].
    + rewrite Z.min_l in * by lia.
      simpl. rewrite Z.sub_diag. simpl.
      eexists. split; [reflexivity |].
      split; [assumption |]. split; [reflexivity |].
      split; [apply Hhead; lia |].
      replace ((s + 1) * per) with (s * per + per) by ring.
      split; [assumption |]. rewrite Hsum. ring.
    + assert (Hjlt : j < per) by lia.
      assert (Hmin : Z.min stride (DMA_MAX_XFER_SIZE * j) = DMA_MAX_XFER_SIZE * j)
        by (apply Z.min_r; nia).
      rewrite Hmin in *.
      assert (Hrem : 0 < stride - DMA_MAX_XFER_SIZE * j) by nia.
      assert (Hidx : 0 <= s * per + j < (2 ^ depth - 1) * per) by nia.
      assert (Hidx32 : (2 ^ depth - 1) * per < 4294967296).
      { assert (1 <= 2 ^ depth) by lia. nia. }
      simpl.
      destruct (Z.eqb_spec (stride - DMA_MAX_XFER_SIZE * j) 0) as [E | _];
        [lia |].
      rewrite (u32_pred_succ (s * per + j)) by lia.
      destruct (load_in_range d (s * per + j)) as (e & He); [lia |].
      rewrite He. simpl.
      set (block := if stride - DMA_MAX_XFER_SIZE * j >? DMA_MAX_XFER_SIZE
                    then DMA_MAX_XFER_SIZE
                    else stride - DMA_MAX_XFER_SIZE * j).
      assert (Hblock : 0 < block <= DMA_MAX_XFER_SIZE /\
                       DMA_MAX_XFER_SIZE * j + block
                       = Z.min stride (DMA_MAX_XFER_SIZE * (j + 1))).
      { unfold block. rewrite Z.gtb_ltb.
        destruct (Z.ltb_spec DMA_MAX_XFER_SIZE (stride - DMA_MAX_XFER_SIZE * j));
          lia. }
      destruct Hblock as (Hblk & Hnext).
      set (e' := set_block (StreamPtr b (o + DMA_MAX_XFER_SIZE * j)) block e).
      assert (Hst : store d (s * per + j) e'
                    = Some (<[Z.to_nat (s * per + j) := e']> d))
        by (apply store_in_range; lia).
      rewrite Hst. simpl.
      assert (Hlen_e' : d_length e' = block).
      { unfold e'. simpl. apply Z.mod_small. lia. }
      assert (Hok_e' : block_ok b (stride * depth) e').
      { exists (o + DMA_MAX_XFER_SIZE * j).
        split; [reflexivity |]. split; [lia |].
        split; [rewrite Hlen_e'; lia |]. split; [rewrite Hlen_e'; lia |].
        split; [reflexivity | reflexivity]. }
      rewrite (u32_small (stride - DMA_MAX_XFER_SIZE * j - block)) by lia.
      destruct (IH (j + 1) (<[Z.to_nat (s * per + j) := e']> d))
        as (d' & Hrun & Hlen' & Hothers & Hhead' & Hok' & Hsum').
      * lia.
      * lia.
      * rewrite length_insert. assumption.
      * intros _. destruct (Z.eq_dec j 0) as [Hj0 | Hj0].
        -- replace (s * per + j) with (s * per) in Hst |- * by lia.
           rewrite (head_store_eq _ _ _ _ _ Hst). unfold e'. simpl.
           f_equal. lia.
        -- rewrite (head_store_ne _ _ _ _ _ _ Hst); [apply Hhead; lia |].
           intros E. assert (j = 0) by lia. contradiction.
      * replace (s * per + (j + 1)) with (s * per + j + 1) by ring.
        eapply blocks_ok_store; eassumption.
      * replace (s * per + (j + 1)) with (s * per + j + 1) by ring.
        rewrite (total_length_take_store _ _ _ _ Hst), Hsum, Hlen_e'. lia.
      * exists d'.
        replace (s * per + (j + 1) - 1) with (s * per + j) in Hrun by ring.
        rewrite (u32_small (s * per + j)) in Hrun by lia.
        rewrite <- Hnext in Hrun.
        replace (o + (DMA_MAX_XFER_SIZE * j + block))
          with (o + DMA_MAX_XFER_SIZE * j + block) in Hrun by ring.
        replace (stride - (DMA_MAX_XFER_SIZE * j + block))
          with (stride - DMA_MAX_XFER_SIZE * j - block) in Hrun by ring.
        split; [exact Hrun |].
        split; [assumption |]. split; [| auto].
        intros s' Hs'. rewrite (Hothers s' Hs').
        apply (head_store_ne _ _ _ _ _ _ Hst).
        apply slot_index_ne; [assumption | lia | assumption].
Qed.

(** The head of a slot just before its blocks are cut. *)
Lemma fill_head_step (s : Z) (d : list lldesc_t) (e : lldesc_t) :
  0 <= s < 2 ^ depth - 1 ->
  Z.of_nat (length d) = (2 ^ depth - 1) * per ->
  load d (s * per) = Some e ->
  exists d_a e_a,
    (if is_null (d_buf e)
     then store d (s * per)
            (set_buf (StreamPtr b (u32 (stride * (depth - 1)))) e)
     else Some d) = Some d_a /\
    load d_a (s * per) = Some e_a /\
    d_buf e_a = fill_head b stride depth (d_buf e) /\
    Z.of_nat (length d_a) = (2 ^ depth - 1) * per /\
    (forall i, i <> s * per -> load d_a i = load d i) /\
    take (Z.to_nat (s * per)) d_a = take (Z.to_nat (s * per)) d.
Proof.
  intros Hs Hlen He.
  pose proof per_bounds as (Hper0 & _).
  rewrite (u32_small (stride * (depth - 1))) by nia.
  unfold fill_head.
  destruct (is_null (d_buf e)) eqn:Hnull.
  - assert (Hst : store d (s * per)
                    (set_buf (StreamPtr b (stride * (depth - 1))) e)
                  = Some (<[Z.to_nat (s * per) :=
                              set_buf (StreamPtr b (stride * (depth - 1))) e]> d))
      by (apply store_in_range; nia).
    rewrite Hst. eexists. eexists. split; [reflexivity |].
    split; [eapply load_store_eq; eassumption |].
    split; [reflexivity |].
    split; [rewrite length_insert; assumption |].
    split.
    + intros i Hi. eapply load_store_ne; eassumption.
    + apply take_insert_ge. lia.
  - exists d, e. repeat split; try assumption; reflexivity.
Qed.

Lemma fill_remaining_spec (d1 : list lldesc_t) :
  (forall s, 0 <= s < 2 ^ depth - 1 ->
     head per d1 s = NullData \/
     exists j, 0 <= j < depth - 1 /\ head per d1 s = StreamPtr b (stride * j)) ->
  forall (fuel : nat) (s : Z) (d : list lldesc_t),
  0 <= s <= 2 ^ depth - 1 -> 2 ^ depth - 1 - s <= Z.of_nat fuel ->
  fill_inv b stride per depth d1 s d ->
  exists d',
    fill_remaining fuel b stride ((2 ^ depth - 1) * per) depth d (s * per)
    = Some d' /\
    fill_inv b stride per depth d1 (2 ^ depth - 1) d'.
Proof.
  intros Hkinds.
  pose proof per_bounds as (Hper0 & Hlo & Hhi).
  assert (HM : DMA_MAX_XFER_SIZE = 4092) by reflexivity.
  assert (Hidx32 : (2 ^ depth - 1) * per < 4294967296).
  { assert (2 ^ 1 <= 2 ^ depth) by (apply Z.pow_le_mono_r; lia).
    change (2 ^ 1) with 2 in *. nia. }
  induction fuel as [| fuel IH]; intros s d Hs Hfuel Hinv.
  - assert (s = 2 ^ depth - 1) by lia. subst s.
    exists d. split; [| assumption].
    simpl. destruct (Z.ltb_spec ((2 ^ depth - 1) * per) ((2 ^ depth - 1) * per));
      [lia | reflexivity].
  - destruct (Z.eq_dec s (2 ^ depth - 1)) as [-> | Hne].
    + exists d. split; [| assumption].
      simpl. destruct (Z.ltb_spec ((2 ^ depth - 1) * per) ((2 ^ depth - 1) * per));
        [lia | reflexivity].
    + assert (Hs' : 0 <= s < 2 ^ depth - 1) by lia.
      destruct Hinv as (Hlen & Hheads & Hok & Hsum).
      simpl.
      destruct (Z.ltb_spec (s * per) ((2 ^ depth - 1) * per)) as [_ | Hge];
        [| nia].
      destruct (head_in_range per _ d s Hper0 Hs' Hlen) as (e & He & Hhe).
      rewrite He. simpl.
      destruct (fill_head_step s d e Hs' Hlen He)
        as (d_a & e_a & Hda & Hea & Hbuf & Hlen_a & Hsame & Htake).
      rewrite Hda. simpl. rewrite Hea. simpl.
      (* the pointer of the slot *)
      assert (Hptr : exists j, 0 <= j < depth /\
                       d_buf e_a = StreamPtr b (stride * j)).
      { rewrite Hbuf, <- Hhe, (Hheads s Hs').
        destruct (Z.ltb_spec s s); [lia |].
        destruct (Hkinds s Hs') as [-> | (j & Hj & ->)].
        - exists (depth - 1). split; [lia | reflexivity].
        - exists j. split; [lia | reflexivity]. }
      destruct Hptr as (j & Hj & Hptr).
      pose proof (fill_blocks_spec s (stride * j) Hs' ltac:(nia) ltac:(nia)
                    (Z.to_nat stride) 0 d_a) as Hblocks.
      rewrite Z.mul_0_r, Z.min_r in Hblocks by lia.
      replace (stride - 0) with stride in Hblocks by lia.
      replace (stride * j + 0) with (stride * j) in Hblocks by lia.
      replace (s * per + 0) with (s * per) in Hblocks by lia.
      replace (s * stride + 0) with (s * stride) in Hblocks by lia.
      destruct Hblocks as (d' & Hrun & Hlen' & Hothers & Hhead' & Hok' & Hsum').
      * lia.
      * nia.
      * assumption.
      * lia.
      * intros i x Hi Hx. apply (Hok i x Hi).
        rewrite <- Hsame; [assumption | lia].
      * rewrite Htake. assumption.
      * rewrite Hptr, Hrun. simpl.
        rewrite (u32_pred_succ (s * per + per)) by nia.
        replace (s * per + per) with ((s + 1) * per) by ring.
        apply IH; [lia | lia |].
        split; [assumption |]. split; [| split; assumption].
        intros s1 Hs1.
        destruct (Z.eq_dec s1 s) as [-> | Hs1ne].
        -- rewrite Hhead'. destruct (Z.ltb_spec s (s + 1)); [| lia].
           rewrite <- Hptr, Hbuf, <- Hhe, (Hheads s Hs').
           destruct (Z.ltb_spec s s); [lia | reflexivity].
        -- rewrite (Hothers s1 Hs1ne).
           assert (Hsame1 : head per d_a s1 = head per d s1).
           { unfold head. rewrite Hsame; [reflexivity |].
             intros E. apply Hs1ne.
             apply (Z.mul_cancel_r s1 s per); lia. }
           rewrite Hsame1, (Hheads s1 Hs1).
           destruct (Z.ltb_spec s1 s); destruct (Z.ltb_spec s1 (s + 1));
             try lia; reflexivity.
Qed.

End Blocks.

(** ** Closing the ring *)

Lemma link_ring_spec (b count : Z) (d : list lldesc_t) :
  0 < count < 4294967296 -> Z.of_nat (length d) = count ->
  exists d',
    link_ring b count d = Some d' /\
    Z.of_nat (length d') = count /\
    forall i, 0 <= i < count ->
      exists e, load d i = Some e /\
                load d' i = Some (set_next
                  (DescPtr b (if i <? count - 1 then i + 1 else 0)) e).
Proof.
  intros Hc Hlen. unfold link_ring.
  rewrite (u32_small (count - 1)) by lia.
  destruct (for_range_total
    (fun n t => Z.of_nat (length t) = count /\
       forall i, 0 <= i < count ->
         exists e, load d i = Some e /\
                   load t i = Some (if i <? n
                                    then set_next (DescPtr b (i + 1)) e else e))
    (fun i d0 => e <-? load d0 i; store d0 i (set_next (DescPtr b (i + 1)) e))
    0 (count - 1) d) as (t & Hrun & Hlen_t & Ht).
  - lia.
  - split; [assumption |]. intros i Hi.
    destruct (load_in_range d i) as (e & He); [lia |].
    exists e. split; [assumption |].
    destruct (Z.ltb_spec i 0); [lia | assumption].
  - intros n t Hn (Hlen_t & Ht).
    destruct (Ht n) as (e & He & Hte); [lia |].
    rewrite Hte. simpl. destruct (Z.ltb_spec n n); [lia |].
    assert (Hst : store t n (set_next (DescPtr b (n + 1)) e)
                  = Some (<[Z.to_nat n := set_next (DescPtr b (n + 1)) e]> t))
      by (apply store_in_range; lia).
    rewrite Hst. eexists. split; [reflexivity |].
    split; [rewrite length_insert; assumption |].
    intros i Hi. destruct (Ht i Hi) as (x & Hx & Htx).
    exists x. split; [assumption |].
    destruct (Z.eq_dec i n) as [-> | Hne].
    + rewrite (load_store_eq _ _ _ _ Hst).
      destruct (Z.ltb_spec n (n + 1)); [| lia]. congruence.
    + rewrite (load_store_ne _ _ _ _ _ Hst) by assumption. rewrite Htx.
      destruct (Z.ltb_spec i n); destruct (Z.ltb_spec i (n + 1));
        try lia; reflexivity.
  - rewrite Hrun. simpl.
    destruct (Ht (count - 1)) as (e & He & Hte); [lia |].
    rewrite Hte. simpl. destruct (Z.ltb_spec (count - 1) (count - 1)); [lia |].
    assert (Hst : store t (count - 1) (set_next (DescPtr b 0) e)
                  = Some (<[Z.to_nat (count - 1) := set_next (DescPtr b 0) e]> t))
      by (apply store_in_range; lia).
    rewrite Hst. eexists. split; [reflexivity |].
    split; [rewrite length_insert; assumption |].
    intros i Hi. destruct (Ht i Hi) as (x & Hx & Htx).
    exists x. split; [assumption |].
    destruct (Z.eq_dec i (count - 1)) as [-> | Hne].
    + rewrite (load_store_eq _ _ _ _ Hst).
      destruct (Z.ltb_spec (count - 1) (count - 1)); [lia |]. congruence.
    + rewrite (load_store_ne _ _ _ _ _ Hst) by assumption. rewrite Htx.
      destruct (Z.ltb_spec i (count - 1)); [reflexivity | lia].
Qed.

Lemma total_length_ext (d d' : list lldesc_t) :
  length d' = length d ->
  (forall (i : nat) e, d !! i = Some e ->
     exists e', d' !! i = Some e' /\ d_length e' = d_length e) ->
  total_length d' = total_length d.
Proof.
  revert d'. induction d as [| x d IH]; intros d' Hlen H.
  - destruct d'; [reflexivity | discriminate].
  - destruct d' as [| x' d']; [discriminate |].
    destruct (H O x eq_refl) as (e' & He' & Hl). simpl in He'.
    inversion He'; subst e'.
    unfold total_length in *. simpl. rewrite Hl. f_equal.
    apply IH.
    + simpl in Hlen. lia.
    + intros i e Hi. apply (H (Datatypes.S i) e Hi).
Qed.

Lemma count_occ_fill_head (b stride depth : Z) (hs : list data_ptr)
  (p : data_ptr) :
  p <> NullData ->
  count_occ data_ptr_eq_dec (map (fill_head b stride depth) hs) p
  = (count_occ data_ptr_eq_dec hs p
     + (if data_ptr_eq_dec p (StreamPtr b (stride * (depth - 1)))
        then count_occ data_ptr_eq_dec hs NullData else 0))%nat.
Proof.
  intros Hp. induction hs as [| h hs IH]; simpl.
  - destruct (data_ptr_eq_dec p _); reflexivity.
  - rewrite IH. destruct h as [| b' o]; unfold fill_head; simpl.
    + destruct (data_ptr_eq_dec (StreamPtr b (stride * (depth - 1))) p);
        destruct (data_ptr_eq_dec NullData p);
        destruct (data_ptr_eq_dec p (StreamPtr b (stride * (depth - 1))));
        destruct (data_ptr_eq_dec NullData NullData);
        try congruence; lia.
    + destruct (data_ptr_eq_dec (StreamPtr b' o) p);
        destruct (data_ptr_eq_dec p (StreamPtr b (stride * (depth - 1))));
        destruct (data_ptr_eq_dec (StreamPtr b' o) NullData);
        try congruence; lia.
Qed.

Section Ring.

Variables b stride per depth : Z.
Hypothesis Hper : per = (stride - 1) / DMA_MAX_XFER_SIZE + 1.
Hypothesis Hstride : 0 < stride.
Hypothesis Hdepth : 1 <= depth <= 30.
Hypothesis Hcount : (2 ^ depth - 1) * per * 2 ^ depth < 4294967296.
Hypothesis Hsize : stride * depth < 4294967296.

(** Everything the three loops of [initialize_buffer] establish. *)
Lemma build_ring_spec :
  exists d,
    build_ring b stride per ((2 ^ depth - 1) * per) depth
      (repeat lldesc_zero (Z.to_nat ((2 ^ depth - 1) * per))) = Some d /\
    Z.of_nat (length d) = (2 ^ depth - 1) * per /\
    (forall l, 0 <= l < depth ->
       appearances b stride per (2 ^ depth - 1) l d = 2 ^ l) /\
    blocks_ok b (stride * depth) ((2 ^ depth - 1) * per) d /\
    total_length d = (2 ^ depth - 1) * stride /\
    (forall i, 0 <= i < (2 ^ depth - 1) * per ->
       exists e, load d i = Some e /\
                 stqe_next e
                 = DescPtr b (if i <? (2 ^ depth - 1) * per - 1
                              then i + 1 else 0)).
Proof.
  pose proof (per_bounds stride per depth Hper Hstride Hdepth)
    as (Hper0 & Hlo & Hhi).
  pose proof (slots_pos depth Hdepth) as HS.
  pose proof (count_small stride per depth Hper0 Hstride Hdepth Hcount Hsize)
    as HN.
  destruct (spread_subimages_spec b stride per depth Hper0 Hstride Hdepth
              Hcount Hsize) as (d1 & Hrun1 & Hlen1 & Hkinds & Happ & Hnull).
  destruct (fill_remaining_spec b stride per depth Hper Hstride Hdepth Hcount
              Hsize d1 Hkinds (Z.to_nat ((2 ^ depth - 1) * per)) 0 d1)
    as (d2 & Hrun2 & Hlen2 & Hheads2 & Hok2 & Hsum2).
  { lia. }
  { nia. }
  { split; [assumption |]. split; [| split].
    - intros s Hs. destruct (Z.ltb_spec s 0); [lia | reflexivity].
    - intros i e Hi. lia.
    - reflexivity. }
  destruct (link_ring_spec b ((2 ^ depth - 1) * per) d2 HN Hlen2)
    as (d3 & Hrun3 & Hlen3 & Hlink).
  exists d3. split.
  { unfold build_ring. rewrite Hrun1. simpl.
    replace (0 * per) with 0 in Hrun2 by lia.
    rewrite Hrun2. simpl. exact Hrun3. }
  split; [assumption |].
  assert (Hhead3 : forall s, 0 <= s < 2 ^ depth - 1 ->
            head per d3 s = fill_head b stride depth (head per d1 s)).
  { intros s Hs. pose proof (Hheads2 s Hs) as H2.
    destruct (Z.ltb_spec s (2 ^ depth - 1)); [| lia].
    rewrite <- H2.
    unfold head. destruct (Hlink (s * per)) as (e & He & He3); [nia |].
    rewrite He, He3. reflexivity. }
  split.
  { intros l Hl. unfold appearances in *.
    rewrite (heads_ext per (2 ^ depth - 1) d1 d3 _ Hhead3).
    rewrite count_occ_fill_head by discriminate.
    pose proof (Happ l Hl) as Hl1.
    destruct (data_ptr_eq_dec (StreamPtr b (stride * l))
                (StreamPtr b (stride * (depth - 1)))) as [E | NE].
    - assert (l = depth - 1) by (inversion E; nia). subst l.
      destruct (Z.ltb_spec (depth - 1) (depth - 1)); [lia |].
      replace (if depth - 1 =? depth - 1 then 0 else 0) with 0 in Hl1
        by (destruct (depth - 1 =? depth - 1); reflexivity).
      assert (Hp : 2 ^ depth = 2 * 2 ^ (depth - 1)).
      { replace depth with (depth - 1 + 1) at 1 by lia.
        rewrite Z.pow_add_r by lia. change (2 ^ 1) with 2. ring. }
      lia.
    - assert (l <> depth - 1) by (intros ->; now apply NE).
      destruct (Z.ltb_spec l (depth - 1)); [| lia]. lia. }
  split.
  { intros i e Hi He. destruct (Hlink i Hi) as (x & Hx & Hx3).
    rewrite Hx3 in He. inversion He; subst e.
    destruct (Hok2 i x Hi Hx) as (o & Hbuf & Ho).
    exists o. simpl. split; [assumption | exact Ho]. }
  split.
  { rewrite <- Hsum2.
    rewrite take_ge by lia.
    apply total_length_ext; [lia |].
    intros i e He.
    assert (Hi : 0 <= Z.of_nat i < (2 ^ depth - 1) * per).
    { apply lookup_lt_Some in He. lia. }
    destruct (Hlink (Z.of_nat i) Hi) as (x & Hx & Hx3).
    rewrite load_lookup, Nat2Z.id in Hx, Hx3 by lia.
    rewrite He in Hx. inversion Hx; subst x.
    eexists. split; [exact Hx3 | reflexivity]. }
  intros i Hi. destruct (Hlink i Hi) as (x & Hx & Hx3).
  eexists. split; [exact Hx3 | reflexivity].
Qed.

End Ring.

(** ** [initialize_buffer] on the global *)

Lemma geometry_sizes (W R D : Z) :
  0 < W < 65536 -> 0 < R < 256 -> 1 <= D <= 8 ->
  let stride := 2 * W * R in
  let per := (stride - 1) / DMA_MAX_XFER_SIZE + 1 in
  0 < stride <= 33422850 /\ 0 < per <= 8168 /\
  (2 ^ D - 1) * per * 2 ^ D < 4294967296 /\
  stride * D < 4294967296 /\
  0 < 2 ^ D - 1 <= 255.
Proof.
  intros HW HR HD stride per.
  assert (Hs : 0 < stride <= 33422850) by (unfold stride; nia).
  assert (Hp : 0 < per /\ DMA_MAX_XFER_SIZE * (per - 1) < stride
               <= DMA_MAX_XFER_SIZE * per).
  { apply (per_bounds stride per D); [reflexivity | lia | lia]. }
  change DMA_MAX_XFER_SIZE with 4092 in Hp.
  assert (Hpow : 2 <= 2 ^ D <= 256).
  { split.
    - apply (Z.pow_le_mono_r 2 1 D); lia.
    - apply (Z.pow_le_mono_r 2 D 8); lia. }
  split; [assumption |]. split; [lia |].
  split; [| split; [nia | lia]].
  assert (0 < (2 ^ D - 1) * per <= 255 * 8168) by nia.
  nia.
Qed.

Lemma initialize_buffer_spec (heap_caps_malloc : Z -> bool) (b : Z)
  (m : matrix_t) (sb : stream_buffer_t) :
  0 < width m < 65536 -> 0 < rows m < 256 -> 1 <= color_depth m <= 8 ->
  load (buffer m) b = Some sb ->
  let stride := 2 * width m * rows m in
  let per := (stride - 1) / DMA_MAX_XFER_SIZE + 1 in
  let count := (2 ^ color_depth m - 1) * per in
  heap_caps_malloc (stride * color_depth m) = true ->
  heap_caps_malloc (count * SIZEOF_LLDESC) = true ->
  exists bs d,
    initialize_buffer heap_caps_malloc b m
      = Done tt (set_buffer bs (set_dma_desc_count count m)) /\
    length bs = length (buffer m) /\
    load bs b = Some (mk_stream_buffer
                        (Some (repeat (if invert m then 255 else 0)
                                 (Z.to_nat (stride * color_depth m))))
                        (Some d)) /\
    (forall b', b' <> b -> load bs b' = load (buffer m) b') /\
    build_ring b stride per count (color_depth m)
      (repeat lldesc_zero (Z.to_nat count)) = Some d.
Proof.
  intros HW HR HD Hsb stride per count Hm1 Hm2.
  destruct (geometry_sizes (width m) (rows m) (color_depth m) HW HR HD)
    as (Hstride & Hper & Hcount & Hsize & Hslots).
  fold stride in Hstride, Hper, Hcount, Hsize.
  fold per in Hper, Hcount. fold count in Hcount.
  assert (Hcnt : 0 < count <= 255 * 8168) by (unfold count; nia).
  destruct (build_ring_spec b stride per (color_depth m) eq_refl
              ltac:(lia) ltac:(lia) Hcount Hsize) as (d & Hring & _).
  fold count in Hring.
  unfold initialize_buffer.
  cbv beta iota zeta delta [bind get modify defined ret put_opt].
  rewrite shl_int_one by lia.
  cbv beta iota.
  rewrite (u32_small (2 * width m)) by lia.
  rewrite (u32_small (2 * width m * rows m)) by (fold stride; lia).
  fold stride.
  rewrite (u32_small (stride * color_depth m)) by nia.
  rewrite (u32_small (stride - 1)) by lia.
  rewrite (u32_small ((stride - 1) / DMA_MAX_XFER_SIZE + 1))
    by (fold per; lia).
  fold per.
  rewrite (u32_small ((2 ^ color_depth m - 1) * per)) by (fold count; lia).
  fold count.
  rewrite (u32_small (count * SIZEOF_LLDESC)) by (unfold SIZEOF_LLDESC; lia).
  rewrite Hm1, Hm2.
  destruct (set_stream_spec b (Some (repeat 0 (Z.to_nat (stride * color_depth m))))
              (set_dma_desc_count count m) sb Hsb)
    as (bs1 & E1 & L1 & N1 & O1).
  rewrite E1.
  destruct (set_descs_spec b (Some (repeat lldesc_zero (Z.to_nat count)))
              (set_buffer bs1 (set_dma_desc_count count m)) _ N1)
    as (bs2 & E2 & L2 & N2 & O2).
  rewrite E2.
  destruct (set_stream_spec b
              (Some (repeat (if invert m then 255 else 0)
                       (Z.to_nat (stride * color_depth m))))
              (set_buffer bs2 (set_buffer bs1 (set_dma_desc_count count m)))
              _ N2)
    as (bs3 & E3 & L3 & N3 & O3).
  rewrite E3. rewrite Hring.
  destruct (set_descs_spec b (Some d)
              (set_buffer bs3 (set_buffer bs2 (set_buffer bs1
                 (set_dma_desc_count count m)))) _ N3)
    as (bs4 & E4 & L4 & N4 & O4).
  rewrite E4.
  exists bs4, d.
  split; [reflexivity |].
  split; [simpl in *; congruence |].
  split; [exact N4 |].
  split; [| reflexivity].
  intros b' Hb'. simpl in *.
  rewrite (O4 b' Hb'), (O3 b' Hb'), (O2 b' Hb'), (O1 b' Hb'). reflexivity.
Qed.

Lemma ceil_div_pred (x : Z) :
  ceil_div x DMA_MAX_XFER_SIZE = (x - 1) / DMA_MAX_XFER_SIZE + 1.
Proof.
  unfold ceil_div. change DMA_MAX_XFER_SIZE with 4092.
  replace (x + 4092 - 1) with (x - 1 + 1 * 4092) by ring.
  apply Z.div_add. lia.
Qed.

Lemma sum_powers (f : Z -> Z) (depth : Z) :
  1 <= depth <= 8 ->
  (forall l, 0 <= l < depth -> f l = 2 ^ l) ->
  fold_right Z.add 0 (map f (seqZ 0 depth)) = 2 ^ depth - 1.
Proof.
  intros Hd Hf.
  rewrite (map_ext_in f (fun l => 2 ^ l)).
  - assert (H : depth = 1 \/ depth = 2 \/ depth = 3 \/ depth = 4 \/
                depth = 5 \/ depth = 6 \/ depth = 7 \/ depth = 8) by lia.
    destruct H as [-> | [-> | [-> | [-> | [-> | [-> | [-> | ->]]]]]]];
      reflexivity.
  - intros l Hl. apply Hf.
    apply list_elem_of_In, elem_of_seqZ in Hl. lia.
Qed.

(** C1 (interleaving schedule): for every geometry with colour depth
    [1 <= D <= 8], [initialize_buffer] returns, and in the ring it built
    subimage [l] heads exactly [2^l] of the [2^D - 1] slots (one slot is one
    run of [seg] descriptors), for every [l < D]; so subimage [D - 1] has
    [2^(D-1)] slots and all subimages together have [2^D - 1]. *)
Theorem initialize_buffer_appearances (heap_caps_malloc : Z -> bool) (b : Z)
  (m : matrix_t) (sb : stream_buffer_t) :
  0 < width m < 65536 -> 0 < rows m < 256 -> 1 <= color_depth m <= 8 ->
  load (buffer m) b = Some sb ->
  let stride := 2 * width m * rows m in
  let seg := ceil_div stride DMA_MAX_XFER_SIZE in
  let slots := 2 ^ color_depth m - 1 in
  heap_caps_malloc (stride * color_depth m) = true ->
  heap_caps_malloc (slots * seg * SIZEOF_LLDESC) = true ->
  exists m' d,
    initialize_buffer heap_caps_malloc b m = Done tt m' /\
    descs_of m' b = Some d /\
    Z.of_nat (length (heads seg slots d)) = slots /\
    (forall l, 0 <= l < color_depth m ->
       appearances b stride seg slots l d = 2 ^ l) /\
    appearances b stride seg slots (color_depth m - 1) d
      = 2 ^ (color_depth m - 1) /\
    total_appearances b stride seg slots (color_depth m) d = slots.
Proof.
  intros HW HR HD Hsb stride seg slots Hm1 Hm2.
  unfold seg in *. rewrite ceil_div_pred in *.
  destruct (initialize_buffer_spec heap_caps_malloc b m sb HW HR HD Hsb Hm1 Hm2)
    as (bs & d & Hrun & Hlen & Hnew & Hother & Hring).
  destruct (geometry_sizes (width m) (rows m) (color_depth m) HW HR HD)
    as (Hstride & Hper & Hcount & Hsize & Hslots).
  destruct (build_ring_spec b stride ((stride - 1) / DMA_MAX_XFER_SIZE + 1)
              (color_depth m) eq_refl ltac:(lia) ltac:(lia) Hcount Hsize)
    as (d' & Hring' & _ & Happ & _).
  fold stride slots in Hring, Hring'. rewrite Hring in Hring'.
  inversion Hring'; subst d'.
  exists (set_buffer bs (set_dma_desc_count
            (slots * ((stride - 1) / DMA_MAX_XFER_SIZE + 1)) m)), d.
  split; [exact Hrun |].
  split; [unfold descs_of; simpl; rewrite Hnew; reflexivity |].
  split; [rewrite length_heads; lia |].
  split; [exact Happ |].
  split; [apply Happ; lia |].
  unfold total_appearances. apply sum_powers; [lia | exact Happ].
Qed.

Lemma initialize_buffer_appearances_witness :
  exists m' d,
    initialize_buffer always_allocates 0 demo_geometry = Done tt m' /\
    descs_of m' 0 = Some d /\
    Z.of_nat (length (heads 1 3 d)) = 3 /\
    (forall l, 0 <= l < 2 -> appearances 0 16 1 3 l d = 2 ^ l) /\
    appearances 0 16 1 3 1 d = 2 /\
    total_appearances 0 16 1 3 2 d = 3.
Proof.
  apply (initialize_buffer_appearances always_allocates 0 demo_geometry
           stream_buffer_zero);
    try reflexivity; cbn; lia.
Defined.

(** C3 (ring shape): for every geometry, [initialize_buffer] returns with
    exactly [N = (2^D - 1) * seg] descriptors, [seg = ceil(2*W*rows / 4092)];
    every descriptor points into the stream data of its buffer; descriptor
    [i] links to [i + 1] and the last one back to descriptor 0; and the
    lengths of one cycle add up to [(2^D - 1) * 2*W*rows]. *)
Theorem initialize_buffer_ring (heap_caps_malloc : Z -> bool) (b : Z)
  (m : matrix_t) (sb : stream_buffer_t) :
  0 < width m < 65536 -> 0 < rows m < 256 -> 1 <= color_depth m <= 8 ->
  load (buffer m) b = Some sb ->
  let stride := 2 * width m * rows m in
  let seg := ceil_div stride DMA_MAX_XFER_SIZE in
  let N := (2 ^ color_depth m - 1) * seg in
  heap_caps_malloc (stride * color_depth m) = true ->
  heap_caps_malloc (N * SIZEOF_LLDESC) = true ->
  exists m' sd d,
    initialize_buffer heap_caps_malloc b m = Done tt m' /\
    dma_desc_count m' = N /\
    stream_of m' b = Some sd /\
    Z.of_nat (length sd) = stride * color_depth m /\
    descs_of m' b = Some d /\
    Z.of_nat (length d) = N /\
    (forall i, 0 <= i < N ->
       exists e o,
         load d i = Some e /\
         d_buf e = StreamPtr b o /\ 0 <= o < Z.of_nat (length sd) /\
         stqe_next e = DescPtr b (if i <? N - 1 then i + 1 else 0)) /\
    total_length d = (2 ^ color_depth m - 1) * stride.
Proof.
  intros HW HR HD Hsb stride seg N Hm1 Hm2.
  unfold N, seg in *. rewrite ceil_div_pred in *.
  destruct (initialize_buffer_spec heap_caps_malloc b m sb HW HR HD Hsb Hm1 Hm2)
    as (bs & d & Hrun & Hlen & Hnew & Hother & Hring).
  destruct (geometry_sizes (width m) (rows m) (color_depth m) HW HR HD)
    as (Hstride & Hper & Hcount & Hsize & Hslots).
  destruct (build_ring_spec b stride ((stride - 1) / DMA_MAX_XFER_SIZE + 1)
              (color_depth m) eq_refl ltac:(lia) ltac:(lia) Hcount Hsize)
    as (d' & Hring' & Hlen_d & _ & Hok & Hsum & Hlink).
  fold stride in Hring, Hring'. rewrite Hring in Hring'.
  inversion Hring'; subst d'.
  exists (set_buffer bs (set_dma_desc_count
            ((2 ^ color_depth m - 1)
             * ((stride - 1) / DMA_MAX_XFER_SIZE + 1)) m)),
    (repeat (if invert m then 255 else 0) (Z.to_nat (stride * color_depth m))),
    d.
  split; [exact Hrun |].
  split; [reflexivity |].
  split; [unfold stream_of; simpl; rewrite Hnew; reflexivity |].
  assert (Hsd : Z.of_nat (length (repeat (if invert m then 255 else 0)
                   (Z.to_nat (stride * color_depth m))))
                = stride * color_depth m)
    by (rewrite repeat_length; fold stride in Hsize; nia).
  split; [exact Hsd |].
  split; [unfold descs_of; simpl; rewrite Hnew; reflexivity |].
  split; [exact Hlen_d |].
  split; [| exact Hsum].
  intros i Hi. destruct (Hlink i Hi) as (e & He & Hnext).
  destruct (Hok i e Hi He) as (o & Hbuf & Ho & Hfit & Hblk & _).
  exists e, o. split; [assumption |]. split; [assumption |].
  split; [| assumption]. rewrite Hsd. lia.
Qed.

Lemma initialize_buffer_ring_witness :
  exists m' sd d,
    initialize_buffer always_allocates 0 demo_geometry = Done tt m' /\
    dma_desc_count m' = 3 /\
    stream_of m' 0 = Some sd /\
    Z.of_nat (length sd) = 32 /\
    descs_of m' 0 = Some d /\
    Z.of_nat (length d) = 3 /\
    (forall i, 0 <= i < 3 ->
       exists e o,
         load d i = Some e /\
         d_buf e = StreamPtr 0 o /\ 0 <= o < Z.of_nat (length sd) /\
         stqe_next e = DescPtr 0 (if i <? 3 - 1 then i + 1 else 0)) /\
    total_length d = 3 * 16.
Proof.
  apply (initialize_buffer_ring always_allocates 0 demo_geometry
           stream_buffer_zero);
    try reflexivity; cbn; lia.
Defined.

Lemma control_pattern_cells_witness :
  let oe := (2 <? 2) || (2 >? brightness inverted_matrix) in
  let lat := 2 =? width inverted_matrix - 2 in
  let ctrl := 4 * ((0 - 1) mod 64) + 2 * Z.b2z lat + Z.b2z oe in
  exists m' sd' byte,
    create_control_pattern 0 inverted_matrix = Done tt m' /\
    stream_of m' 0 = Some sd' /\
    load sd' (cell (width inverted_matrix) (rows inverted_matrix) 1 0 2
              + BITSTREAM_CTRL_BYTE) = Some byte /\
    byte = (if invert inverted_matrix then 255 - ctrl else ctrl) /\
    0 <= ctrl < 256 /\
    Z.shiftr ctrl BITSTREAM_CTRL_ROW_START_BIT mod 2 ^ 1
      = (0 - 1) mod rows inverted_matrix /\
    Z.testbit ctrl BITSTREAM_CTRL_OE_BIT = oe /\
    Z.testbit ctrl BITSTREAM_CTRL_LAT_BIT = lat /\
    (forall k, 0 <= k < 8 ->
       Z.testbit byte k = xorb (invert inverted_matrix) (Z.testbit ctrl k)).
Proof.
  apply (control_pattern_cells 0 inverted_matrix
           (stream_or_nil inverted_matrix 0) 1 1 0 2);
    vm_compute; try reflexivity; intuition discriminate.
Defined.

(** ** [show]: the colour pass and the hand-off on the two buffers *)

Lemma update_framebuffer_0 (m : matrix_t) (fb : list Z) (dec : get_color_func)
  (sd0 : list Z) (dd0 : option (list lldesc_t)) (sb1 : stream_buffer_t) :
  buffer m = [mk_stream_buffer (Some sd0) dd0; sb1] ->
  update_framebuffer 0 fb dec m
  = match update_framebuffer_data m fb dec sd0 with
    | Some sd' => Done tt (set_buffer [mk_stream_buffer (Some sd') dd0; sb1] m)
    | None => Undefined
    end.
Proof.
  intros Hb. unfold update_framebuffer, bind, get, stream_of, put_opt,
    set_stream, defined, ret, undefined.
  rewrite Hb. simpl.
  destruct (update_framebuffer_data m fb dec sd0); [| reflexivity].
  rewrite Hb. reflexivity.
Qed.

Lemma update_framebuffer_1 (m : matrix_t) (fb : list Z) (dec : get_color_func)
  (sd1 : list Z) (dd1 : option (list lldesc_t)) (sb0 : stream_buffer_t) :
  buffer m = [sb0; mk_stream_buffer (Some sd1) dd1] ->
  update_framebuffer 1 fb dec m
  = match update_framebuffer_data m fb dec sd1 with
    | Some sd' => Done tt (set_buffer [sb0; mk_stream_buffer (Some sd') dd1] m)
    | None => Undefined
    end.
Proof.
  intros Hb. unfold update_framebuffer, bind, get, stream_of, put_opt,
    set_stream, defined, ret, undefined.
  rewrite Hb. simpl.
  destruct (update_framebuffer_data m fb dec sd1); [| reflexivity].
  rewrite Hb. reflexivity.
Qed.

(** The two tail links are redirected and the backbuffer index is set. *)
Lemma handoff_spec (m : matrix_t) (s0 s1 : option (list Z))
  (d0 d1 : list lldesc_t) (target : desc_ptr) (bb : Z) :
  buffer m = [mk_stream_buffer s0 (Some d0); mk_stream_buffer s1 (Some d1)] ->
  0 < dma_desc_count m < 4294967296 ->
  Z.of_nat (length d0) = dma_desc_count m ->
  Z.of_nat (length d1) = dma_desc_count m ->
  exists e0 e1,
    load d0 (dma_desc_count m - 1) = Some e0 /\
    load d1 (dma_desc_count m - 1) = Some e1 /\
    (set_tail 0 target ;; set_tail 1 target ;; modify (set_backbuffer bb)) m
    = Done tt (set_backbuffer bb (set_buffer
        [mk_stream_buffer s0
           (Some (<[Z.to_nat (dma_desc_count m - 1) := set_next target e0]> d0));
         mk_stream_buffer s1
           (Some (<[Z.to_nat (dma_desc_count m - 1) := set_next target e1]> d1))]
        m)).
Proof.
  intros Hb Hn H0 H1.
  destruct (load_in_range d0 (dma_desc_count m - 1)) as (e0 & He0); [lia |].
  destruct (load_in_range d1 (dma_desc_count m - 1)) as (e1 & He1); [lia |].
  exists e0, e1. split; [assumption |]. split; [assumption |].
  unfold set_tail.
  cbv beta iota delta [bind get ret modify defined put_opt undefined
                       descs_of set_descs obind].
  rewrite Hb. simpl.
  rewrite (u32_small (dma_desc_count m - 1)) by lia.
  rewrite He0. rewrite store_in_range by lia.
  rewrite Hb. simpl.
  rewrite (u32_small (dma_desc_count m - 1)) by lia.
  rewrite He1. rewrite store_in_range by lia.
  reflexivity.
Qed.

Lemma show_split (fb : list Z) (color mode : Z) (m : matrix_t) :
  initialized m = true ->
  ledmatrix_show fb color mode m
  = match show_colors fb mode (backbuffer m) (width m) (height m)
            (show_tint color m) with
    | Done _ m1 =>
        (if double_buffer m then
           set_tail 0 (DescPtr (backbuffer m) 0) ;;
           set_tail 1 (DescPtr (backbuffer m) 0) ;;
           modify (set_backbuffer (u8 (Z.lxor (backbuffer m) 1)))
         else ret tt) m1
    | Raised e m1 => Raised e m1
    | Undefined => Undefined
    end.
Proof.
  intros Hinit. unfold ledmatrix_show, show_tint, show_colors.
  unfold bind at 1. unfold get at 1. cbv beta iota.
  unfold bind at 1. rewrite Hinit. simpl negb. cbv beta iota.
  unfold ret at 1. cbv beta iota.
  unfold bind at 1.
  destruct (color >=? 0); unfold modify at 1, ret at 1; cbv beta iota;
    reflexivity.
Qed.

Lemma set_buffer_id (m : matrix_t) : set_buffer (buffer m) m = m.
Proof. destruct m. reflexivity. Qed.

Lemma wf_size (m : matrix_t) :
  0 < width m < 65536 -> 0 < rows m < 256 -> 1 <= color_depth m <= 8 ->
  2 * width m * rows m * color_depth m < 4294967296.
Proof.
  intros HW HR HD.
  assert (0 < width m * rows m <= 65535 * 255) by nia.
  nia.
Qed.

Lemma update_framebuffer_data_fill (m : matrix_t) (fb : list Z)
  (dec : get_color_func) (sd : list Z) :
  update_framebuffer_data m fb dec sd
  = fill_cells (width m) (rows m) (color_depth m) BITSTREAM_COLOR_BYTE
      (color_byte m dec fb) sd.
Proof. reflexivity. Qed.

Lemma update_framebuffer_data_length (m : matrix_t) (fb : list Z)
  (dec : get_color_func) (sd sd' : list Z) :
  0 < width m < 65536 -> 0 < rows m < 256 -> 1 <= color_depth m <= 8 ->
  update_framebuffer_data m fb dec sd = Some sd' -> length sd' = length sd.
Proof.
  intros HW HR HD Hrun. rewrite update_framebuffer_data_fill in Hrun.
  apply fill_cells_partial in Hrun as (Hlen & _);
    try lia; try assumption; now apply wf_size.
Qed.

Lemma show_colors_0 (fb : list Z) (mode W H : Z) (m m1 : matrix_t)
  (sd0 : list Z) (dd0 : option (list lldesc_t)) (sb1 : stream_buffer_t) :
  buffer m = [mk_stream_buffer (Some sd0) dd0; sb1] ->
  show_colors fb mode 0 W H m = Done tt m1 ->
  exists sd0',
    m1 = set_buffer [mk_stream_buffer (Some sd0') dd0; sb1] m /\
    encoded m fb mode sd0 sd0'.
Proof.
  intros Hb. unfold show_colors, encoded, decoder_of.
  destruct (mode =? COLOR_RGB565);
    [| destruct (mode =? COLOR_GS8); [| destruct (mode =? COLOR_MONO)]].
  1-3: unfold bind;
    match goal with
    | |- context [if negb ?c then _ else _] => destruct c
    end; simpl; unfold mp_raise, ret; [| discriminate];
    rewrite (update_framebuffer_0 _ _ _ _ _ _ Hb);
    match goal with
    | |- context [update_framebuffer_data ?a ?b ?c ?d] =>
        destruct (update_framebuffer_data a b c d) as [sd' |]
    end; [| discriminate];
    intros E; inversion E; subst m1; exists sd'; split; reflexivity.
  unfold ret. intros E. inversion E; subst m1.
  exists sd0. split; [| reflexivity].
  rewrite <- Hb. symmetry. apply set_buffer_id.
Qed.

Lemma show_colors_1 (fb : list Z) (mode W H : Z) (m m1 : matrix_t)
  (sd1 : list Z) (dd1 : option (list lldesc_t)) (sb0 : stream_buffer_t) :
  buffer m = [sb0; mk_stream_buffer (Some sd1) dd1] ->
  show_colors fb mode 1 W H m = Done tt m1 ->
  exists sd1',
    m1 = set_buffer [sb0; mk_stream_buffer (Some sd1') dd1] m /\
    encoded m fb mode sd1 sd1'.
Proof.
  intros Hb. unfold show_colors, encoded, decoder_of.
  destruct (mode =? COLOR_RGB565);
    [| destruct (mode =? COLOR_GS8); [| destruct (mode =? COLOR_MONO)]].
  1-3: unfold bind;
    match goal with
    | |- context [if negb ?c then _ else _] => destruct c
    end; simpl; unfold mp_raise, ret; [| discriminate];
    rewrite (update_framebuffer_1 _ _ _ _ _ _ Hb);
    match goal with
    | |- context [update_framebuffer_data ?a ?b ?c ?d] =>
        destruct (update_framebuffer_data a b c d) as [sd' |]
    end; [| discriminate];
    intros E; inversion E; subst m1; exists sd'; split; reflexivity.
  unfold ret. intros E. inversion E; subst m1.
  exists sd1. split; [| reflexivity].
  rewrite <- Hb. symmetry. apply set_buffer_id.
Qed.

Lemma show_colors_invalid (fb : list Z) (mode strm W H : Z) (m : matrix_t) :
  decoder_of mode = None -> show_colors fb mode strm W H m = Done tt m.
Proof.
  unfold decoder_of, show_colors.
  destruct (mode =? COLOR_RGB565); [discriminate |].
  destruct (mode =? COLOR_GS8); [discriminate |].
  destruct (mode =? COLOR_MONO); [discriminate |].
  reflexivity.
Qed.

Lemma show_tint_fields (color : Z) (m : matrix_t) :
  same_geometry m (show_tint color m) /\
  buffer (show_tint color m) = buffer m /\
  backbuffer (show_tint color m) = backbuffer m.
Proof.
  unfold show_tint, same_geometry.
  destruct (color >=? 0); simpl; repeat split; reflexivity.
Qed.

Lemma encoded_length (m : matrix_t) (fb : list Z) (mode : Z) (sd sd' : list Z) :
  0 < width m < 65536 -> 0 < rows m < 256 -> 1 <= color_depth m <= 8 ->
  encoded m fb mode sd sd' -> length sd' = length sd.
Proof.
  intros HW HR HD. unfold encoded.
  destruct (decoder_of mode) as [dec |].
  - now apply update_framebuffer_data_length.
  - now intros ->.
Qed.

(** One successful [show] in double-buffer mode, spelled out. *)
Lemma show_double_spec (fb : list Z) (color mode : Z) (m m' : matrix_t) :
  wf_matrix m -> initialized m = true -> double_buffer m = true ->
  ledmatrix_show fb color mode m = Done tt m' ->
  exists sd0 sd1 d0 d1 sd0' sd1' e0 e1,
    buffer m = [mk_stream_buffer (Some sd0) (Some d0);
                mk_stream_buffer (Some sd1) (Some d1)] /\
    load d0 (dma_desc_count m - 1) = Some e0 /\
    load d1 (dma_desc_count m - 1) = Some e1 /\
    m' = set_backbuffer (u8 (Z.lxor (backbuffer m) 1))
           (set_buffer
              [mk_stream_buffer (Some sd0')
                 (Some (<[Z.to_nat (dma_desc_count m - 1) :=
                            set_next (DescPtr (backbuffer m) 0) e0]> d0));
               mk_stream_buffer (Some sd1')
                 (Some (<[Z.to_nat (dma_desc_count m - 1) :=
                            set_next (DescPtr (backbuffer m) 0) e1]> d1))]
              (show_tint color m)) /\
    (backbuffer m = 0 ->
       sd1' = sd1 /\ encoded (show_tint color m) fb mode sd0 sd0') /\
    (backbuffer m = 1 ->
       sd0' = sd0 /\ encoded (show_tint color m) fb mode sd1 sd1') /\
    length sd0' = length sd0 /\ length sd1' = length sd1.
Proof.
  intros (HW & HR & HD & HN & Hbb & sb0 & sb1 & Hbuf & Ha0 & Ha1) Hinit Hdbl.
  destruct Ha0 as (sd0 & d0 & -> & Hsd0 & Hd0).
  destruct (Ha1 Hdbl) as (sd1 & d1 & -> & Hsd1 & Hd1).
  destruct (show_tint_fields color m)
    as ((TW & TH & TR & TD & _ & _ & _ & TN & _) & Tbuf & Tbb).
  rewrite show_split by assumption. rewrite Hdbl.
  destruct (show_colors fb mode (backbuffer m) (width m) (height m)
              (show_tint color m)) as [[] m1 | |] eqn:Hc; try discriminate.
  rewrite <- Tbuf in Hbuf. intros Hho.
  exists sd0, sd1, d0, d1.
  assert (Hbb' : backbuffer m = 0 \/ backbuffer m = 1) by tauto.
  destruct Hbb' as [Hb0 | Hb1].
  - rewrite Hb0 in *.
    destruct (show_colors_0 _ _ _ _ _ _ _ _ _ Hbuf Hc) as (sd0' & -> & Henc).
    destruct (handoff_spec
                (set_buffer [mk_stream_buffer (Some sd0') (Some d0);
                             mk_stream_buffer (Some sd1) (Some d1)]
                   (show_tint color m))
                (Some sd0') (Some sd1) d0 d1 (DescPtr 0 0) (u8 (Z.lxor 0 1))
                eq_refl)
      as (e0 & e1 & He0 & He1 & Hrun);
      [simpl; lia | simpl; lia | simpl; lia |].
    rewrite Hrun in Hho. inversion Hho; subst m'.
    simpl in He0, He1. simpl. rewrite TN in He0, He1. rewrite TN.
    exists sd0', sd1, e0, e1.
    rewrite <- Tbuf.
    repeat split; try assumption; try reflexivity; try lia.
    apply (encoded_length (show_tint color m) fb mode);
      [rewrite TW | rewrite TR | rewrite TD |]; assumption.
  - rewrite Hb1 in *.
    destruct (show_colors_1 _ _ _ _ _ _ _ _ _ Hbuf Hc) as (sd1' & -> & Henc).
    destruct (handoff_spec
                (set_buffer [mk_stream_buffer (Some sd0) (Some d0);
                             mk_stream_buffer (Some sd1') (Some d1)]
                   (show_tint color m))
                (Some sd0) (Some sd1') d0 d1 (DescPtr 1 0) (u8 (Z.lxor 1 1))
                eq_refl)
      as (e0 & e1 & He0 & He1 & Hrun);
      [simpl; lia | simpl; lia | simpl; lia |].
    rewrite Hrun in Hho. inversion Hho; subst m'.
    simpl in He0, He1. simpl. rewrite TN in He0, He1. rewrite TN.
    exists sd0, sd1', e0, e1.
    rewrite <- Tbuf.
    repeat split; try assumption; try reflexivity; try lia.
    apply (encoded_length (show_tint color m) fb mode);
      [rewrite TW | rewrite TR | rewrite TD |]; assumption.
Qed.

Lemma load_insert_eq {A} (l : list A) (i : Z) (x : A) :
  0 <= i < Z.of_nat (length l) -> load (<[Z.to_nat i := x]> l) i = Some x.
Proof.
  intros Hi. rewrite load_lookup by lia. apply list_lookup_insert_eq. lia.
Qed.

(** What one successful [show] in double-buffer mode leaves behind. *)
Lemma show_double_step (fb : list Z) (color mode : Z) (m m' : matrix_t) :
  wf_matrix m -> initialized m = true -> double_buffer m = true ->
  ledmatrix_show fb color mode m = Done tt m' ->
  wf_matrix m' /\ initialized m' = true /\ double_buffer m' = true /\
  same_geometry m m' /\
  mono_color m' = mono_color (show_tint color m) /\
  backbuffer m' = 1 - backbuffer m /\
  frontbuffer m' = backbuffer m /\
  tail_next m' 0 = Some (DescPtr (backbuffer m) 0) /\
  tail_next m' 1 = Some (DescPtr (backbuffer m) 0) /\
  stream_of m' (frontbuffer m) = stream_of m (frontbuffer m) /\
  exists sd sd',
    stream_of m (backbuffer m) = Some sd /\
    stream_of m' (backbuffer m) = Some sd' /\
    encoded (show_tint color m) fb mode sd sd'.
Proof.
  intros Hwf Hinit Hdbl Hrun.
  destruct (show_double_spec fb color mode m m' Hwf Hinit Hdbl Hrun)
    as (sd0 & sd1 & d0 & d1 & sd0' & sd1' & e0 & e1 &
        Hbuf & He0 & He1 & -> & Hcase0 & Hcase1 & Hl0 & Hl1).
  destruct Hwf as (HW & HR & HD & HN & Hbb & sb0 & sb1 & Hbuf' & Ha0 & Ha1).
  rewrite Hbuf in Hbuf'. inversion Hbuf'; subst sb0 sb1. clear Hbuf'.
  destruct Ha0 as (x & y & E & Hsd0 & Hd0). inversion E; subst x y. clear E.
  destruct (Ha1 Hdbl) as (x & y & E & Hsd1 & Hd1). inversion E; subst x y.
  clear E Ha1.
  destruct (show_tint_fields color m)
    as ((TW & TH & TR & TD & TI & TC & TS & TN & TB & TDB & TIN) & Tbuf & Tbb).
  remember (show_tint color m) as mt eqn:Hmt.
  assert (Hbb' : backbuffer m = 0 \/ backbuffer m = 1) by tauto.
  assert (Hgeo : same_geometry m
            (set_backbuffer (u8 (Z.lxor (backbuffer m) 1))
               (set_buffer
                  [mk_stream_buffer (Some sd0')
                     (Some (<[Z.to_nat (dma_desc_count m - 1) :=
                                set_next (DescPtr (backbuffer m) 0) e0]> d0));
                   mk_stream_buffer (Some sd1')
                     (Some (<[Z.to_nat (dma_desc_count m - 1) :=
                                set_next (DescPtr (backbuffer m) 0) e1]> d1))]
                  mt))).
  { unfold same_geometry. simpl. repeat split; assumption. }
  split.
  { unfold wf_matrix. simpl. rewrite TW, TR, TD, TN, TDB.
    split; [assumption |]. split; [assumption |]. split; [assumption |].
    split; [assumption |].
    split.
    { destruct Hbb' as [-> | ->]; [right | left]; split; auto. }
    eexists. eexists. split; [reflexivity |].
    split; [| intros _];
      (eexists; eexists; split; [reflexivity |]; simpl;
       rewrite ?TW, ?TR, ?TD, ?TN, ?length_insert; split; lia). }
  split; [simpl; congruence |].
  split; [simpl; congruence |].
  split; [exact Hgeo |].
  split; [reflexivity |].
  split; [simpl; destruct Hbb' as [-> | ->]; reflexivity |].
  split; [unfold frontbuffer; simpl; destruct Hbb' as [-> | ->]; reflexivity |].
  split.
  { unfold tail_next, descs_of. simpl. rewrite TN.
    rewrite load_insert_eq by lia. reflexivity. }
  split.
  { unfold tail_next, descs_of. simpl. rewrite TN.
    rewrite load_insert_eq by lia. reflexivity. }
  unfold stream_of, frontbuffer. simpl. rewrite Hbuf.
  destruct Hbb' as [Hb | Hb]; rewrite Hb in *; simpl.
  - destruct (Hcase0 eq_refl) as (-> & Henc).
    split; [reflexivity |]. exists sd0, sd0'. auto.
  - destruct (Hcase1 eq_refl) as (-> & Henc).
    split; [reflexivity |]. exists sd1, sd1'. auto.
Qed.

Lemma show_all_cons (fb : list Z) (color mode : Z)
  (rest : list (list Z * Z * Z)) (m : matrix_t) :
  show_all ((fb, color, mode) :: rest) m
  = match ledmatrix_show fb color mode m with
    | Done _ m1 => show_all rest m1
    | Raised e m1 => Raised e m1
    | Undefined => Undefined
    end.
Proof. reflexivity. Qed.

Lemma demo_matrix_wf : wf_matrix demo_matrix.
Proof.
  unfold wf_matrix. vm_compute.
  repeat split; try discriminate; try (right; split; reflexivity).
  eexists. eexists. split; [reflexivity |].
  split; [| intros _]; eexists; eexists; (split; [reflexivity |]);
    split; reflexivity.
Qed.

(** C4 (hand-off): in double-buffer mode, after any non-empty sequence of
    successful [show] calls both rings' last [next] link points at the first
    descriptor of the current front buffer, which is the buffer the last
    call wrote, and every call toggles the backbuffer index, whichever
    buffer was the backbuffer at the start. *)
Theorem show_handoff (m m' : matrix_t) (calls : list (list Z * Z * Z)) :
  wf_matrix m -> initialized m = true -> double_buffer m = true ->
  calls <> [] ->
  show_all calls m = Done tt m' ->
  tail_next m' 0 = Some (DescPtr (frontbuffer m') 0) /\
  tail_next m' 1 = Some (DescPtr (frontbuffer m') 0) /\
  backbuffer m' = (if Nat.even (length calls) then backbuffer m
                   else 1 - backbuffer m) /\
  exists before fb color mode m_prev sd sd',
    calls = before ++ [(fb, color, mode)] /\
    show_all before m = Done tt m_prev /\
    ledmatrix_show fb color mode m_prev = Done tt m' /\
    backbuffer m_prev = frontbuffer m' /\
    backbuffer m' = 1 - backbuffer m_prev /\
    stream_of m_prev (frontbuffer m') = Some sd /\
    stream_of m' (frontbuffer m') = Some sd' /\
    encoded (show_tint color m_prev) fb mode sd sd'.
Proof.
  revert m. induction calls as [| [[fb color] mode] rest IH];
    intros m Hwf Hinit Hdbl Hne Hrun; [contradiction |].
  rewrite show_all_cons in Hrun.
  destruct (ledmatrix_show fb color mode m) as [[] m1 | |] eqn:Hshow;
    try discriminate.
  destruct (show_double_step fb color mode m m1 Hwf Hinit Hdbl Hshow)
    as (Hwf1 & Hinit1 & Hdbl1 & _ & _ & Hbb1 & Hfront1 & Ht0 & Ht1 & _ &
        sd & sd' & Hsd & Hsd' & Henc).
  destruct rest as [| c rest'].
  - simpl in Hrun. inversion Hrun; subst m'.
    rewrite Hfront1.
    split; [assumption |]. split; [assumption |]. split; [assumption |].
    exists [], fb, color, mode, m, sd, sd'.
    repeat split; try assumption; reflexivity.
  - destruct (IH m1 Hwf1 Hinit1 Hdbl1 ltac:(discriminate) Hrun)
      as (T0 & T1 & Hbb & before & fb' & color' & mode' & m_prev & s & s' &
          Hcalls & Hbefore & Hlast & Hrest).
    split; [assumption |]. split; [assumption |].
    split.
    { rewrite Hbb, Hbb1.
      change (length ((fb, color, mode) :: c :: rest'))
        with (Datatypes.S (length (c :: rest'))).
      rewrite Nat.even_succ, <- Nat.negb_even.
      destruct (Nat.even (length (c :: rest'))); simpl; lia. }
    exists ((fb, color, mode) :: before), fb', color', mode', m_prev, s, s'.
    split; [rewrite Hcalls; reflexivity |].
    split; [rewrite show_all_cons, Hshow; assumption |].
    split; [assumption |]. exact Hrest.
Qed.

Lemma show_handoff_witness :
  let m' := state_of (show_all demo_calls demo_matrix) in
  tail_next m' 0 = Some (DescPtr (frontbuffer m') 0) /\
  tail_next m' 1 = Some (DescPtr (frontbuffer m') 0) /\
  backbuffer m' = (if Nat.even (length demo_calls) then backbuffer demo_matrix
                   else 1 - backbuffer demo_matrix) /\
  exists before fb color mode m_prev sd sd',
    demo_calls = before ++ [(fb, color, mode)] /\
    show_all before demo_matrix = Done tt m_prev /\
    ledmatrix_show fb color mode m_prev = Done tt m' /\
    backbuffer m_prev = frontbuffer m' /\
    backbuffer m' = 1 - backbuffer m_prev /\
    stream_of m_prev (frontbuffer m') = Some sd /\
    stream_of m' (frontbuffer m') = Some sd' /\
    encoded (show_tint color m_prev) fb mode sd sd'.
Proof.
  apply (show_handoff demo_matrix
           (state_of (show_all demo_calls demo_matrix)) demo_calls).
  - exact demo_matrix_wf.
  - vm_compute. reflexivity.
  - vm_compute. reflexivity.
  - discriminate.
  - vm_compute. reflexivity.
Defined.

(** ** Re-encoding a frame *)

Lemma cell_decode (W R D a : Z) :
  0 < W -> 0 < R -> 0 <= a < 2 * W * R * D -> a mod 2 = 0 ->
  exists l r p, 0 <= l < D /\ 0 <= r < R /\ 0 <= p < W /\ a = cell W R l r p.
Proof.
  intros HW HR Ha Hev.
  assert (HWR : 0 < 2 * W * R) by nia.
  pose proof (Z.div_mod a (2 * W * R) ltac:(lia)) as H1.
  pose proof (Z.mod_pos_bound a (2 * W * R) HWR) as B1.
  set (l := a / (2 * W * R)) in *. set (x := a mod (2 * W * R)) in *.
  pose proof (Z.div_mod x (2 * W) ltac:(lia)) as H2.
  pose proof (Z.mod_pos_bound x (2 * W) ltac:(lia)) as B2.
  set (r := x / (2 * W)) in *. set (y := x mod (2 * W)) in *.
  pose proof (Z.div_mod y 2 ltac:(lia)) as H3.
  pose proof (Z.mod_pos_bound y 2 ltac:(lia)) as B3.
  assert (Hy : y mod 2 = 0).
  { assert (E : a = y + (W * R * l + W * r) * 2) by lia.
    rewrite E, Z.mod_add in Hev by lia. assumption. }
  exists l, r, (y / 2).
  assert (0 <= l < D).
  { split.
    - apply Z.div_pos; lia.
    - apply Z.div_lt_upper_bound; [lia |]. nia. }
  assert (0 <= r < R).
  { split.
    - apply Z.div_pos; lia.
    - apply Z.div_lt_upper_bound; lia. }
  assert (0 <= y / 2 < W).
  { split.
    - apply Z.div_pos; lia.
    - apply Z.div_lt_upper_bound; lia. }
  repeat split; try lia.
  unfold cell. lia.
Qed.

Lemma fill_cells_idempotent (W R D off : Z) (v : Z -> Z -> Z -> option Z)
  (sd sd' : list Z) :
  0 < W -> 0 < R -> 0 <= D -> 2 * W * R * D < 4294967296 ->
  0 <= off <= 1 ->
  2 * W * R * D <= Z.of_nat (length sd) ->
  fill_cells W R D off v sd = Some sd' ->
  fill_cells W R D off v sd' = Some sd'.
Proof.
  intros HW HR HD Hsz Hoff Hlen Hrun.
  apply fill_cells_partial in Hrun as (Hlen' & Hcells & _); try lia.
  destruct (fill_cells_total W R D off v sd') as (sd'' & Hrun');
    try lia.
  { intros l r p Hl Hr Hp.
    pose proof (cell_bound W R D l r p Hl Hr Hp) as Hb.
    destruct (Hcells l r p Hl Hr Hp) as (c & Hc & _); [lia |]. congruence. }
  rewrite Hrun'. f_equal.
  apply fill_cells_partial in Hrun' as (Hlen'' & Hcells' & Hrest'); try lia.
  apply list_eq. intros i.
  rewrite <- (Nat2Z.id i).
  rewrite <- !(load_lookup _ (Z.of_nat i)) by lia.
  set (a := Z.of_nat i). assert (Ha : 0 <= a) by lia. clearbody a.
  destruct (Z.lt_ge_cases (a - off) (2 * W * R * D)) as [Hlt | Hge].
  - destruct (Z.eq_dec ((a - off) mod 2) 0) as [Hev | Hodd].
    + destruct (Z.lt_ge_cases (a - off) 0) as [Hneg | Hnn].
      * assert (a - off = -1) by lia.
        replace (a - off) with (-1) in Hev by lia. discriminate.
      * destruct (cell_decode W R D (a - off) HW HR ltac:(lia) Hev)
          as (l & r & p & Hl & Hr & Hp & Ea).
        pose proof (cell_bound W R D l r p Hl Hr Hp) as Hb.
        destruct (Hcells l r p Hl Hr Hp) as (c & Hc & Hld); [lia |].
        destruct (Hcells' l r p Hl Hr Hp) as (c' & Hc' & Hld'); [lia |].
        replace a with (cell W R l r p + off) by lia.
        rewrite Hld, Hld'. congruence.
    + apply Hrest'. tauto.
  - apply Hrest'. lia.
Qed.

Lemma update_framebuffer_data_idempotent (m : matrix_t) (fb : list Z)
  (dec : get_color_func) (sd sd' : list Z) :
  0 < width m < 65536 -> 0 < rows m < 256 -> 1 <= color_depth m <= 8 ->
  Z.of_nat (length sd) = 2 * width m * rows m * color_depth m ->
  update_framebuffer_data m fb dec sd = Some sd' ->
  update_framebuffer_data m fb dec sd' = Some sd'.
Proof.
  intros HW HR HD Hlen. rewrite !update_framebuffer_data_fill.
  apply fill_cells_idempotent; try lia.
  - now apply wf_size.
  - unfold BITSTREAM_COLOR_BYTE. lia.
Qed.

(** The RGB565 pass reads the geometry only. *)
Lemma update_framebuffer_data_rgb_ext (m1 m2 : matrix_t) (fb sd : list Z) :
  width m2 = width m1 -> rows m2 = rows m1 ->
  color_depth m2 = color_depth m1 -> invert m2 = invert m1 ->
  column_swap m2 = column_swap m1 -> single_chn m2 = single_chn m1 ->
  update_framebuffer_data m2 fb get_color_bits_rgb sd
  = update_framebuffer_data m1 fb get_color_bits_rgb sd.
Proof.
  intros HW HR HD HI HC HS.
  unfold update_framebuffer_data, color_byte, get_color_bits_rgb.
  rewrite HW, HR, HD, HI, HC, HS. reflexivity.
Qed.

(** C5, as the code has it: with double buffering and the backbuffer index
    at 1 (its value after [init]), [show(fbA)] followed by [show(fbB)]
    (RGB565) leaves both rings' last [next] link at the first descriptor of
    buffer 0, the new front buffer, which holds the encoding of [fbB]; the
    backbuffer index is 1 again and designates the buffer that holds the
    encoding of [fbA]. *)
Theorem show_twice (m m1 m2 : matrix_t) (fbA fbB : list Z) (cA cB : Z) :
  wf_matrix m -> initialized m = true -> double_buffer m = true ->
  backbuffer m = 1 ->
  ledmatrix_show fbA cA COLOR_RGB565 m = Done tt m1 ->
  ledmatrix_show fbB cB COLOR_RGB565 m1 = Done tt m2 ->
  tail_next m2 0 = Some (DescPtr 0 0) /\
  tail_next m2 1 = Some (DescPtr 0 0) /\
  frontbuffer m2 = 0 /\
  backbuffer m2 = 1 /\
  holds_frame m2 (frontbuffer m2) fbB get_color_bits_rgb /\
  holds_frame m2 (backbuffer m2) fbA get_color_bits_rgb.
Proof.
  intros Hwf Hinit Hdbl Hbb HA HB.
  destruct (show_double_step fbA cA COLOR_RGB565 m m1 Hwf Hinit Hdbl HA)
    as (Hwf1 & Hinit1 & Hdbl1 & Hgeo1 & _ & Hbb1 & Hfront1 & _ & _ & _ &
        sdA0 & sdA & HsA0 & HsA & HencA).
  destruct (show_double_step fbB cB COLOR_RGB565 m1 m2 Hwf1 Hinit1 Hdbl1 HB)
    as (Hwf2 & Hinit2 & Hdbl2 & Hgeo2 & _ & Hbb2 & Hfront2 & Ht0 & Ht1 &
        Hkeep & sdB0 & sdB & HsB0 & HsB & HencB).
  assert (B1 : backbuffer m1 = 0) by lia.
  assert (B2 : backbuffer m2 = 1) by lia.
  rewrite Hfront1, Hbb in Hkeep.
  rewrite Hbb in HsA0, HsA. rewrite B1 in Ht0, Ht1, HsB0, HsB, Hfront2.
  rewrite Hfront2, B2.
  destruct Hgeo1 as (W1 & _ & R1 & D1 & I1 & C1 & S1 & _).
  destruct Hgeo2 as (W2 & _ & R2 & D2 & I2 & C2 & S2 & _).
  destruct (show_tint_fields cA m) as ((TW & _ & TR & TD & TI & TC & TS & _) & _).
  destruct (show_tint_fields cB m1)
    as ((UW & _ & UR & UD & UI & UC & US & _) & _).
  destruct Hwf as (HW & HR & HD & _ & _ & sb0 & sb1 & Hbuf & Ha0 & Ha1).
  destruct Hwf1 as (HW1 & HR1 & HD1 & _ & _ & tb0 & tb1 & Hbuf1 & Hb0 & Hb1).
  split; [assumption |]. split; [assumption |].
  split; [reflexivity |]. split; [reflexivity |].
  unfold encoded in HencA, HencB. simpl in HencA, HencB.
  split.
  - (* buffer 0 holds fbB *)
    exists sdB. split; [assumption |].
    rewrite (update_framebuffer_data_rgb_ext (show_tint cB m1) m2)
      by congruence.
    apply (update_framebuffer_data_idempotent _ _ _ sdB0).
    + rewrite UW. assumption.
    + rewrite UR. assumption.
    + rewrite UD. assumption.
    + destruct Hb0 as (x & y & -> & Hx & _).
      unfold stream_of in HsB0. rewrite Hbuf1 in HsB0. simpl in HsB0.
      inversion HsB0; subst x. rewrite UW, UR, UD. assumption.
    + assumption.
  - (* buffer 1 holds fbA *)
    exists sdA. split; [rewrite Hkeep; assumption |].
    rewrite (update_framebuffer_data_rgb_ext (show_tint cA m) m2)
      by congruence.
    apply (update_framebuffer_data_idempotent _ _ _ sdA0).
    + rewrite TW. assumption.
    + rewrite TR. assumption.
    + rewrite TD. assumption.
    + destruct (Ha1 Hdbl) as (x & y & -> & Hx & _).
      unfold stream_of in HsA0. rewrite Hbuf in HsA0. simpl in HsA0.
      inversion HsA0; subst x. rewrite TW, TR, TD. assumption.
    + assumption.
Qed.

Lemma show_twice_witness :
  let m1 := state_of (ledmatrix_show demo_fbA (-1) COLOR_RGB565 demo_matrix) in
  let m2 := state_of (ledmatrix_show demo_fbB (-1) COLOR_RGB565 m1) in
  tail_next m2 0 = Some (DescPtr 0 0) /\
  tail_next m2 1 = Some (DescPtr 0 0) /\
  frontbuffer m2 = 0 /\
  backbuffer m2 = 1 /\
  holds_frame m2 (frontbuffer m2) demo_fbB get_color_bits_rgb /\
  holds_frame m2 (backbuffer m2) demo_fbA get_color_bits_rgb.
Proof.
  intros m1 m2.
  apply (show_twice demo_matrix m1 m2 demo_fbA demo_fbB (-1) (-1)).
  - exact demo_matrix_wf.
  - vm_compute. reflexivity.
  - vm_compute. reflexivity.
  - vm_compute. reflexivity.
  - vm_compute. reflexivity.
  - vm_compute. reflexivity.
Defined.

(** C5 as stated fails: after [show(fbA)] and [show(fbB)] the tail links
    point at buffer 0, which does not hold the encoding of [fbA], and the
    backbuffer index designates buffer 1, which does not hold that of
    [fbB]. *)
Lemma show_twice_counterexample :
  let m2 := state_of (show_all demo_calls demo_matrix) in
  show_all demo_calls demo_matrix = Done tt m2 /\
  ~ (exists b b',
       tail_next m2 0 = Some (DescPtr b 0) /\
       tail_next m2 1 = Some (DescPtr b 0) /\
       holds_frame m2 b demo_fbA get_color_bits_rgb /\
       backbuffer m2 = b' /\
       holds_frame m2 b' demo_fbB get_color_bits_rgb).
Proof.
  intros m2. split; [vm_compute; reflexivity |].
  intros (b & b' & Ht0 & _ & (sd & Hs & Hu) & _).
  assert (Hb : b = 0).
  { vm_compute in Ht0. inversion Ht0. reflexivity. }
  subst b. vm_compute in Hs. inversion Hs; subst sd. clear Hs.
  vm_compute in Hu. discriminate Hu.
Qed.

Lemma decoder_of_invalid (mode : Z) :
  mode <> COLOR_RGB565 -> mode <> COLOR_GS8 -> mode <> COLOR_MONO ->
  decoder_of mode = None.
Proof.
  intros H0 H1 H2. unfold decoder_of.
  destruct (Z.eqb_spec mode COLOR_RGB565); [contradiction |].
  destruct (Z.eqb_spec mode COLOR_GS8); [contradiction |].
  destruct (Z.eqb_spec mode COLOR_MONO); [contradiction |].
  reflexivity.
Qed.

(** C10 (mode outside the three constants): [show] returns without an
    error and leaves the stream data of both buffers as they were; in
    double-buffer mode it still redirects both tail links to the first
    descriptor of the untouched backbuffer and toggles the backbuffer
    index, so that buffer becomes the front one. *)
Theorem show_invalid_mode (m : matrix_t) (fb : list Z) (color mode : Z) :
  wf_matrix m -> initialized m = true ->
  mode <> COLOR_RGB565 -> mode <> COLOR_GS8 -> mode <> COLOR_MONO ->
  exists m',
    ledmatrix_show fb color mode m = Done tt m' /\
    stream_of m' 0 = stream_of m 0 /\
    stream_of m' 1 = stream_of m 1 /\
    (if double_buffer m
     then tail_next m' 0 = Some (DescPtr (backbuffer m) 0) /\
          tail_next m' 1 = Some (DescPtr (backbuffer m) 0) /\
          backbuffer m' = 1 - backbuffer m /\
          frontbuffer m' = backbuffer m
     else buffer m' = buffer m /\ backbuffer m' = backbuffer m).
Proof.
  intros Hwf Hinit H0 H1 H2.
  rewrite show_split by assumption.
  rewrite show_colors_invalid by now apply decoder_of_invalid.
  destruct (show_tint_fields color m)
    as ((TW & TH & TR & TD & TI & TC & TS & TN & TB & TDB & TIN) & Tbuf & Tbb).
  destruct Hwf as (HW & HR & HD & HN & Hbb & sb0 & sb1 & Hbuf & Ha0 & Ha1).
  destruct (double_buffer m) eqn:Hdbl.
  - destruct Ha0 as (sd0 & d0 & -> & Hsd0 & Hd0).
    destruct (Ha1 eq_refl) as (sd1 & d1 & -> & Hsd1 & Hd1).
    rewrite <- Tbuf in Hbuf.
    destruct (handoff_spec (show_tint color m) (Some sd0) (Some sd1) d0 d1
                (DescPtr (backbuffer m) 0) (u8 (Z.lxor (backbuffer m) 1)) Hbuf)
      as (e0 & e1 & He0 & He1 & Hrun); try (rewrite TN; assumption).
    rewrite Hrun. eexists. split; [reflexivity |].
    rewrite Tbuf in Hbuf.
    assert (Hbb' : backbuffer m = 0 \/ backbuffer m = 1) by tauto.
    unfold stream_of, tail_next, descs_of, frontbuffer. simpl.
    rewrite Hbuf. simpl. rewrite TN in *.
    rewrite !load_insert_eq by lia.
    repeat split; destruct Hbb' as [-> | ->]; reflexivity.
  - exists (show_tint color m). split; [reflexivity |].
    unfold stream_of. rewrite Tbuf. auto.
Qed.

Lemma show_invalid_mode_witness :
  exists m',
    ledmatrix_show demo_fbA (-1) 7 demo_matrix = Done tt m' /\
    stream_of m' 0 = stream_of demo_matrix 0 /\
    stream_of m' 1 = stream_of demo_matrix 1 /\
    (if double_buffer demo_matrix
     then tail_next m' 0 = Some (DescPtr (backbuffer demo_matrix) 0) /\
          tail_next m' 1 = Some (DescPtr (backbuffer demo_matrix) 0) /\
          backbuffer m' = 1 - backbuffer demo_matrix /\
          frontbuffer m' = backbuffer demo_matrix
     else buffer m' = buffer demo_matrix /\
          backbuffer m' = backbuffer demo_matrix).
Proof.
  apply (show_invalid_mode demo_matrix demo_fbA (-1) 7).
  - exact demo_matrix_wf.
  - vm_compute. reflexivity.
  - discriminate.
  - discriminate.
  - discriminate.
Defined.

(** ** [set_brightness] *)

Lemma create_control_pattern_0 (m : matrix_t) (sd0 : list Z)
  (dd0 : option (list lldesc_t)) (sb1 : stream_buffer_t) :
  buffer m = [mk_stream_buffer (Some sd0) dd0; sb1] ->
  create_control_pattern 0 m
  = match create_control_pattern_data m sd0 with
    | Some sd' => Done tt (set_buffer [mk_stream_buffer (Some sd') dd0; sb1] m)
    | None => Undefined
    end.
Proof.
  intros Hb. unfold create_control_pattern, bind, get, stream_of, put_opt,
    set_stream, defined, ret, undefined.
  rewrite Hb. simpl.
  destruct (create_control_pattern_data m sd0); [| reflexivity].
  rewrite Hb. reflexivity.
Qed.

Lemma create_control_pattern_1 (m : matrix_t) (sd1 : list Z)
  (dd1 : option (list lldesc_t)) (sb0 : stream_buffer_t) :
  buffer m = [sb0; mk_stream_buffer (Some sd1) dd1] ->
  create_control_pattern 1 m
  = match create_control_pattern_data m sd1 with
    | Some sd' => Done tt (set_buffer [sb0; mk_stream_buffer (Some sd') dd1] m)
    | None => Undefined
    end.
Proof.
  intros Hb. unfold create_control_pattern, bind, get, stream_of, put_opt,
    set_stream, defined, ret, undefined.
  rewrite Hb. simpl.
  destruct (create_control_pattern_data m sd1); [| reflexivity].
  rewrite Hb. reflexivity.
Qed.

Lemma set_brightness_run (m : matrix_t) (v : Z) :
  wf_matrix m -> initialized m = true -> 0 <= v <= width m - 2 ->
  exists sd0 dd0 sb1 sd0' sb1',
    buffer m = [mk_stream_buffer (Some sd0) dd0; sb1] /\
    ledmatrix_set_brightness (MpSmallInt v) m
    = Done tt (set_buffer [mk_stream_buffer (Some sd0') dd0; sb1']
                 (set_brightness_field (v + 1) m)) /\
    create_control_pattern_data (set_brightness_field (v + 1) m) sd0
    = Some sd0' /\
    (if double_buffer m
     then exists sd1 dd1 sd1',
            sb1 = mk_stream_buffer (Some sd1) dd1 /\
            sb1' = mk_stream_buffer (Some sd1') dd1 /\
            create_control_pattern_data (set_brightness_field (v + 1) m) sd1
            = Some sd1'
     else sb1' = sb1).
Proof.
  intros (HW & HR & HD & HN & Hbb & sb0 & sb1 & Hbuf & Ha0 & Ha1) Hinit Hv.
  destruct Ha0 as (sd0 & d0 & -> & Hsd0 & Hd0).
  pose proof (wf_size m HW HR HD) as Hsz.
  set (mb := set_brightness_field (v + 1) m).
  destruct (create_control_pattern_data_cells mb sd0)
    as (sd0' & Hrun0 & _); try (simpl; lia).
  exists sd0, (Some d0), sb1, sd0'.
  unfold ledmatrix_set_brightness.
  cbv beta iota delta [bind get ret modify].
  rewrite Hinit. cbv beta iota delta [negb].
  destruct (Z.ltb_spec v 0); [lia |].
  destruct (Z.geb_spec v (width m - 1)); [lia |].
  cbv beta iota delta [orb].
  replace (u16 (v + 1)) with (v + 1)
    by (unfold u16; symmetry; apply Z.mod_small; lia).
  fold mb.
  rewrite (create_control_pattern_0 mb sd0 (Some d0) sb1 Hbuf), Hrun0.
  destruct (double_buffer m) eqn:Hdbl.
  - destruct (Ha1 eq_refl) as (sd1 & d1 & -> & Hsd1 & Hd1).
    destruct (create_control_pattern_data_cells mb sd1)
      as (sd1' & Hrun1 & _); try (simpl; lia).
    rewrite (create_control_pattern_1
               (set_buffer [mk_stream_buffer (Some sd0') (Some d0);
                            mk_stream_buffer (Some sd1) (Some d1)] mb)
               sd1 (Some d1) (mk_stream_buffer (Some sd0') (Some d0)) eq_refl).
    change (create_control_pattern_data (set_buffer _ mb) sd1)
      with (create_control_pattern_data mb sd1).
    rewrite Hrun1.
    exists (mk_stream_buffer (Some sd1') (Some d1)).
    split; [assumption |]. split; [reflexivity |]. split; [reflexivity |].
    exists sd1, (Some d1), sd1'. auto.
  - exists sb1. split; [assumption |]. split; [reflexivity |]. auto.
Qed.

(** C8, as the code has it: [set_brightness(v)] on an initialised matrix
    does not clamp.  For [0 <= v <= W - 2] it stores [B = v + 1] and re-runs
    the control-byte pass on buffer 0 and, when double-buffered, on buffer
    1: every control byte is the one computed from the new brightness and
    every colour byte is unchanged.  For any other [v] it raises a
    [ValueError] and leaves the global as it was. *)
Theorem set_brightness_spec (m : matrix_t) (v b l row pixel : Z) :
  wf_matrix m -> initialized m = true ->
  b = 0 \/ (b = 1 /\ double_buffer m = true) ->
  0 <= l < color_depth m -> 0 <= row < rows m -> 0 <= pixel < width m ->
  if (0 <=? v) && (v <=? width m - 2)
  then exists m' sd sd',
         ledmatrix_set_brightness (MpSmallInt v) m = Done tt m' /\
         brightness m' = v + 1 /\
         stream_of m b = Some sd /\
         stream_of m' b = Some sd' /\
         load sd' (cell (width m) (rows m) l row pixel + BITSTREAM_CTRL_BYTE)
           = Some (control_byte m' (u8 (row - 1)) pixel) /\
         load sd' (cell (width m) (rows m) l row pixel + BITSTREAM_COLOR_BYTE)
           = load sd (cell (width m) (rows m) l row pixel
                      + BITSTREAM_COLOR_BYTE)
  else exists msg,
         ledmatrix_set_brightness (MpSmallInt v) m
         = Raised (ValueError msg) m.
Proof.
  intros Hwf Hinit Hb Hl Hrow Hpx.
  destruct (Z.leb_spec 0 v) as [Hlo | Hlo];
    [destruct (Z.leb_spec v (width m - 2)) as [Hhi | Hhi] |]; simpl.
  - destruct (set_brightness_run m v Hwf Hinit ltac:(lia))
      as (sd0 & dd0 & sb1 & sd0' & sb1' & Hbuf & Hrun & Hrun0 & Hsecond).
    destruct Hwf as (HW & HR & HD & HN & Hbb & x0 & x1 & Hbuf' & Ha0 & Ha1).
    rewrite Hbuf in Hbuf'. inversion Hbuf'; subst x0 x1. clear Hbuf'.
    pose proof (wf_size m HW HR HD) as Hsz.
    set (mb := set_brightness_field (v + 1) m) in *.
    assert (Hpass : forall sd sd',
              Z.of_nat (length sd) = 2 * width m * rows m * color_depth m ->
              create_control_pattern_data mb sd = Some sd' ->
              load sd' (cell (width m) (rows m) l row pixel
                        + BITSTREAM_CTRL_BYTE)
                = Some (control_byte mb (u8 (row - 1)) pixel) /\
              load sd' (cell (width m) (rows m) l row pixel
                        + BITSTREAM_COLOR_BYTE)
                = load sd (cell (width m) (rows m) l row pixel
                           + BITSTREAM_COLOR_BYTE)).
    { intros sd sd' Hlen Hdata.
      destruct (create_control_pattern_data_cells mb sd)
        as (sd'' & Hrun' & _ & Hcells & Hrest); try (simpl; lia).
      rewrite Hdata in Hrun'. inversion Hrun'; subst sd''.
      split.
      - apply (Hcells l row pixel); assumption.
      - apply Hrest. unfold BITSTREAM_COLOR_BYTE. rewrite Z.add_0_r.
        apply cell_even. }
    destruct Ha0 as (y0 & d0 & E0 & Hsd0 & _). inversion E0; subst y0 dd0.
    destruct Hb as [-> | [-> Hdbl]].
    + destruct (Hpass sd0 sd0' Hsd0 Hrun0) as (Hc & Hk).
      eexists. exists sd0, sd0'. split; [exact Hrun |].
      split; [reflexivity |].
      split; [unfold stream_of; rewrite Hbuf; reflexivity |].
      split; [reflexivity |]. split; assumption.
    + rewrite Hdbl in Hsecond.
      destruct Hsecond as (sd1 & dd1 & sd1' & -> & -> & Hrun1).
      destruct (Ha1 Hdbl) as (y1 & d1 & E1 & Hsd1 & _).
      inversion E1; subst y1 dd1.
      destruct (Hpass sd1 sd1' Hsd1 Hrun1) as (Hc & Hk).
      eexists. exists sd1, sd1'. split; [exact Hrun |].
      split; [reflexivity |].
      split; [unfold stream_of; rewrite Hbuf; reflexivity |].
      split; [reflexivity |]. split; assumption.
  - eexists. unfold ledmatrix_set_brightness.
    cbv beta iota delta [bind get ret modify mp_raise].
    rewrite Hinit. cbv beta iota delta [negb].
    destruct (Z.ltb_spec v 0); [lia |].
    destruct (Z.geb_spec v (width m - 1)); [| lia].
    reflexivity.
  - eexists. unfold ledmatrix_set_brightness.
    cbv beta iota delta [bind get ret modify mp_raise].
    rewrite Hinit. cbv beta iota delta [negb].
    destruct (Z.ltb_spec v 0); [| lia].
    reflexivity.
Qed.

Lemma set_brightness_spec_witness :
  if (0 <=? 1) && (1 <=? width demo_matrix - 2)
  then exists m' sd sd',
         ledmatrix_set_brightness (MpSmallInt 1) demo_matrix = Done tt m' /\
         brightness m' = 1 + 1 /\
         stream_of demo_matrix 1 = Some sd /\
         stream_of m' 1 = Some sd' /\
         load sd' (cell (width demo_matrix) (rows demo_matrix) 0 1 3
                   + BITSTREAM_CTRL_BYTE)
           = Some (control_byte m' (u8 (1 - 1)) 3) /\
         load sd' (cell (width demo_matrix) (rows demo_matrix) 0 1 3
                   + BITSTREAM_COLOR_BYTE)
           = load sd (cell (width demo_matrix) (rows demo_matrix) 0 1 3
                      + BITSTREAM_COLOR_BYTE)
  else exists msg,
         ledmatrix_set_brightness (MpSmallInt 1) demo_matrix
         = Raised (ValueError msg) demo_matrix.
Proof.
  apply (set_brightness_spec demo_matrix 1 1 0 1 3).
  - exact demo_matrix_wf.
  - vm_compute. reflexivity.
  - right. split; vm_compute; reflexivity.
  - vm_compute. split; [discriminate | reflexivity].
  - vm_compute. split; [discriminate | reflexivity].
  - vm_compute. split; [discriminate | reflexivity].
Defined.

(** C8 as stated fails: an out-of-range brightness is not clamped, the call
    raises and the stored brightness stays what it was. *)
Lemma set_brightness_counterexample :
  width demo_matrix = 4 /\ brightness demo_matrix = 3 /\
  ledmatrix_set_brightness (MpSmallInt 100) demo_matrix
  = Raised (ValueError "Brightness must be between 0 and width - 2")
           demo_matrix /\
  ~ (exists m', ledmatrix_set_brightness (MpSmallInt 100) demo_matrix
                = Done tt m' /\ brightness m' = (4 - 2) + 1).
Proof.
  assert (H : ledmatrix_set_brightness (MpSmallInt 100) demo_matrix
              = Raised (ValueError "Brightness must be between 0 and width - 2")
                       demo_matrix)
    by (vm_compute; reflexivity).
  split; [vm_compute; reflexivity |].
  split; [vm_compute; reflexivity |].
  split; [exact H |].
  intros (m' & E & _). rewrite H in E. discriminate E.
Qed.

(** ** [init]: argument checks *)

Lemma read_colors_spec (items : list mp_obj) :
  forall (iteridx : Z) (bus : list Z),
  0 <= iteridx <= 6 -> Z.of_nat (length bus) = GPIOS_BUS_SIZE ->
  (exists msg, read_colors items iteridx bus = inl (TypeError msg)) \/
  (exists bus',
     read_colors items iteridx bus
     = inr (Some (Z.min 6 (iteridx + Z.of_nat (length items)), bus')) /\
     Z.of_nat (length bus') = GPIOS_BUS_SIZE).
Proof.
  unfold GPIOS_BUS_SIZE.
  induction items as [| item rest IH]; intros iteridx bus Hi Hlen.
  - right. exists bus. simpl. rewrite Z.add_0_r, Z.min_r by lia. auto.
  - simpl read_colors.
    destruct (Z.geb_spec iteridx 6) as [Hge | Hlt].
    + right. exists bus. rewrite Z.min_l by lia.
      replace iteridx with 6 by lia. auto.
    + destruct item as [v |]; [| left; eauto].
      unfold BITSTREAM_COLOR_START_IO.
      rewrite store_in_range by lia.
      destruct (IH (iteridx + 1) (<[Z.to_nat (0 + iteridx) := v]> bus))
        as [Herr | (bus' & Hrun & Hlen')];
        [lia | rewrite length_insert; assumption | left; assumption |].
      right. exists bus'. rewrite Hrun. split; [| assumption].
      do 3 f_equal. simpl length. lia.
Qed.

Lemma read_rows_too_many (items : list mp_obj) :
  forall (iteridx : Z) (bus : list Z),
  0 <= iteridx <= 6 -> Z.of_nat (length bus) = GPIOS_BUS_SIZE ->
  6 < iteridx + Z.of_nat (length items) ->
  exists e, read_rows items iteridx bus = inl e /\
            is_invalid_argument e = true.
Proof.
  unfold GPIOS_BUS_SIZE.
  induction items as [| item rest IH]; intros iteridx bus Hi Hlen Hmany.
  - simpl in Hmany. lia.
  - simpl read_rows. unfold BITSTREAM_ROWS_MAX.
    destruct (Z.geb_spec iteridx 6) as [Hge | Hlt]; [eauto |].
    destruct item as [v |]; [| eauto].
    unfold BITSTREAM_CTRL_ROW_START_IO.
    rewrite store_in_range by lia.
    apply IH; [lia | rewrite length_insert; assumption |].
    simpl length in Hmany. lia.
Qed.

Lemma width_parity (w : Z) : (Z.land (u16 w) 1 =? 0) = negb (Z.odd w).
Proof.
  change 1 with (Z.ones 1). rewrite Z.land_ones by lia.
  change (2 ^ 1) with 2. unfold u16.
  rewrite (Z.mod_mod_divide w 65536 2) by (exists 32768; reflexivity).
  rewrite Zmod_odd. destruct (Z.odd w); reflexivity.
Qed.

(** The checks [init] makes before it allocates: each of them raises an
    [InvalidArgument] error. *)
Lemma init_checks_fail (heap_caps_malloc : Z -> bool)
  (i2s_parallel_driver_install : i2s_parallel_config_t -> bool -> Z)
  (i2s_parallel_send_dma : desc_ptr -> Z) (args : init_args) (m0 : matrix_t) :
  init_invalid args = true ->
  fails_invalid
    (ledmatrix_init heap_caps_malloc i2s_parallel_driver_install
       i2s_parallel_send_dma args m0) = true.
Proof.
  destruct args as [colors rws oe lat clk W D khz inv dbl swap single v].
  unfold init_invalid. simpl arg_width. simpl arg_brightness.
  simpl arg_color_depth. simpl io_rows. simpl io_colors.
  simpl arg_single_channel.
  intros Hinv.
  unfold ledmatrix_init.
  cbv beta iota delta [bind get ret modify mp_raise deinit when_ stop_dma
    arg_width arg_color_depth arg_invert arg_double_buffer arg_column_swap
    arg_single_channel arg_brightness io_colors io_rows io_oe io_lat io_clk].
  destruct (initialized m0); cbv beta iota;
    cbn [width brightness color_depth single_chn set_geometry
         set_brightness_field matrix_zero];
    rewrite width_parity.
  all: destruct (Z.odd W) eqn:Hodd; [reflexivity |]; cbn [negb];
    cbv beta iota;
    cbn [width brightness color_depth single_chn set_geometry
         set_brightness_field matrix_zero].
  all: destruct (Z.gtb_spec v 0) as [Hpos | Hneg];
    cbv beta iota;
    cbn [width brightness color_depth single_chn set_geometry
         set_brightness_field matrix_zero];
    [destruct (Z.geb_spec (u16 v) (u16 W - 1)) as [Hbig | Hsmall];
     [reflexivity |] |].
  all: cbv beta iota;
    cbn [width brightness color_depth single_chn set_geometry
         set_brightness_field matrix_zero].
  all: destruct (Z.eqb_spec (u8 D) 0) as [HD0 | HD0]; [reflexivity |].
  all: cbv beta iota.
  all: unfold BITSTREAM_CTRL_OE_IO, BITSTREAM_CTRL_LAT_IO.
  all: rewrite store_in_range
         by (rewrite repeat_length; unfold GPIOS_BUS_SIZE; lia).
  all: cbn [defined]; cbv beta iota delta [ret].
  all: rewrite store_in_range
         by (rewrite length_insert, repeat_length; unfold GPIOS_BUS_SIZE; lia).
  all: cbn [defined]; cbv beta iota delta [ret].
  all: match goal with
       | |- context [read_colors ?cs 0 ?bus] =>
           destruct (read_colors_spec cs 0 bus ltac:(lia))
             as [[msg E] | (bus' & E & Hlen)];
           [rewrite !length_insert, repeat_length; reflexivity
           | rewrite E; reflexivity
           | rewrite E]
       end.
  all: cbn [lift_read defined fst snd]; cbv beta iota delta [ret];
    cbn [fst snd single_chn set_brightness_field set_geometry matrix_zero].
  all: rewrite Z.add_0_l.
  all: set (n := Z.min 6 (Z.of_nat (length colors))) in *.
  all: destruct (single && negb (n =? 3) || negb single && negb (n =? 6))
         eqn:Hcnt; [reflexivity |]; cbv beta iota.
  all: destruct (read_rows_too_many rws 0 bus' ltac:(lia) Hlen)
         as (e & Erows & He);
    [| rewrite Erows; cbn [lift_read]; cbv beta iota delta [mp_raise];
       exact He].
  all: cbn [orb] in Hinv.
  all: destruct (Z.eqb_spec (u8 D) 0) as [| _]; [contradiction |].
  all: try (destruct (Z.ltb_spec 0 v); [| lia];
            destruct (Z.leb_spec (u16 W - 1) (u16 v)); [lia |]).
  all: try (destruct (Z.ltb_spec 0 v); [lia |]).
  all: cbn [andb orb] in Hinv.
  all: destruct (Z.ltb_spec 6 (Z.of_nat (length rws))); [lia |].
  all: cbn [orb] in Hinv.
  all: destruct single; cbn [andb negb orb] in Hcnt, Hinv.
  all: try (rewrite Hinv in Hcnt; discriminate).
  all: destruct (Z.ltb_spec (Z.of_nat (length colors)) 6); [| discriminate].
  all: destruct (Z.eqb_spec n 6); [unfold n in *; lia | discriminate].
Qed.

(** *** What can raise after the argument checks *)

Lemma bind_Done {A B} (c : M A) (f : A -> M B) (m m1 : matrix_t) (a : A) :
  c m = Done a m1 -> bind c f m = f a m1.
Proof. intros E. unfold bind. rewrite E. reflexivity. Qed.

Lemma bind_modify {B} (f : matrix_t -> matrix_t) (k : unit -> M B)
  (m : matrix_t) : bind (modify f) k m = k tt (f m).
Proof. reflexivity. Qed.

Lemma bind_get {B} (k : matrix_t -> M B) (m : matrix_t) :
  bind get k m = k m m.
Proof. reflexivity. Qed.

Lemma bind_ret {A B} (a : A) (k : A -> M B) (m : matrix_t) :
  bind (ret a) k m = k a m.
Proof. reflexivity. Qed.


Lemma deinit_run (m : matrix_t) : deinit m = Done tt matrix_zero.
Proof.
  unfold deinit, bind, get, when_, stop_dma, ret, modify.
  destruct (initialized m); reflexivity.
Qed.

Lemma fails_invalid_bind {A B} (c : M A) (f : A -> M B) (m : matrix_t) :
  fails_invalid (c m) = false ->
  (forall a m', fails_invalid (f a m') = false) ->
  fails_invalid (bind c f m) = false.
Proof.
  intros Hc Hf. unfold bind.
  destruct (c m) as [a m' | e m' |]; [apply Hf | exact Hc | reflexivity].
Qed.

Lemma put_opt_no_invalid (f : matrix_t -> option matrix_t) (m : matrix_t) :
  fails_invalid (put_opt f m) = false.
Proof. unfold put_opt. destruct (f m); reflexivity. Qed.

Lemma defined_no_invalid {A} (o : option A) (m : matrix_t) :
  fails_invalid (defined o m) = false.
Proof. destruct o; reflexivity. Qed.

Lemma initialize_buffer_no_invalid (heap_caps_malloc : Z -> bool) (b : Z)
  (m : matrix_t) :
  fails_invalid (initialize_buffer heap_caps_malloc b m) = false.
Proof.
  unfold initialize_buffer.
  apply fails_invalid_bind; [reflexivity | intros m1 m2].
  apply fails_invalid_bind; [apply defined_no_invalid | intros one m3].
  apply fails_invalid_bind; [reflexivity | intros [] m4].
  apply fails_invalid_bind; [apply put_opt_no_invalid | intros [] m5].
  apply fails_invalid_bind; [apply put_opt_no_invalid | intros [] m6].
  destruct (heap_caps_malloc _); [| reflexivity].
  destruct (heap_caps_malloc _); [| reflexivity].
  apply fails_invalid_bind; [apply put_opt_no_invalid | intros [] m7].
  apply fails_invalid_bind; [apply defined_no_invalid | intros ring m8].
  apply put_opt_no_invalid.
Qed.

Lemma create_control_pattern_no_invalid (b : Z) (m : matrix_t) :
  fails_invalid (create_control_pattern b m) = false.
Proof.
  unfold create_control_pattern.
  apply fails_invalid_bind; [reflexivity | intros m1 m2].
  destruct (stream_of m1 b).
  - apply fails_invalid_bind; [apply defined_no_invalid | intros sd m3].
    apply put_opt_no_invalid.
  - apply fails_invalid_bind; [apply defined_no_invalid | intros sd m3].
    reflexivity.
Qed.

Lemma start_dma_no_invalid (i2s_parallel_send_dma : desc_ptr -> Z)
  (m : matrix_t) :
  fails_invalid (start_dma i2s_parallel_send_dma m) = false.
Proof.
  unfold start_dma.
  apply fails_invalid_bind; [reflexivity | intros m1 m2].
  destruct (negb _); reflexivity.
Qed.

(** Steps through a chain of [bind] on a given state: a check on known
    values is evaluated, the buffer construction and the collaborators are
    shown not to raise an [InvalidArgument] error. *)
Ltac no_invalid :=
  cbv beta zeta;
  lazymatch goal with
  | |- fails_invalid (bind (initialize_buffer _ _) _ _) = false =>
      apply fails_invalid_bind;
      [apply initialize_buffer_no_invalid | intros ? ?; no_invalid]
  | |- fails_invalid (bind (create_control_pattern _) _ _) = false =>
      apply fails_invalid_bind;
      [apply create_control_pattern_no_invalid | intros ? ?; no_invalid]
  | |- fails_invalid (bind (bind _ _) _ _) = false =>
      apply fails_invalid_bind; [no_invalid | intros ? ?; no_invalid]
  | |- fails_invalid (bind (if ?b then _ else _) _ _) = false =>
      let v := eval lazy in b in
      lazymatch v with
      | true => change b with true; cbv iota; no_invalid
      | false => change b with false; cbv iota; no_invalid
      | _ => apply fails_invalid_bind;
             [destruct b; no_invalid | intros ? ?; no_invalid]
      end
  | |- fails_invalid (bind _ _ _) = false =>
      erewrite bind_Done by (lazy; reflexivity); no_invalid
  | |- fails_invalid (start_dma _ _) = false =>
      apply start_dma_no_invalid
  | |- _ => reflexivity
  end.

(** *** The outcome of the argument checks *)

(** The loops over the pins end in a [TypeError] exactly when one of the
    values they read is not an integer. *)
Lemma read_colors_kind (items : list mp_obj) :
  forall (iteridx : Z) (bus : list Z),
  0 <= iteridx <= 6 -> Z.of_nat (length bus) = GPIOS_BUS_SIZE ->
  if forallb is_small_int (take (Z.to_nat (6 - iteridx)) items)
  then exists bus',
         read_colors items iteridx bus
         = inr (Some (Z.min 6 (iteridx + Z.of_nat (length items)), bus')) /\
         Z.of_nat (length bus') = GPIOS_BUS_SIZE
  else exists msg, read_colors items iteridx bus = inl (TypeError msg).
Proof.
  unfold GPIOS_BUS_SIZE.
  induction items as [| item rest IH]; intros iteridx bus Hi Hlen.
  - rewrite take_nil. cbn [forallb read_colors length].
    exists bus. rewrite Z.add_0_r, Z.min_r by lia. auto.
  - simpl read_colors.
    destruct (Z.geb_spec iteridx 6) as [Hge | Hlt].
    + replace (Z.to_nat (6 - iteridx)) with 0%nat by lia.
      cbn [take forallb]. exists bus. rewrite Z.min_l by lia.
      replace iteridx with 6 by lia. auto.
    + replace (Z.to_nat (6 - iteridx))
        with (Datatypes.S (Z.to_nat (6 - (iteridx + 1)))) by lia.
      cbn [take forallb].
      destruct item as [v |]; cbn [is_small_int andb]; [| eauto].
      unfold BITSTREAM_COLOR_START_IO.
      rewrite store_in_range by lia.
      specialize (IH (iteridx + 1) (<[Z.to_nat (0 + iteridx) := v]> bus)
                    ltac:(lia) ltac:(rewrite length_insert; assumption)).
      destruct (forallb is_small_int (take (Z.to_nat (6 - (iteridx + 1))) rest)).
      * destruct IH as (bus' & Hrun & Hlen'). exists bus'.
        rewrite Hrun. split; [| assumption].
        do 3 f_equal. simpl length. lia.
      * exact IH.
Qed.

Lemma read_rows_kind (items : list mp_obj) :
  forall (iteridx : Z) (bus : list Z),
  0 <= iteridx <= 6 -> Z.of_nat (length bus) = GPIOS_BUS_SIZE ->
  iteridx + Z.of_nat (length items) <= 6 ->
  if forallb is_small_int items
  then exists bus',
         read_rows items iteridx bus
         = inr (Some (iteridx + Z.of_nat (length items), bus')) /\
         Z.of_nat (length bus') = GPIOS_BUS_SIZE
  else exists msg, read_rows items iteridx bus = inl (TypeError msg).
Proof.
  unfold GPIOS_BUS_SIZE.
  induction items as [| item rest IH]; intros iteridx bus Hi Hlen Hfew.
  - cbn [forallb read_rows length]. exists bus. rewrite Z.add_0_r. auto.
  - simpl read_rows. unfold BITSTREAM_ROWS_MAX. simpl length in Hfew.
    destruct (Z.geb_spec iteridx 6) as [Hge | Hlt]; [lia |].
    cbn [forallb].
    destruct item as [v |]; cbn [is_small_int andb]; [| eauto].
    unfold BITSTREAM_CTRL_ROW_START_IO.
    rewrite store_in_range by lia.
    specialize (IH (iteridx + 1) (<[Z.to_nat (10 + iteridx) := v]> bus)
                  ltac:(lia) ltac:(rewrite length_insert; assumption)
                  ltac:(lia)).
    destruct (forallb is_small_int rest).
    + destruct IH as (bus' & Hrun & Hlen'). exists bus'.
      rewrite Hrun. split; [| assumption].
      do 3 f_equal. simpl length. lia.
    + exact IH.
Qed.

(** When none of those checks fails, [init] raises an [InvalidArgument]
    error exactly for a pin that is not an integer, among the six colour
    pins it reads and the row pins. *)
Lemma init_checks_pass (heap_caps_malloc : Z -> bool)
  (i2s_parallel_driver_install : i2s_parallel_config_t -> bool -> Z)
  (i2s_parallel_send_dma : desc_ptr -> Z) (args : init_args) (m0 : matrix_t) :
  init_invalid args = false ->
  fails_invalid
    (ledmatrix_init heap_caps_malloc i2s_parallel_driver_install
       i2s_parallel_send_dma args m0)
  = negb (forallb is_small_int (take 6 (io_colors args))
          && forallb is_small_int (io_rows args)).
Proof.
  destruct args as [colors rws oe lat clk W D khz inv dbl swap single v].
  unfold init_invalid. simpl arg_width. simpl arg_brightness.
  simpl arg_color_depth. simpl io_rows. simpl io_colors.
  simpl arg_single_channel.
  intros Hinv.
  apply orb_false_elim in Hinv as (Hinv & Hcnt).
  apply orb_false_elim in Hinv as (Hinv & Hnr).
  apply orb_false_elim in Hinv as (Hinv & HD0).
  apply orb_false_elim in Hinv as (Hodd & Hbr).
  apply Z.ltb_ge in Hnr.
  unfold ledmatrix_init.
  cbn [arg_width arg_color_depth arg_invert arg_double_buffer arg_column_swap
       arg_single_channel arg_brightness io_colors io_rows io_oe io_lat io_clk
       arg_clock_speed_khz].
  rewrite (bind_Done _ _ _ _ _ (deinit_run m0)).
  rewrite bind_modify, bind_get.
  cbn [width set_geometry].
  rewrite width_parity, Hodd. cbn [negb]. rewrite bind_ret.
  match goal with
  | |- fails_invalid (bind ?c _ ?m) = _ =>
      assert (Hblock : exists b, c m = Done tt (set_brightness_field b m))
  end.
  { destruct (Z.gtb_spec v 0) as [Hpos | Hneg].
    - destruct (Z.ltb_spec 0 v) as [_ |]; [| lia].
      cbn [andb] in Hbr. apply Z.leb_gt in Hbr.
      cbv beta iota delta [bind modify get ret mp_raise].
      cbn [brightness width set_brightness_field set_geometry].
      destruct (Z.geb_spec (u16 v) (u16 W - 1)); [lia |].
      eexists. reflexivity.
    - eexists. reflexivity. }
  destruct Hblock as (bv & Hblock).
  rewrite (bind_Done _ _ _ _ _ Hblock). clear Hblock.
  rewrite bind_get.
  cbn [color_depth set_brightness_field set_geometry].
  rewrite HD0, bind_ret.
  unfold BITSTREAM_CTRL_OE_IO, BITSTREAM_CTRL_LAT_IO.
  rewrite store_in_range
    by (rewrite repeat_length; unfold GPIOS_BUS_SIZE; lia).
  cbn [defined]. rewrite bind_ret.
  rewrite store_in_range
    by (rewrite length_insert, repeat_length; unfold GPIOS_BUS_SIZE; lia).
  cbn [defined]. rewrite bind_ret.
  match goal with
  | |- context [read_colors colors 0 ?bus] =>
      pose proof (read_colors_kind colors 0 bus ltac:(lia)
                    ltac:(rewrite !length_insert, repeat_length; reflexivity))
        as Hcols
  end.
  change (Z.to_nat (6 - 0)) with 6%nat in Hcols.
  destruct (forallb is_small_int (take 6 colors)).
  2: { destruct Hcols as (msg & E). rewrite E. reflexivity. }
  destruct Hcols as (bus' & E & Hlen). rewrite E. clear E.
  cbn [lift_read defined]. rewrite bind_ret. cbn [fst snd].
  cbn [single_chn set_brightness_field set_geometry].
  rewrite Z.add_0_l.
  assert (Hcheck : single && negb (Z.min 6 (Z.of_nat (length colors)) =? 3)
                   || negb single
                      && negb (Z.min 6 (Z.of_nat (length colors)) =? 6)
                   = false).
  { destruct single; cbn [andb negb orb].
    - rewrite orb_false_r. exact Hcnt.
    - apply Z.ltb_ge in Hcnt. rewrite Z.min_l by lia. reflexivity. }
  rewrite Hcheck, bind_ret. clear Hcheck.
  pose proof (read_rows_kind rws 0 bus' ltac:(lia) Hlen ltac:(lia)) as Hrows.
  destruct (forallb is_small_int rws).
  2: { destruct Hrows as (msg & E). rewrite E. reflexivity. }
  destruct Hrows as (bus2 & E & Hlen2). rewrite E. clear E.
  cbn [lift_read defined andb negb]. rewrite bind_ret. cbn [fst snd].
  rewrite bind_modify, bind_get, !bind_modify.
  apply fails_invalid_bind;
    [apply initialize_buffer_no_invalid | intros ? ?].
  apply fails_invalid_bind;
    [apply create_control_pattern_no_invalid | intros ? ?].
  apply fails_invalid_bind; [| intros ? ?].
  { destruct (double_buffer _); [| reflexivity].
    apply fails_invalid_bind;
      [apply initialize_buffer_no_invalid | intros ? ?].
    apply fails_invalid_bind;
      [apply create_control_pattern_no_invalid | intros ? ?].
    reflexivity. }
  apply fails_invalid_bind; [| intros ? ?].
  { match goal with |- context [negb ?c] => destruct (negb c) end;
      reflexivity. }
  apply fails_invalid_bind; [reflexivity | intros ? ?].
  apply start_dma_no_invalid.
Qed.

Lemma same_kind_length (l l' : list mp_obj) :
  map is_small_int l = map is_small_int l' -> length l = length l'.
Proof.
  intros E. rewrite <- (length_map is_small_int l), E. apply length_map.
Qed.

Lemma same_kind_take (l : list mp_obj) :
  forall (l' : list mp_obj) (n : nat),
  map is_small_int l = map is_small_int l' ->
  forallb is_small_int (take n l) = forallb is_small_int (take n l').
Proof.
  induction l as [| x l IH]; intros [| x' l'] n E; try discriminate.
  - reflexivity.
  - destruct n as [| n]; [reflexivity |].
    simpl in E. injection E as Ex El.
    cbn [take forallb]. rewrite Ex. f_equal. apply IH. exact El.
Qed.

Lemma same_but_pins_invalid (a a' : init_args) :
  same_but_pins a a' -> init_invalid a' = init_invalid a.
Proof.
  intros (Hc & Hr & HW & HD & _ & _ & _ & _ & Hs & Hv).
  unfold init_invalid.
  rewrite HW, HD, Hs, Hv, (same_kind_length _ _ Hc), (same_kind_length _ _ Hr).
  reflexivity.
Qed.

(** C9, as the code has it: [init] fails with an [InvalidArgument] error (a
    [ValueError], or a [TypeError] for a pin that is not an integer)
    whenever the width is odd; or the brightness argument is positive and,
    as a 16-bit value, greater than [W - 2]; or the colour depth is 0 as an
    8-bit value; or more than 6 row pins are given; or the number of colour
    pins is not 3 in single-channel mode, or less than 6 in dual-channel
    mode. Pin numbers are not compared with each other: two argument sets
    that differ in the pin numbers only either both fail with an
    [InvalidArgument] error or both do not. *)
Theorem init_rejects (heap_caps_malloc : Z -> bool)
  (i2s_parallel_driver_install : i2s_parallel_config_t -> bool -> Z)
  (i2s_parallel_send_dma : desc_ptr -> Z) (args : init_args) (m0 : matrix_t) :
  (init_invalid args = true ->
   fails_invalid
     (ledmatrix_init heap_caps_malloc i2s_parallel_driver_install
        i2s_parallel_send_dma args m0) = true) /\
  (forall args',
     same_but_pins args args' ->
     fails_invalid
       (ledmatrix_init heap_caps_malloc i2s_parallel_driver_install
          i2s_parallel_send_dma args' m0)
     = fails_invalid
         (ledmatrix_init heap_caps_malloc i2s_parallel_driver_install
            i2s_parallel_send_dma args m0)).
Proof.
  split; [apply init_checks_fail |].
  intros args' Hsame.
  pose proof (same_but_pins_invalid _ _ Hsame) as Hinv.
  destruct (init_invalid args) eqn:Hargs.
  - rewrite !init_checks_fail by assumption. reflexivity.
  - rewrite !init_checks_pass by assumption.
    destruct Hsame as (Hc & Hr & _).
    rewrite (same_kind_take _ _ 6 Hc).
    rewrite <- (firstn_all (io_rows args)), <- (firstn_all (io_rows args')).
    rewrite (same_kind_length _ _ Hr), (same_kind_take _ _ _ Hr).
    reflexivity.
Qed.

Lemma init_rejects_witness :
  fails_invalid
    (ledmatrix_init always_allocates install_ok send_ok
       (with_width 5 demo_args) matrix_zero) = true /\
  has_duplicate (pins_of dup_args) = true /\
  fails_invalid
    (ledmatrix_init always_allocates install_ok send_ok dup_args matrix_zero)
  = fails_invalid
      (ledmatrix_init always_allocates install_ok send_ok demo_args
         matrix_zero).
Proof.
  split; [| split].
  - apply (proj1 (init_rejects always_allocates install_ok send_ok
                    (with_width 5 demo_args) matrix_zero)).
    reflexivity.
  - reflexivity.
  - apply (proj2 (init_rejects always_allocates install_ok send_ok
                    demo_args matrix_zero) dup_args).
    repeat split.
Defined.

(** C9 as stated fails: [init] returns normally although every pin index
    is the same, and whatever the collaborators answer such arguments never
    yield an [InvalidArgument] error; it also accepts an empty [io_rows]
    (one row), a negative brightness (stored as [W - 1]) and seven colour
    pins in dual-channel mode. *)
Lemma init_counterexample :
  (has_duplicate (pins_of dup_args) = true /\
   (exists m', demo_init dup_args = Done tt m') /\
   forall heap install send,
     fails_invalid (ledmatrix_init heap install send dup_args matrix_zero)
     = false) /\
  (length (io_rows norow_args) = 0%nat /\
   exists m', demo_init norow_args = Done tt m' /\ rows m' = 1) /\
  (arg_brightness dim_args = -5 /\
   exists m', demo_init dim_args = Done tt m' /\ brightness m' = 3) /\
  (length (io_colors seven_args) = 7%nat /\
   arg_single_channel seven_args = false /\
   exists m', demo_init seven_args = Done tt m').
Proof.
  split; [| split; [| split]].
  - split; [reflexivity |]. split.
    + eexists. vm_compute. reflexivity.
    + intros heap install send. unfold ledmatrix_init. no_invalid.
  - split; [reflexivity |]. eexists. split; vm_compute; reflexivity.
  - split; [reflexivity |]. eexists. split; vm_compute; reflexivity.
  - split; [reflexivity |]. split; [reflexivity |].
    eexists. vm_compute. reflexivity.
Qed.

(** ** Brightness at [init] *)

(** C7 at [brightness=0]: [init(width=4, brightness=0)] stores [W - 1 = 3]
    (full brightness), not [0 + 1]; the same value handed to
    [set_brightness] afterwards stores 1. *)
Theorem init_brightness_zero :
  let m' := state_of (demo_init (with_brightness 0 demo_args)) in
  demo_init (with_brightness 0 demo_args) = Done tt m' /\
  width m' = 4 /\
  brightness m' = 3 /\
  brightness (state_of (ledmatrix_set_brightness (MpSmallInt 0) m')) = 1.
Proof.
  intros m'. subst m'.
  split; [| split; [| split]]; vm_compute; reflexivity.
Qed.

(** A brightness argument the check lets through is stored incremented. *)
Lemma init_brightness_positive :
  brightness (state_of (demo_init (with_brightness 1 demo_args))) = 2 /\
  brightness (state_of (demo_init (with_brightness 2 demo_args))) = 3 /\
  fails_invalid (demo_init (with_brightness 3 demo_args)) = true.
Proof. split; [| split]; vm_compute; reflexivity. Qed.

(** ** The monochrome decoder *)

Lemma shr_int_negative (x n : Z) : n < 0 -> shr_int x n = None.
Proof.
  intros Hn. unfold shr_int. destruct (Z.leb_spec 0 n); [lia | reflexivity].
Qed.

(** From the third column of every byte on, the shift count is negative. *)
Lemma mono_hlsb_undefined (m : matrix_t) (x y bit : Z) (data : list Z) :
  2 <= Z.land x 7 -> get_color_bits_mono_hlsb m x y bit data = None.
Proof.
  intros Hx. unfold get_color_bits_mono_hlsb.
  destruct (load data _); simpl; [| reflexivity].
  rewrite shr_int_negative by lia. reflexivity.
Qed.

Lemma land7_cases (x : Z) :
  Z.land x 7 <= 1 -> 1 - Z.land x 7 = Z.land (Z.lxor x 1) 7.
Proof.
  intros Hx.
  assert (H0 : 0 <= Z.land x 7) by (apply Z.land_nonneg; lia).
  assert (E : Z.land (Z.lxor x 1) 7 = Z.lxor (Z.land x 7) 1).
  { apply Z.bits_inj'. intros n Hn.
    rewrite Z.land_spec, !Z.lxor_spec, Z.land_spec.
    change 1 with (2 ^ 0). rewrite Z.pow2_bits_eqb by lia.
    destruct (Z.eqb_spec 0 n) as [<- | Hne].
    - change (Z.testbit 7 0) with true.
      destruct (Z.testbit x 0); reflexivity.
    - destruct (Z.testbit x n), (Z.testbit 7 n); reflexivity. }
  rewrite E.
  assert (C : Z.land x 7 = 0 \/ Z.land x 7 = 1) by lia.
  destruct C as [-> | ->]; reflexivity.
Qed.

(** On the first two columns of every byte the decoder uses the mask
    [0x80 >> ((x XOR 1) & 7)]: the pair is swapped. *)
Lemma mono_hlsb_first_pair (m : matrix_t) (x y bit : Z) (data : list Z) :
  Z.land x 7 <= 1 ->
  get_color_bits_mono_hlsb m x y bit data
  = (byte <-? load data (Z.shiftr x 3 + Z.shiftr (y * width m) 3);
     if negb (Z.land byte (Z.shiftr 128 (Z.land (Z.lxor x 1) 7)) =? 0)
     then get_mono_color_bits m bit
     else Some 0).
Proof.
  intros Hx. unfold get_color_bits_mono_hlsb.
  rewrite land7_cases by assumption.
  destruct (load data _); simpl; [| reflexivity].
  assert (H0 : 0 <= Z.land x 7) by (apply Z.land_nonneg; lia).
  assert (Hr : 0 <= Z.land (Z.lxor x 1) 7 < 32).
  { rewrite <- land7_cases by assumption. lia. }
  unfold shr_int.
  destruct (Z.leb_spec 0 (Z.land (Z.lxor x 1) 7)); [| lia].
  destruct (Z.ltb_spec (Z.land (Z.lxor x 1) 7) 32); [| lia].
  reflexivity.
Qed.

(** C6 at column 2: the framebuffer byte [0x10] has the bit
    [0x80 >> ((2 XOR 1) & 7)] set, so the tint bits (7 for white) are
    expected; the decoder shifts by [1 - 2] and its result is undefined.
    The byte [0b10000000] lights column 1 and not column 0. *)
Theorem mono_hlsb_third_column :
  Z.land 16 (Z.shiftr 128 (Z.land (Z.lxor 2 1) 7)) = 16 /\
  get_mono_color_bits mono_geometry 7 = Some 7 /\
  get_color_bits_mono_hlsb mono_geometry 2 0 7 [16; 0; 0; 0] = None /\
  get_color_bits_mono_hlsb mono_geometry 1 0 7 [128; 0; 0; 0] = Some 7 /\
  get_color_bits_mono_hlsb mono_geometry 0 0 7 [128; 0; 0; 0] = Some 0.
Proof. split; [| split; [| split; [| split]]]; vm_compute; reflexivity. Qed.

(** ** The pixel decoders, bit by bit *)

Lemma land_one_shiftr (x k : Z) :
  0 <= k -> Z.land (Z.shiftr x k) 1 = Z.b2z (Z.testbit x k).
Proof.
  intros Hk. change 1 with (Z.ones 1). rewrite Z.land_ones by lia.
  change (2 ^ 1) with 2. rewrite <- Z.bit0_mod.
  rewrite Z.shiftr_spec by lia. reflexivity.
Qed.

Lemma pack_bits (r g b : bool) :
  u8 (Z.lor (Z.lor (Z.b2z r) (Z.shiftl (Z.b2z g) 1)) (Z.shiftl (Z.b2z b) 2))
  = Z.b2z r + 2 * Z.b2z g + 4 * Z.b2z b.
Proof. destruct r, g, b; reflexivity. Qed.

Lemma shr_int_small (x n : Z) :
  0 <= n < 32 -> shr_int x n = Some (Z.shiftr x n).
Proof.
  intros Hn. unfold shr_int.
  destruct (Z.leb_spec 0 n); [| lia]. destruct (Z.ltb_spec n 32); [| lia].
  reflexivity.
Qed.

Lemma testbit_mask (mask lo k : Z) :
  0 <= lo -> 0 <= k < 8 -> mask = 256 - 2 ^ lo -> lo <= 8 ->
  Z.testbit mask k = (lo <=? k).
Proof.
  intros Hlo Hk -> Hle.
  assert (C : lo = 0 \/ lo = 1 \/ lo = 2 \/ lo = 3 \/ lo = 4 \/ lo = 5 \/
              lo = 6 \/ lo = 7 \/ lo = 8) by lia.
  assert (K : k = 0 \/ k = 1 \/ k = 2 \/ k = 3 \/ k = 4 \/ k = 5 \/
              k = 6 \/ k = 7) by lia.
  repeat (destruct C as [-> | C]); try subst lo;
    repeat (destruct K as [-> | K]); try subst k; reflexivity.
Qed.

Lemma get_rgb565_bits_lines (color bit : Z) :
  0 <= bit <= 7 ->
  get_rgb565_bits color bit
  = Some (channel_bit color 15 5 bit
          + 2 * channel_bit color 10 6 bit
          + 4 * channel_bit color 4 5 bit).
Proof.
  intros Hbit. unfold get_rgb565_bits. cbv zeta.
  rewrite !shr_int_small by lia. simpl obind.
  rewrite !land_one_shiftr by lia.
  rewrite pack_bits. f_equal.
  rewrite !u8_testbit by lia.
  rewrite !Z.land_spec, !Z.shiftr_spec by lia.
  rewrite (testbit_mask 248 3), (testbit_mask 252 2) by (try reflexivity; lia).
  rewrite Z.shiftl_spec by lia.
  replace (7 - bit + 8) with (15 - bit) by lia.
  replace (7 - bit + 3) with (10 - bit) by lia.
  replace (7 - bit - 3) with (4 - bit) by lia.
  unfold channel_bit.
  destruct (Z.ltb_spec bit 5), (Z.ltb_spec bit 6),
    (Z.leb_spec 3 (7 - bit)), (Z.leb_spec 2 (7 - bit)); try lia;
    rewrite ?andb_true_r, ?andb_false_r; try reflexivity.
  all: rewrite (Z.testbit_neg_r color (4 - bit)) by lia; reflexivity.
Qed.

(** X1. The bit planes of an RGB565 pixel: plane [bit] carries bit [bit] of each
    channel, counted from the most significant one; the planes past the
    five (six for green) bits of a channel carry 0. *)
Theorem get_rgb565_bits_planes (color bit : Z) :
  0 <= bit <= 7 ->
  get_rgb565_bits color bit
  = Some (channel_bit color 15 5 bit
          + 2 * channel_bit color 10 6 bit
          + 4 * channel_bit color 4 5 bit).
Proof. exact (get_rgb565_bits_lines color bit). Qed.

Lemma get_rgb565_bits_planes_witness :
  get_rgb565_bits 63488 0 = Some (channel_bit 63488 15 5 0
          + 2 * channel_bit 63488 10 6 0
          + 4 * channel_bit 63488 4 5 0).
Proof. apply (get_rgb565_bits_planes 63488 0). lia. Defined.

(** X2. With the white tint a GS8 pixel is grey: plane [bit] carries bit [bit]
    of the pixel value on all three channels. *)
Theorem get_color_bits_gs8_white (m : matrix_t) (x y bit v : Z)
  (data : list Z) :
  mono_color m = [255; 255; 255] ->
  load data (y * width m + x) = Some v ->
  0 <= bit <= 7 ->
  get_color_bits_gs8 m x y bit data
  = Some (if Z.testbit v (7 - bit) then 7 else 0).
Proof.
  intros Hc Hv Hbit. unfold get_color_bits_gs8. rewrite Hv, Hc. simpl obind.
  rewrite Z.div_mul by lia.
  rewrite !shr_int_small by lia. simpl obind.
  rewrite !land_one_shiftr by lia. rewrite pack_bits.
  rewrite u8_testbit by lia.
  destruct (Z.testbit v (7 - bit)); reflexivity.
Qed.

Lemma get_color_bits_gs8_white_witness :
  get_color_bits_gs8 mono_geometry 1 0 0 [0; 128] = Some (if Z.testbit 128 (7 - 0) then 7 else 0).
Proof.
  apply (get_color_bits_gs8_white mono_geometry 1 0 0 128 [0; 128]);
    [reflexivity | reflexivity | lia].
Defined.

(** X3. A GS8 pixel of full intensity shows the tint itself: the decoder
    returns what the monochrome tint gives for that plane. *)
Theorem get_color_bits_gs8_full (m : matrix_t) (x y bit : Z) (data : list Z) :
  load data (y * width m + x) = Some 255 ->
  0 <= bit <= 7 ->
  get_color_bits_gs8 m x y bit data = get_mono_color_bits m bit.
Proof.
  intros Hv Hbit. unfold get_color_bits_gs8, get_mono_color_bits.
  rewrite Hv. simpl obind.
  destruct (load (mono_color m) 0) as [c0 |]; [| reflexivity].
  destruct (load (mono_color m) 1) as [c1 |]; [| reflexivity].
  destruct (load (mono_color m) 2) as [c2 |]; [| reflexivity].
  simpl obind.
  rewrite !(Z.mul_comm 255), !Z.div_mul by lia.
  rewrite !shr_int_small by lia. simpl obind.
  rewrite !land_one_shiftr by lia.
  rewrite !u8_testbit by lia. reflexivity.
Qed.

Lemma get_color_bits_gs8_full_witness :
  get_color_bits_gs8 mono_geometry 1 0 3 [0; 255]
  = get_mono_color_bits mono_geometry 3.
Proof.
  apply (get_color_bits_gs8_full mono_geometry 1 0 3 [0; 255]);
    [reflexivity | lia].
Defined.

(** ** [show]: what every call does *)

Lemma lxor_one (p : Z) : Z.lxor p 1 = p + 1 - 2 * (p mod 2).
Proof.
  assert (E : forall q, Z.lxor (2 * q) 1 = 2 * q + 1).
  { intros q. symmetry. apply Z.add_nocarry_lxor.
    change 1 with (Z.ones 1). rewrite Z.land_ones by lia.
    change (2 ^ 1) with 2. rewrite Z.mul_comm. apply Z.mod_mul. lia. }
  pose proof (Z.div_mod p 2 ltac:(lia)) as Hp.
  pose proof (Z.mod_pos_bound p 2 ltac:(lia)) as Hr.
  assert (C : p mod 2 = 0 \/ p mod 2 = 1) by lia.
  destruct C as [C | C]; rewrite C in *.
  - rewrite Hp at 1. rewrite Z.add_0_r, E. lia.
  - assert (Hp' : p = Z.lxor (2 * (p / 2)) 1) by (rewrite E; lia).
    rewrite Hp' at 1.
    rewrite Z.lxor_assoc, Z.lxor_nilpotent, Z.lxor_0_r. lia.
Qed.

Lemma lxor_one_range (p W : Z) :
  0 <= p < W -> Z.even W = true -> 0 <= Z.lxor p 1 < W.
Proof.
  intros Hp Hev. rewrite lxor_one.
  pose proof (Z.mod_pos_bound p 2 ltac:(lia)) as Hr.
  apply Z.even_spec in Hev as [k Hk].
  pose proof (Z.div_mod p 2 ltac:(lia)) as Hd.
  lia.
Qed.

Lemma source_column_range (m : matrix_t) (p : Z) :
  0 <= p < width m -> Z.even (width m) = true ->
  0 <= source_column m p < width m.
Proof.
  intros Hp Hev. unfold source_column.
  destruct (column_swap m); [now apply lxor_one_range | assumption].
Qed.

Lemma get_rgb565_bits_range (color bit : Z) :
  0 <= bit <= 7 ->
  exists c, get_rgb565_bits color bit = Some c /\ 0 <= c < 8.
Proof.
  intros Hbit. rewrite get_rgb565_bits_lines by assumption.
  eexists. split; [reflexivity |]. unfold channel_bit.
  destruct (bit <? 5), (bit <? 6),
    (Z.testbit color (15 - bit)), (Z.testbit color (10 - bit)),
    (Z.testbit color (4 - bit)); simpl; lia.
Qed.

Lemma get_color_bits_rgb_pixel (m : matrix_t) (x y bit : Z) (data : list Z) :
  0 <= x < width m -> 0 <= y ->
  2 * (y * width m + x) + 1 < Z.of_nat (length data) ->
  0 <= bit <= 7 ->
  get_color_bits_rgb m x y bit data
  = Some (rgb_lines (pixel565 (width m) data x y) bit).
Proof.
  intros Hx Hy Hlen Hbit. unfold get_color_bits_rgb, pixel565.
  assert (0 <= y * width m) by nia.
  destruct (load_in_range data (2 * (y * width m + x))) as (lo & Hlo); [lia |].
  destruct (load_in_range data (2 * (y * width m + x) + 1)) as (hi & Hhi);
    [lia |].
  rewrite Hlo, Hhi. simpl obind.
  now apply get_rgb565_bits_lines.
Qed.

Lemma rgb_lines_range (color bit : Z) : 0 <= rgb_lines color bit < 8.
Proof.
  unfold rgb_lines, channel_bit.
  destruct (bit <? 5), (bit <? 6),
    (Z.testbit color (15 - bit)), (Z.testbit color (10 - bit)),
    (Z.testbit color (4 - bit)); simpl; lia.
Qed.

Lemma get_color_bits_gs8_range (m : matrix_t) (x y bit : Z) (data : list Z) :
  (exists c0 c1 c2, mono_color m = [c0; c1; c2]) ->
  0 <= x < width m -> 0 <= y ->
  y * width m + x < Z.of_nat (length data) ->
  0 <= bit <= 7 ->
  exists c, get_color_bits_gs8 m x y bit data = Some c /\ 0 <= c < 8.
Proof.
  intros (c0 & c1 & c2 & Hc) Hx Hy Hlen Hbit. unfold get_color_bits_gs8.
  assert (0 <= y * width m) by nia.
  destruct (load_in_range data (y * width m + x)) as (v & Hv); [lia |].
  rewrite Hv, Hc. simpl obind.
  rewrite !shr_int_small by lia. simpl obind.
  rewrite !land_one_shiftr by lia. rewrite pack_bits.
  eexists. split; [reflexivity |].
  destruct (Z.testbit _ _), (Z.testbit _ _), (Z.testbit _ _); simpl; lia.
Qed.

Lemma lor_shiftl_3 (c c2 : Z) :
  0 <= c < 8 -> 0 <= c2 < 8 -> u8 (Z.lor c (Z.shiftl c2 3)) = c + 8 * c2.
Proof.
  intros Hc Hc2.
  assert (C : c = 0 \/ c = 1 \/ c = 2 \/ c = 3 \/ c = 4 \/ c = 5 \/ c = 6 \/
              c = 7) by lia.
  assert (K : c2 = 0 \/ c2 = 1 \/ c2 = 2 \/ c2 = 3 \/ c2 = 4 \/ c2 = 5 \/
              c2 = 6 \/ c2 = 7) by lia.
  repeat (destruct C as [-> | C]); try subst c;
    repeat (destruct K as [-> | K]); try subst c2; reflexivity.
Qed.

(** The colour byte of a cell, for a decoder that is defined on the two
    pixels the cell shows. *)
Lemma color_byte_lines (m : matrix_t) (dec : get_color_func) (fb : list Z)
  (l r p top bottom : Z) :
  1 <= color_depth m <= 8 -> 0 <= l < color_depth m ->
  0 <= r < rows m -> rows m < 256 ->
  dec m (source_column m p) r (color_depth m - l - 1) fb = Some top ->
  (single_chn m = false ->
   dec m (source_column m p) (r + rows m) (color_depth m - l - 1) fb
   = Some bottom) ->
  0 <= top < 8 -> 0 <= bottom < 8 ->
  color_byte m dec fb l r p
  = Some (let c := if single_chn m then top else top + 8 * bottom in
          if invert m then u8 (Z.lnot c) else c).
Proof.
  intros HD Hl Hr HR Htop Hbot Ht Hb. unfold color_byte. cbv zeta.
  fold (source_column m p).
  assert (Eb : u8 (color_depth m - l - 1) = color_depth m - l - 1)
    by (unfold u8; apply Z.mod_small; lia).
  assert (Er : u16 (r + rows m) = r + rows m)
    by (unfold u16; apply Z.mod_small; lia).
  rewrite Eb, Er, Htop. simpl obind.
  destruct (single_chn m); simpl.
  - reflexivity.
  - rewrite (Hbot eq_refl). simpl. rewrite lor_shiftl_3 by assumption.
    reflexivity.
Qed.

Lemma frame_size_u32 (m : matrix_t) (mode : Z) :
  0 < width m < 65536 -> 0 <= height m < 512 ->
  u32 (frame_size m mode) = frame_size m mode.
Proof.
  intros HW HH. apply u32_small. unfold frame_size.
  assert (0 <= width m * height m <= 65535 * 511) by nia.
  assert (0 <= Z.quot (width m - 1) 8 < 8192).
  { rewrite Z.quot_div_nonneg by lia. split.
    - apply Z.div_pos; lia.
    - apply Z.div_lt_upper_bound; lia. }
  destruct (mode =? COLOR_RGB565); [lia |].
  destruct (mode =? COLOR_GS8); [lia |]. nia.
Qed.

(** The [switch] of [show], by the decoder it selects. *)
Lemma show_colors_sized (fb : list Z) (mode strm : Z) (m mt : matrix_t)
  (dec : get_color_func) :
  decoder_of mode = Some dec ->
  0 < width m < 65536 -> 0 <= height m < 512 ->
  show_colors fb mode strm (width m) (height m) mt
  = if Z.of_nat (length fb) =? frame_size m mode
    then update_framebuffer strm fb dec mt
    else Raised (ValueError "Unexpected buffer size") mt.
Proof.
  intros Hdec HW HH.
  pose proof (frame_size_u32 m mode HW HH) as Hu.
  unfold show_colors, decoder_of, frame_size in *.
  destruct (mode =? COLOR_RGB565);
    [| destruct (mode =? COLOR_GS8);
       [| destruct (mode =? COLOR_MONO); [| discriminate]]];
    inversion Hdec; subst dec; rewrite Hu;
    destruct (Z.of_nat (length fb) =? _); reflexivity.
Qed.

Lemma wf_display_height (m : matrix_t) :
  wf_display m -> 0 < height m < 512.
Proof.
  intros ((HW & HR & _) & _ & _ & HH & _). rewrite HH.
  destruct (single_chn m); lia.
Qed.

Lemma wf_display_tint (color : Z) (m : matrix_t) :
  wf_display m -> wf_display (show_tint color m).
Proof.
  intros H. pose proof H as (Hwf & Hinit & Hev & HH & Hc). unfold show_tint.
  destruct (color >=? 0); [| exact H].
  split; [exact Hwf |]. split; [exact Hinit |]. split; [exact Hev |].
  split; [exact HH |]. simpl. eauto.
Qed.

(** The colour byte of a cell of an RGB565 frame. *)
Lemma color_byte_rgb (m : matrix_t) (fb : list Z) (l r p : Z) :
  wf_display m ->
  Z.of_nat (length fb) = frame_size m COLOR_RGB565 ->
  0 <= l < color_depth m -> 0 <= r < rows m -> 0 <= p < width m ->
  color_byte m get_color_bits_rgb fb l r p
  = Some (let bit := color_depth m - l - 1 in
          let x := source_column m p in
          let top := rgb_lines (pixel565 (width m) fb x r) bit in
          let bottom := rgb_lines (pixel565 (width m) fb x (r + rows m)) bit in
          let c := if single_chn m then top else top + 8 * bottom in
          if invert m then u8 (Z.lnot c) else c).
Proof.
  intros ((HW & HR & HD & _) & _ & Hev & HH & _) Hlen Hl Hr Hp.
  change (frame_size m COLOR_RGB565) with (width m * height m * 2) in Hlen.
  pose proof (source_column_range m p Hp Hev) as Hx.
  cbv zeta.
  apply color_byte_lines; try lia; try apply rgb_lines_range.
  - apply get_color_bits_rgb_pixel; try lia.
    rewrite Hlen, HH. destruct (single_chn m); nia.
  - intros Hs. apply get_color_bits_rgb_pixel; try lia.
    rewrite Hlen, HH, Hs. nia.
Qed.

Lemma color_byte_gs8 (m : matrix_t) (fb : list Z) (l r p : Z) :
  wf_display m ->
  Z.of_nat (length fb) = frame_size m COLOR_GS8 ->
  0 <= l < color_depth m -> 0 <= r < rows m -> 0 <= p < width m ->
  color_byte m get_color_bits_gs8 fb l r p <> None.
Proof.
  intros ((HW & HR & HD & _) & _ & Hev & HH & Hc) Hlen Hl Hr Hp.
  change (frame_size m COLOR_GS8) with (width m * height m) in Hlen.
  pose proof (source_column_range m p Hp Hev) as Hx.
  destruct (get_color_bits_gs8_range m (source_column m p) r
              (color_depth m - l - 1) fb Hc Hx)
    as (top & Htop & Ht); [lia | | lia |].
  { rewrite Hlen, HH. destruct (single_chn m); nia. }
  destruct (single_chn m) eqn:Hs.
  - rewrite (color_byte_lines m _ fb l r p top 0); try lia; try assumption.
    + discriminate.
    + intros E. congruence.
  - destruct (get_color_bits_gs8_range m (source_column m p) (r + rows m)
                (color_depth m - l - 1) fb Hc Hx)
      as (bottom & Hbot & Hb); [lia | | lia |].
    { rewrite Hlen, HH. nia. }
    rewrite (color_byte_lines m _ fb l r p top bottom); try lia;
      try assumption; [discriminate | intros _; assumption].
Qed.

(** The colour pass is defined on a frame of the size [show] checks. *)
Lemma update_framebuffer_data_defined (m : matrix_t) (fb sd : list Z)
  (mode : Z) (dec : get_color_func) :
  wf_display m ->
  mode = COLOR_RGB565 \/ mode = COLOR_GS8 ->
  decoder_of mode = Some dec ->
  Z.of_nat (length fb) = frame_size m mode ->
  Z.of_nat (length sd) = 2 * width m * rows m * color_depth m ->
  exists sd', update_framebuffer_data m fb dec sd = Some sd'.
Proof.
  intros Hwf Hmode Hdec Hlen Hsd.
  pose proof Hwf as ((HW & HR & HD & _) & _).
  rewrite update_framebuffer_data_fill.
  apply fill_cells_total; try lia.
  - now apply wf_size.
  - unfold BITSTREAM_COLOR_BYTE. lia.
  - intros l r p Hl Hr Hp.
    destruct Hmode as [-> | ->]; inversion Hdec; subst dec.
    + rewrite color_byte_rgb by assumption. discriminate.
    + now apply color_byte_gs8.
Qed.

Lemma wf_matrix_stream_0 (m : matrix_t) (sd0 sd0' : list Z)
  (dd0 : option (list lldesc_t)) (sb1 : stream_buffer_t) :
  wf_matrix m -> buffer m = [mk_stream_buffer (Some sd0) dd0; sb1] ->
  length sd0' = length sd0 ->
  wf_matrix (set_buffer [mk_stream_buffer (Some sd0') dd0; sb1] m).
Proof.
  intros (HW & HR & HD & HN & Hbb & sb0 & sb1' & Hbuf & Ha0 & Ha1) Hb Hlen.
  rewrite Hb in Hbuf. inversion Hbuf; subst sb0 sb1'.
  destruct Ha0 as (x & d & E & Hx & Hd). inversion E; subst x dd0.
  unfold wf_matrix. simpl.
  repeat (split; [assumption |]).
  eexists. eexists. split; [reflexivity |]. split; [| exact Ha1].
  exists sd0', d. split; [reflexivity |].
  split; [rewrite Hlen; exact Hx | exact Hd].
Qed.

Lemma wf_matrix_stream_1 (m : matrix_t) (sd1 sd1' : list Z)
  (dd1 : option (list lldesc_t)) (sb0 : stream_buffer_t) :
  wf_matrix m -> buffer m = [sb0; mk_stream_buffer (Some sd1) dd1] ->
  length sd1' = length sd1 ->
  wf_matrix (set_buffer [sb0; mk_stream_buffer (Some sd1') dd1] m).
Proof.
  intros (HW & HR & HD & HN & Hbb & sb0' & sb1 & Hbuf & Ha0 & Ha1) Hb Hlen.
  rewrite Hb in Hbuf. inversion Hbuf; subst sb0' sb1.
  unfold wf_matrix. simpl.
  repeat (split; [assumption |]).
  eexists. eexists. split; [reflexivity |]. split; [exact Ha0 |].
  intros Hdbl. destruct (Ha1 Hdbl) as (x & d & E & Hx & Hd).
  inversion E; subst x dd1.
  exists sd1', d. split; [reflexivity |].
  split; [rewrite Hlen; exact Hx | exact Hd].
Qed.

Lemma wf_matrix_tint (color : Z) (m : matrix_t) :
  wf_matrix m -> wf_matrix (show_tint color m).
Proof.
  intros H. unfold show_tint. destruct (color >=? 0); exact H.
Qed.

(** The stream data [show] writes to. *)
Lemma wf_backbuffer_stream (m : matrix_t) :
  wf_matrix m ->
  exists sd, stream_of m (backbuffer m) = Some sd /\
             Z.of_nat (length sd) = 2 * width m * rows m * color_depth m.
Proof.
  intros (_ & _ & _ & _ & Hbb & sb0 & sb1 & Hbuf & Ha0 & Ha1).
  unfold stream_of. rewrite Hbuf.
  destruct Hbb as [-> | (-> & Hdbl)].
  - destruct Ha0 as (sd & d & -> & Hsd & _). exists sd. split; [reflexivity | assumption].
  - destruct (Ha1 Hdbl) as (sd & d & -> & Hsd & _).
    exists sd. split; [reflexivity | assumption].
Qed.

(** The colour pass of [show] on the backbuffer. *)
Lemma show_colors_run (fb : list Z) (mode : Z) (m : matrix_t) :
  wf_matrix m ->
  match decoder_of mode with
  | None => show_colors fb mode (backbuffer m) (width m) (height m) m
            = Done tt m
  | Some dec =>
      forall sd,
      stream_of m (backbuffer m) = Some sd ->
      0 <= height m < 512 ->
      show_colors fb mode (backbuffer m) (width m) (height m) m
      = if Z.of_nat (length fb) =? frame_size m mode
        then match update_framebuffer_data m fb dec sd with
             | Some sd' =>
                 Done tt (set_buffer
                   (<[Z.to_nat (backbuffer m) :=
                        mk_stream_buffer (Some sd')
                          (match descs_of m (backbuffer m) with
                           | Some d => Some d | None => None end)]>
                      (buffer m)) m)
             | None => Undefined
             end
        else Raised (ValueError "Unexpected buffer size") m
  end.
Proof.
  intros Hwf.
  destruct (decoder_of mode) as [dec |] eqn:Hdec;
    [| now apply show_colors_invalid].
  intros sd Hsd HH.
  pose proof Hwf as (HW & _ & _ & _ & Hbb & sb0 & sb1 & Hbuf & Ha0 & Ha1).
  rewrite (show_colors_sized fb mode (backbuffer m) m m dec Hdec HW HH).
  destruct (Z.of_nat (length fb) =? frame_size m mode); [| reflexivity].
  unfold stream_of, descs_of in *. rewrite Hbuf in *.
  destruct Hbb as [E | (E & Hdbl)]; rewrite E in *; simpl in Hsd |- *.
  - destruct sb0 as [s0 dd0]. simpl in Hsd. subst s0.
    rewrite (update_framebuffer_0 m fb dec sd dd0 sb1 Hbuf).
    destruct (update_framebuffer_data m fb dec sd); [| reflexivity].
    destruct dd0; reflexivity.
  - destruct sb1 as [s1 dd1]. simpl in Hsd. subst s1.
    rewrite (update_framebuffer_1 m fb dec sd dd1 sb0 Hbuf).
    destruct (update_framebuffer_data m fb dec sd); [| reflexivity].
    destruct dd1; reflexivity.
Qed.

Lemma show_split_tint (fb : list Z) (color mode : Z) (m : matrix_t) :
  initialized m = true ->
  ledmatrix_show fb color mode m
  = match show_colors fb mode (backbuffer (show_tint color m))
            (width (show_tint color m)) (height (show_tint color m))
            (show_tint color m) with
    | Done _ m1 =>
        (if double_buffer m then
           set_tail 0 (DescPtr (backbuffer m) 0) ;;
           set_tail 1 (DescPtr (backbuffer m) 0) ;;
           modify (set_backbuffer (u8 (Z.lxor (backbuffer m) 1)))
         else ret tt) m1
    | Raised e m1 => Raised e m1
    | Undefined => Undefined
    end.
Proof.
  intros Hinit. rewrite show_split by assumption.
  destruct (show_tint_fields color m) as ((-> & -> & _) & _ & ->).
  reflexivity.
Qed.

Lemma show_rejects_size (m : matrix_t) (fb : list Z) (color mode : Z) :
  wf_display m ->
  mode = COLOR_RGB565 \/ mode = COLOR_GS8 \/ mode = COLOR_MONO ->
  Z.of_nat (length fb) <> frame_size m mode ->
  ledmatrix_show fb color mode m
  = Raised (ValueError "Unexpected buffer size") (show_tint color m).
Proof.
  intros Hwf Hmode Hlen.
  pose proof (wf_display_tint color m Hwf) as Hwt.
  pose proof (wf_display_height _ Hwt) as HH.
  destruct Hwf as (Hwf & Hinit & _). destruct Hwt as (Hwt & _).
  rewrite show_split_tint by assumption.
  pose proof (show_colors_run fb mode (show_tint color m) Hwt) as Hrun.
  destruct (wf_backbuffer_stream _ Hwt) as (sd & Hsd & _).
  assert (Hdec : exists dec, decoder_of mode = Some dec).
  { destruct Hmode as [-> | [-> | ->]]; eexists; reflexivity. }
  destruct Hdec as (dec & Hdec). rewrite Hdec in Hrun.
  rewrite (Hrun sd Hsd) by lia.
  assert (Hfs : frame_size (show_tint color m) mode = frame_size m mode).
  { unfold frame_size.
    destruct (show_tint_fields color m) as ((-> & -> & _) & _). reflexivity. }
  rewrite Hfs.
  destruct (Z.eqb_spec (Z.of_nat (length fb)) (frame_size m mode));
    [contradiction | reflexivity].
Qed.

Lemma for_loop_none {S} (body : Z -> S -> option S) (i : Z) :
  (forall t, body i t = None) ->
  forall (n : nat) (lo : Z) (s : S),
  lo <= i < lo + Z.of_nat n -> for_loop n lo body s = None.
Proof.
  intros Hi. induction n as [| n IH]; intros lo s Hr; [lia |].
  simpl. destruct (Z.eq_dec lo i) as [-> | Hne].
  - rewrite Hi. reflexivity.
  - destruct (body lo s) as [t |]; [| reflexivity]. simpl.
    apply IH. lia.
Qed.

Lemma for_range_none {S} (body : Z -> S -> option S) (lo hi i : Z) (s : S) :
  lo <= i < hi -> (forall t, body i t = None) ->
  for_range lo hi body s = None.
Proof.
  intros Hr Hi. unfold for_range. apply (for_loop_none body i Hi). lia.
Qed.

Lemma update_framebuffer_data_mono (m : matrix_t) (fb sd : list Z) :
  2 < width m -> 0 < rows m -> 0 < color_depth m ->
  update_framebuffer_data m fb get_color_bits_mono_hlsb sd = None.
Proof.
  intros HW HR HD. unfold update_framebuffer_data. cbv zeta.
  apply (for_range_none _ 0 (color_depth m) 0); [lia |]. intros t.
  apply (for_range_none _ 0 (rows m) 0); [lia |]. intros t'.
  apply (for_range_none _ 0 (width m) 2); [lia |]. intros t''.
  unfold color_byte. cbv zeta.
  rewrite mono_hlsb_undefined; [reflexivity |].
  destruct (column_swap m); vm_compute; discriminate.
Qed.

Lemma demo_display_wf : wf_display demo_matrix.
Proof.
  split; [exact demo_matrix_wf |].
  vm_compute. repeat split. eauto.
Qed.

(** X4. [show] in the monochrome mode on a display of more than two columns:
    the frame passes the size check and the colour pass then shifts by a
    negative count at the third column, which is undefined behaviour. *)
Theorem show_mono_undefined (m : matrix_t) (fb : list Z) (color : Z) :
  wf_display m -> 2 < width m ->
  Z.of_nat (length fb) = frame_size m COLOR_MONO ->
  ledmatrix_show fb color COLOR_MONO m = Undefined.
Proof.
  intros Hwf HW Hlen.
  pose proof (wf_display_tint color m Hwf) as Hwt.
  pose proof (wf_display_height _ Hwt) as HH.
  destruct Hwf as (Hwf & Hinit & _). destruct Hwt as (Hwt & _).
  rewrite show_split_tint by assumption.
  pose proof (show_colors_run fb COLOR_MONO (show_tint color m) Hwt) as Hrun.
  destruct (wf_backbuffer_stream _ Hwt) as (sd & Hsd & _).
  simpl decoder_of in Hrun.
  rewrite (Hrun sd Hsd) by lia.
  assert (Hfs : frame_size (show_tint color m) COLOR_MONO
                = frame_size m COLOR_MONO).
  { unfold frame_size.
    destruct (show_tint_fields color m) as ((-> & -> & _) & _). reflexivity. }
  rewrite Hfs, Hlen, Z.eqb_refl.
  destruct Hwt as (HWt & HRt & HDt & _).
  destruct (show_tint_fields color m) as ((EW & _) & _).
  rewrite update_framebuffer_data_mono by lia. reflexivity.
Qed.

Lemma show_mono_undefined_witness :
  ledmatrix_show (repeat 0 4) (-1) COLOR_MONO demo_matrix = Undefined.
Proof.
  apply (show_mono_undefined demo_matrix (repeat 0 4) (-1)).
  - exact demo_display_wf.
  - vm_compute. reflexivity.
  - vm_compute. reflexivity.
Defined.

(** X5. A framebuffer of the wrong size: [show] raises after it has stored the
    tint; nothing else of the global changes. *)
Theorem show_wrong_size (m : matrix_t) (fb : list Z) (color mode : Z) :
  wf_display m ->
  mode = COLOR_RGB565 \/ mode = COLOR_GS8 \/ mode = COLOR_MONO ->
  Z.of_nat (length fb) <> frame_size m mode ->
  ledmatrix_show fb color mode m
  = Raised (ValueError "Unexpected buffer size") (show_tint color m).
Proof. exact (show_rejects_size m fb color mode). Qed.

Lemma show_wrong_size_witness :
  ledmatrix_show [1; 2; 3] 255 COLOR_RGB565 demo_matrix
  = Raised (ValueError "Unexpected buffer size") (show_tint 255 demo_matrix).
Proof.
  apply (show_wrong_size demo_matrix [1; 2; 3] 255 COLOR_RGB565).
  - exact demo_display_wf.
  - left. reflexivity.
  - vm_compute. discriminate.
Defined.

(** One successful [show] in single-buffer mode, spelled out. *)
Lemma show_single_spec (fb : list Z) (color mode : Z) (m m' : matrix_t) :
  wf_matrix m -> initialized m = true -> double_buffer m = false ->
  ledmatrix_show fb color mode m = Done tt m' ->
  exists sd0 d0 sb1 sd0',
    buffer m = [mk_stream_buffer (Some sd0) (Some d0); sb1] /\
    backbuffer m = 0 /\
    m' = set_buffer [mk_stream_buffer (Some sd0') (Some d0); sb1]
           (show_tint color m) /\
    encoded (show_tint color m) fb mode sd0 sd0' /\
    length sd0' = length sd0.
Proof.
  intros (HW & HR & HD & HN & Hbb & sb0 & sb1 & Hbuf & Ha0 & Ha1) Hinit Hdbl.
  destruct Ha0 as (sd0 & d0 & -> & Hsd0 & Hd0).
  assert (Hb0 : backbuffer m = 0).
  { destruct Hbb as [E | (_ & E)]; [exact E | congruence]. }
  destruct (show_tint_fields color m)
    as ((TW & TH & TR & TD & _) & Tbuf & Tbb).
  rewrite show_split by assumption. rewrite Hdbl, Hb0.
  destruct (show_colors fb mode 0 (width m) (height m) (show_tint color m))
    as [[] m1 | |] eqn:Hc; try discriminate.
  rewrite <- Tbuf in Hbuf.
  destruct (show_colors_0 _ _ _ _ _ _ _ _ _ Hbuf Hc) as (sd0' & -> & Henc).
  unfold ret. intros E. inversion E; subst m'.
  exists sd0, d0, sb1, sd0'. rewrite <- Tbuf.
  repeat split; try assumption.
  apply (encoded_length (show_tint color m) fb mode);
    [rewrite TW | rewrite TR | rewrite TD |]; assumption.
Qed.

Lemma frontbuffer_other (m : matrix_t) :
  backbuffer m = 0 \/ backbuffer m = 1 -> frontbuffer m = 1 - backbuffer m.
Proof. unfold frontbuffer. intros [-> | ->]; reflexivity. Qed.

(** What one successful [show] leaves behind, in either mode. *)
Lemma show_step (fb : list Z) (color mode : Z) (m m' : matrix_t) :
  wf_matrix m -> initialized m = true ->
  ledmatrix_show fb color mode m = Done tt m' ->
  wf_matrix m' /\ same_geometry m m' /\
  mono_color m' = mono_color (show_tint color m) /\
  stream_of m' (1 - backbuffer m) = stream_of m (1 - backbuffer m) /\
  exists sd sd',
    stream_of m (backbuffer m) = Some sd /\
    stream_of m' (backbuffer m) = Some sd' /\
    encoded (show_tint color m) fb mode sd sd'.
Proof.
  intros Hwf Hinit Hrun.
  destruct (double_buffer m) eqn:Hdbl.
  - destruct (show_double_step fb color mode m m' Hwf Hinit Hdbl Hrun)
      as (Hwf' & _ & _ & Hgeo & Hmono & _ & _ & _ & _ & Hother & Henc).
    rewrite frontbuffer_other in Hother
      by (destruct Hwf as (_ & _ & _ & _ & Hbb & _); tauto).
    auto.
  - destruct (show_single_spec fb color mode m m' Hwf Hinit Hdbl Hrun)
      as (sd0 & d0 & sb1 & sd0' & Hbuf & Hbb & -> & Henc & Hlen).
    destruct (show_tint_fields color m) as (Hgeo & Tbuf & Tbb).
    split.
    { apply (wf_matrix_stream_0 _ sd0);
        [now apply wf_matrix_tint | congruence | assumption]. }
    split; [exact Hgeo |].
    split; [reflexivity |].
    rewrite Hbb. unfold stream_of. simpl. rewrite Hbuf. simpl.
    split; [reflexivity |]. eauto.
Qed.

(** The tail links can be redirected on every initialised display. *)
Lemma handoff_total (m : matrix_t) (target : desc_ptr) (bb : Z) :
  wf_matrix m ->
  exists m',
    (if double_buffer m then
       set_tail 0 target ;; set_tail 1 target ;; modify (set_backbuffer bb)
     else ret tt) m = Done tt m'.
Proof.
  intros (_ & _ & _ & HN & _ & sb0 & sb1 & Hbuf & Ha0 & Ha1).
  destruct (double_buffer m); [| eexists; reflexivity].
  destruct Ha0 as (sd0 & d0 & -> & _ & Hd0).
  destruct (Ha1 eq_refl) as (sd1 & d1 & -> & _ & Hd1).
  destruct (handoff_spec m (Some sd0) (Some sd1) d0 d1 target bb Hbuf HN
              Hd0 Hd1) as (e0 & e1 & _ & _ & Hrun).
  eexists. exact Hrun.
Qed.

(** [show] returns normally on every RGB565 or GS8 frame of the expected
    size, and for every mode outside the three constants. *)
Lemma show_total (fb : list Z) (color mode : Z) (m : matrix_t) :
  wf_display m ->
  decoder_of mode = None \/
  ((mode = COLOR_RGB565 \/ mode = COLOR_GS8) /\
   Z.of_nat (length fb) = frame_size m mode) ->
  exists m', ledmatrix_show fb color mode m = Done tt m'.
Proof.
  intros Hwf Hmode.
  pose proof (wf_display_tint color m Hwf) as Hwt.
  pose proof (wf_display_height _ Hwt) as HH.
  destruct Hwf as (Hwf & Hinit & _).
  pose proof Hwt as (Hwt' & _).
  rewrite show_split_tint by assumption.
  pose proof (show_colors_run fb mode (show_tint color m) Hwt') as Hrun.
  destruct (wf_backbuffer_stream _ Hwt') as (sd & Hsd & Hlen).
  destruct (show_tint_fields color m)
    as ((TW & TH & TR & TD & _ & _ & _ & TN & _ & TDB & _) & Tbuf & Tbb).
  assert (Hho : forall m1, wf_matrix m1 -> double_buffer m1 = double_buffer m ->
            exists m',
              (if double_buffer m then
                 set_tail 0 (DescPtr (backbuffer m) 0) ;;
                 set_tail 1 (DescPtr (backbuffer m) 0) ;;
                 modify (set_backbuffer (u8 (Z.lxor (backbuffer m) 1)))
               else ret tt) m1 = Done tt m').
  { intros m1 H1 E. rewrite <- E. now apply handoff_total. }
  destruct Hmode as [Hnone | (Hm & Hfb)].
  - rewrite Hnone in Hrun. rewrite Hrun. apply Hho; assumption.
  - assert (Hdec : exists dec, decoder_of mode = Some dec)
      by (destruct Hm as [-> | ->]; eexists; reflexivity).
    destruct Hdec as (dec & Hdec). rewrite Hdec in Hrun.
    rewrite (Hrun sd Hsd) by lia.
    assert (Hfs : frame_size (show_tint color m) mode = frame_size m mode)
      by (unfold frame_size; rewrite TW, TH; reflexivity).
    rewrite Hfs, Hfb, Z.eqb_refl.
    destruct (update_framebuffer_data_defined (show_tint color m) fb sd mode
                dec Hwt Hm Hdec) as (sd' & Hsd');
      [rewrite Hfs; assumption | assumption |].
    rewrite Hsd'.
    apply Hho; [| exact TDB].
    pose proof Hwt' as (_ & _ & _ & _ & Hbb & sb0 & sb1 & Hbuf & Ha0 & Ha1).
    assert (Hl : length sd' = length sd).
    { apply (update_framebuffer_data_length (show_tint color m) fb dec);
        try assumption; apply Hwt'. }
    unfold stream_of, descs_of in *. rewrite Hbuf in *.
    destruct Hbb as [E | (E & Hdbl)]; rewrite E in *; simpl in Hsd |- *.
    + destruct sb0 as [s0 dd0]. simpl in Hsd. subst s0.
      destruct dd0; cbn [dma_desc];
        apply (wf_matrix_stream_0 _ sd); assumption.
    + destruct sb1 as [s1 dd1]. simpl in Hsd. subst s1.
      destruct dd1; cbn [dma_desc];
        apply (wf_matrix_stream_1 _ sd); assumption.
Qed.

Lemma show_keeps_display (fb : list Z) (color mode : Z) (m m' : matrix_t) :
  wf_display m -> ledmatrix_show fb color mode m = Done tt m' ->
  wf_display m'.
Proof.
  intros Hwf Hrun.
  pose proof (wf_display_tint color m Hwf) as (_ & _ & _ & _ & Hc).
  destruct Hwf as (Hwf & Hinit & Hev & HH & _).
  destruct (show_step fb color mode m m' Hwf Hinit Hrun)
    as (Hwf' & (EW & EH & ER & _ & _ & _ & ES & _ & _ & _ & EI) & Hmono & _).
  split; [assumption |]. split; [congruence |].
  split; [congruence |]. split; [rewrite EH, ES, ER; assumption |].
  rewrite Hmono. assumption.
Qed.

Lemma show_returns_frame (m : matrix_t) (fb : list Z) (color mode : Z) :
  wf_display m ->
  mode = COLOR_RGB565 \/ mode = COLOR_GS8 ->
  Z.of_nat (length fb) = frame_size m mode ->
  exists m', ledmatrix_show fb color mode m = Done tt m' /\ wf_display m'.
Proof.
  intros Hwf Hmode Hlen.
  destruct (show_total fb color mode m Hwf) as (m' & Hrun); [right; auto |].
  exists m'. split; [assumption |].
  now apply (show_keeps_display fb color mode m).
Qed.

(** X6. On a well-formed display ([wf_display]: initialised, colour depth
    1 to 8, even width below 65536, 1 to 255 rows, height matching the
    rows, buffers allocated for this geometry, three tint bytes), [show] on
    an RGB565 or GS8 frame of the expected size returns normally: every read
    of the frame and every write of the stream data is in range, every shift
    count is valid, and the display stays well formed. The bound on the
    depth is needed: from a depth of 9 on the decoders shift by a negative
    count. *)
Theorem show_frame_returns (m : matrix_t) (fb : list Z) (color mode : Z) :
  wf_display m ->
  mode = COLOR_RGB565 \/ mode = COLOR_GS8 ->
  Z.of_nat (length fb) = frame_size m mode ->
  exists m', ledmatrix_show fb color mode m = Done tt m' /\ wf_display m'.
Proof. exact (show_returns_frame m fb color mode). Qed.

Lemma show_frame_returns_witness :
  exists m', ledmatrix_show demo_fbG 255 COLOR_GS8 demo_matrix = Done tt m' /\
             wf_display m'.
Proof.
  apply (show_frame_returns demo_matrix demo_fbG 255 COLOR_GS8).
  - exact demo_display_wf.
  - right. reflexivity.
  - vm_compute. reflexivity.
Defined.

(** From bit plane 8 on, the decoders of the colour modes shift by a negative
    count. *)
Lemma color_decoders_undefined (m : matrix_t) (mode : Z) (dec : get_color_func)
  (x y bit : Z) (data : list Z) :
  mode = COLOR_RGB565 \/ mode = COLOR_GS8 ->
  decoder_of mode = Some dec -> 8 <= bit -> dec m x y bit data = None.
Proof.
  intros [-> | ->] Hdec Hbit; inversion Hdec; subst dec.
  - unfold get_color_bits_rgb, obind.
    destruct (load data _); [| reflexivity].
    destruct (load data _); [| reflexivity].
    unfold get_rgb565_bits. cbv zeta.
    rewrite shr_int_negative by lia. reflexivity.
  - unfold get_color_bits_gs8, obind.
    destruct (load data _); [| reflexivity].
    destruct (load _ 0); [| reflexivity].
    destruct (load _ 1); [| reflexivity].
    destruct (load _ 2); [| reflexivity].
    cbv zeta. rewrite shr_int_negative by lia. reflexivity.
Qed.

Lemma update_framebuffer_data_deep (m : matrix_t) (mode : Z)
  (dec : get_color_func) (fb sd : list Z) :
  mode = COLOR_RGB565 \/ mode = COLOR_GS8 ->
  decoder_of mode = Some dec ->
  0 < width m -> 0 < rows m -> 9 <= color_depth m < 256 ->
  update_framebuffer_data m fb dec sd = None.
Proof.
  intros Hmode Hdec HW HR HD. unfold update_framebuffer_data. cbv zeta.
  apply (for_range_none _ 0 (color_depth m) 0); [lia |]. intros t.
  apply (for_range_none _ 0 (rows m) 0); [lia |]. intros t'.
  apply (for_range_none _ 0 (width m) 0); [lia |]. intros t''.
  unfold color_byte. cbv zeta.
  rewrite (color_decoders_undefined m mode dec _ _ _ fb Hmode Hdec);
    [reflexivity |].
  unfold u8. rewrite Z.mod_small by lia. lia.
Qed.

(** X25. The bound on the colour depth in [wf_display] is needed: [init]
    checks the depth against 0 only, and on an initialised display with a
    depth of 9 or more [show] on an RGB565 or GS8 frame of the expected size
    is undefined: plane 0 is bit [depth - 1 >= 8] of the channels and the
    decoders shift by [7 - bit < 0]. *)
Theorem show_depth_undefined (m : matrix_t) (fb : list Z) (color mode : Z) :
  initialized m = true ->
  0 < width m < 65536 -> 0 < rows m -> 0 <= height m < 512 ->
  9 <= color_depth m < 256 ->
  mode = COLOR_RGB565 \/ mode = COLOR_GS8 ->
  Z.of_nat (length fb) = frame_size m mode ->
  ledmatrix_show fb color mode m = Undefined.
Proof.
  intros Hinit HW HR HH HD Hmode Hlen.
  rewrite show_split_tint by assumption.
  destruct (show_tint_fields color m)
    as ((EW & EH & ER & ED & _) & _ & _).
  assert (Hdec : exists dec, decoder_of mode = Some dec).
  { destruct Hmode as [-> | ->]; eexists; reflexivity. }
  destruct Hdec as (dec & Hdec).
  rewrite (show_colors_sized fb mode _ (show_tint color m) (show_tint color m)
             dec Hdec) by (rewrite ?EW, ?EH; assumption).
  assert (Hfs : frame_size (show_tint color m) mode = frame_size m mode).
  { unfold frame_size. rewrite EW, EH. reflexivity. }
  rewrite Hfs, Hlen, Z.eqb_refl.
  unfold update_framebuffer, bind, get.
  destruct (stream_of _ _);
    rewrite (update_framebuffer_data_deep _ mode dec) by
      (rewrite ?EW, ?ER, ?ED; first [assumption | lia]);
    reflexivity.
Qed.

Lemma show_depth_undefined_witness :
  demo_init deep_args = Done tt deep_matrix /\
  ledmatrix_show (repeat 0 32) (-1) COLOR_RGB565 deep_matrix = Undefined.
Proof.
  split; [vm_compute; reflexivity |].
  apply (show_depth_undefined deep_matrix (repeat 0 32) (-1) COLOR_RGB565).
  - vm_compute. reflexivity.
  - vm_compute. split; reflexivity.
  - vm_compute. reflexivity.
  - vm_compute. split; [discriminate | reflexivity].
  - vm_compute. split; [discriminate | reflexivity].
  - left. reflexivity.
  - vm_compute. reflexivity.
Defined.

Lemma encoded_odd (m : matrix_t) (fb : list Z) (mode : Z) (sd sd' : list Z) :
  0 < width m < 65536 -> 0 < rows m < 256 -> 1 <= color_depth m <= 8 ->
  encoded m fb mode sd sd' ->
  length sd' = length sd /\
  forall a, a mod 2 = 1 -> load sd' a = load sd a.
Proof.
  intros HW HR HD Henc.
  split; [now apply (encoded_length m fb mode) |].
  unfold encoded in Henc. destruct (decoder_of mode) as [dec |];
    [| subst sd'; reflexivity].
  rewrite update_framebuffer_data_fill in Henc.
  apply fill_cells_partial in Henc as (_ & _ & Hrest);
    try lia; [| now apply wf_size].
  intros a Ha. apply Hrest. unfold BITSTREAM_COLOR_BYTE.
  rewrite Z.sub_0_r. lia.
Qed.

Lemma stream_of_index (m : matrix_t) (b : Z) (sd : list Z) :
  wf_matrix m -> stream_of m b = Some sd -> b = 0 \/ b = 1.
Proof.
  intros (_ & _ & _ & _ & _ & sb0 & sb1 & Hbuf & _) Hsd.
  apply stream_of_Some in Hsd as (sb & Hld & _).
  apply load_Some_range in Hld. rewrite Hbuf in Hld. simpl in Hld. lia.
Qed.

(** X7. [show] writes colour bytes only: the bytes at the odd offsets of both
    buffers, which are the control bytes, are what they were, whatever the
    mode. *)
Theorem show_keeps_control_bytes (m m' : matrix_t) (fb : list Z)
  (color mode b : Z) (sd : list Z) :
  wf_matrix m -> initialized m = true ->
  ledmatrix_show fb color mode m = Done tt m' ->
  stream_of m b = Some sd ->
  exists sd',
    stream_of m' b = Some sd' /\ length sd' = length sd /\
    forall a, a mod 2 = 1 -> load sd' a = load sd a.
Proof.
  intros Hwf Hinit Hrun Hsd.
  destruct (show_step fb color mode m m' Hwf Hinit Hrun)
    as (_ & _ & _ & Hother & sd0 & sd0' & Hs0 & Hs0' & Henc).
  pose proof (stream_of_index m b sd Hwf Hsd) as Hb.
  pose proof Hwf as (HW & HR & HD & _ & Hbb & _).
  destruct (show_tint_fields color m) as ((TW & _ & TR & TD & _) & _).
  destruct (Z.eq_dec b (backbuffer m)) as [-> | Hne].
  - rewrite Hs0 in Hsd. inversion Hsd; subst sd0.
    exists sd0'. split; [assumption |].
    apply (encoded_odd (show_tint color m) fb mode);
      [rewrite TW | rewrite TR | rewrite TD |]; assumption.
  - assert (E : b = 1 - backbuffer m) by lia. subst b.
    exists sd. rewrite Hother. auto.
Qed.

Lemma show_keeps_control_bytes_witness :
  let m' := state_of (ledmatrix_show demo_fbA (-1) COLOR_RGB565 demo_matrix) in
  exists sd',
    stream_of m' 1 = Some sd' /\
    length sd' = length (stream_or_nil demo_matrix 1) /\
    forall a, a mod 2 = 1 ->
              load sd' a = load (stream_or_nil demo_matrix 1) a.
Proof.
  intros m'.
  apply (show_keeps_control_bytes demo_matrix m' demo_fbA (-1) COLOR_RGB565 1).
  - exact demo_matrix_wf.
  - vm_compute. reflexivity.
  - vm_compute. reflexivity.
  - vm_compute. reflexivity.
Defined.

Lemma single_matrix_wf : wf_matrix single_matrix.
Proof.
  unfold wf_matrix. vm_compute.
  repeat split; try discriminate; try (left; reflexivity).
  eexists. eexists. split; [reflexivity |].
  split; [| intros E; discriminate E].
  eexists. eexists. split; [reflexivity |]. split; reflexivity.
Qed.

(** X8. In single-buffer mode [show] encodes the frame into buffer 0, the
    buffer that is being streamed; the descriptor ring, the second buffer
    and the backbuffer index stay as they were. *)
Theorem show_single_buffer (m m' : matrix_t) (fb : list Z) (color mode : Z) :
  wf_matrix m -> initialized m = true -> double_buffer m = false ->
  ledmatrix_show fb color mode m = Done tt m' ->
  backbuffer m' = 0 /\ descs_of m' 0 = descs_of m 0 /\
  load (buffer m') 1 = load (buffer m) 1 /\
  exists sd sd',
    stream_of m 0 = Some sd /\ stream_of m' 0 = Some sd' /\
    encoded (show_tint color m) fb mode sd sd'.
Proof.
  intros Hwf Hinit Hdbl Hrun.
  destruct (show_single_spec fb color mode m m' Hwf Hinit Hdbl Hrun)
    as (sd0 & d0 & sb1 & sd0' & Hbuf & Hbb & -> & Henc & _).
  destruct (show_tint_fields color m) as (_ & _ & Tbb).
  unfold descs_of, stream_of. simpl. rewrite Hbuf. simpl.
  split; [congruence |]. split; [reflexivity |]. split; [reflexivity |].
  eauto.
Qed.

Lemma show_single_buffer_witness :
  let m' := state_of (ledmatrix_show demo_fbA (-1) COLOR_RGB565 single_matrix) in
  backbuffer m' = 0 /\ descs_of m' 0 = descs_of single_matrix 0 /\
  load (buffer m') 1 = load (buffer single_matrix) 1 /\
  exists sd sd',
    stream_of single_matrix 0 = Some sd /\ stream_of m' 0 = Some sd' /\
    encoded (show_tint (-1) single_matrix) demo_fbA COLOR_RGB565 sd sd'.
Proof.
  intros m'.
  apply (show_single_buffer single_matrix m' demo_fbA (-1) COLOR_RGB565).
  - exact single_matrix_wf.
  - vm_compute. reflexivity.
  - vm_compute. reflexivity.
  - vm_compute. reflexivity.
Defined.

(** X9. After [show] of an RGB565 frame the colour byte of every cell of the
    buffer it wrote holds, for plane [l], bit [D - 1 - l] (from the most
    significant end) of the three channels of the pixel in the upper half
    on its low three bits and, on a two-channel display, that of the pixel
    [rows] lines below on the next three; the column is the neighbour of
    the pair when [column_swap] is set, and the byte is complemented when
    [invert] is set. *)
Theorem show_rgb565_cells (m : matrix_t) (fb : list Z) (color l r p : Z) :
  wf_display m ->
  Z.of_nat (length fb) = frame_size m COLOR_RGB565 ->
  0 <= l < color_depth m -> 0 <= r < rows m -> 0 <= p < width m ->
  exists m' sd',
    ledmatrix_show fb color COLOR_RGB565 m = Done tt m' /\
    stream_of m' (backbuffer m) = Some sd' /\
    load sd' (cell (width m) (rows m) l r p + BITSTREAM_COLOR_BYTE)
    = Some (let bit := color_depth m - l - 1 in
            let x := source_column m p in
            let top := rgb_lines (pixel565 (width m) fb x r) bit in
            let bottom :=
              rgb_lines (pixel565 (width m) fb x (r + rows m)) bit in
            let c := if single_chn m then top else top + 8 * bottom in
            if invert m then u8 (Z.lnot c) else c).
Proof.
  intros Hwf Hlen Hl Hr Hp.
  destruct (show_total fb color COLOR_RGB565 m Hwf) as (m' & Hrun);
    [right; auto |].
  pose proof (wf_display_tint color m Hwf) as Hwt.
  destruct Hwf as (Hwf & Hinit & _).
  destruct (show_step fb color COLOR_RGB565 m m' Hwf Hinit Hrun)
    as (_ & _ & _ & _ & sd & sd' & Hsd & Hsd' & Henc).
  exists m', sd'. split; [assumption |]. split; [assumption |].
  destruct (show_tint_fields color m)
    as ((TW & TH & TR & TD & TI & TC & TS & _) & _).
  pose proof Hwf as (HW & HR & HD & _).
  change (fill_cells (width (show_tint color m)) (rows (show_tint color m))
            (color_depth (show_tint color m)) BITSTREAM_COLOR_BYTE
            (color_byte (show_tint color m) get_color_bits_rgb fb) sd
          = Some sd') in Henc.
  apply fill_cells_partial in Henc as (_ & Hcells & _);
    try (rewrite ?TW, ?TR, ?TD; lia);
    [| rewrite TW, TR, TD; now apply wf_size].
  rewrite TW, TR, TD in Hcells.
  pose proof (cell_bound _ _ _ l r p Hl Hr Hp) as Hb.
  destruct (Hcells l r p Hl Hr Hp) as (c & Hc & Hld); [lia |].
  rewrite Hld. f_equal.
  rewrite color_byte_rgb in Hc;
    [| assumption
     | unfold frame_size in *; rewrite TW, TH; assumption
     | rewrite TD; assumption | rewrite TR; assumption
     | rewrite TW; assumption].
  unfold source_column in *. rewrite TW, TR, TD, TI, TC, TS in Hc.
  inversion Hc. reflexivity.
Qed.

Lemma show_rgb565_cells_witness :
  exists m' sd',
    ledmatrix_show demo_fbB (-1) COLOR_RGB565 demo_matrix = Done tt m' /\
    stream_of m' (backbuffer demo_matrix) = Some sd' /\
    load sd' (cell (width demo_matrix) (rows demo_matrix) 1 1 2
              + BITSTREAM_COLOR_BYTE)
    = Some (let bit := color_depth demo_matrix - 1 - 1 in
            let x := source_column demo_matrix 2 in
            let top := rgb_lines (pixel565 (width demo_matrix) demo_fbB x 1) bit in
            let bottom :=
              rgb_lines (pixel565 (width demo_matrix) demo_fbB x
                           (1 + rows demo_matrix)) bit in
            let c := if single_chn demo_matrix then top else top + 8 * bottom in
            if invert demo_matrix then u8 (Z.lnot c) else c).
Proof.
  apply (show_rgb565_cells demo_matrix demo_fbB (-1) 1 1 2).
  - exact demo_display_wf.
  - vm_compute. reflexivity.
  - vm_compute. split; [discriminate | reflexivity].
  - vm_compute. split; [discriminate | reflexivity].
  - vm_compute. split; [discriminate | reflexivity].
Defined.

(** ** [set_brightness]: composition and duty *)

(** A pass over the cells does not depend on what the cells held. *)
Lemma fill_cells_agree (W R D off : Z) (v : Z -> Z -> Z -> option Z)
  (sdA sdB rA rB : list Z) :
  0 < W -> 0 < R -> 0 <= D -> 2 * W * R * D < 4294967296 ->
  0 <= off <= 1 ->
  (forall a, ~ (a - off < 2 * W * R * D /\ (a - off) mod 2 = 0) ->
             load sdA a = load sdB a) ->
  fill_cells W R D off v sdA = Some rA ->
  fill_cells W R D off v sdB = Some rB ->
  rA = rB.
Proof.
  intros HW HR HD Hsz Hoff Hagree HA HB.
  apply fill_cells_partial in HA as (_ & HcA & HrA); try lia.
  apply fill_cells_partial in HB as (_ & HcB & HrB); try lia.
  apply list_eq. intros i.
  rewrite <- (Nat2Z.id i).
  rewrite <- !(load_lookup _ (Z.of_nat i)) by lia.
  set (a := Z.of_nat i). assert (Ha : 0 <= a) by lia. clearbody a.
  destruct (Z.lt_ge_cases (a - off) (2 * W * R * D)) as [Hlt | Hge].
  - destruct (Z.eq_dec ((a - off) mod 2) 0) as [Hev | Hodd].
    + destruct (Z.lt_ge_cases (a - off) 0) as [Hneg | Hnn].
      * assert (a - off = -1) by lia.
        replace (a - off) with (-1) in Hev by lia. discriminate.
      * destruct (cell_decode W R D (a - off) HW HR ltac:(lia) Hev)
          as (l & r & p & Hl & Hr & Hp & Ea).
        pose proof (cell_bound W R D l r p Hl Hr Hp) as Hb.
        destruct (HcA l r p Hl Hr Hp) as (c & Hc & Hld); [lia |].
        destruct (HcB l r p Hl Hr Hp) as (c' & Hc' & Hld'); [lia |].
        replace a with (cell W R l r p + off) by lia.
        rewrite Hld, Hld'. congruence.
    + rewrite HrA, HrB by tauto. apply Hagree. tauto.
  - rewrite HrA, HrB by lia. apply Hagree. lia.
Qed.

Lemma create_control_pattern_data_fill (m : matrix_t) (sd : list Z) :
  create_control_pattern_data m sd
  = fill_cells (width m) (rows m) (color_depth m) BITSTREAM_CTRL_BYTE
      (fun _ row pixel => Some (control_byte m (u8 (row - 1)) pixel)) sd.
Proof. reflexivity. Qed.

(** Two control passes in a row leave what the second one alone leaves. *)
Lemma create_control_pattern_data_twice (m1 m2 : matrix_t)
  (sd sd1 sd2 sd12 : list Z) :
  0 < width m2 < 65536 -> 0 < rows m2 < 256 -> 1 <= color_depth m2 <= 8 ->
  width m1 = width m2 -> rows m1 = rows m2 ->
  color_depth m1 = color_depth m2 ->
  create_control_pattern_data m1 sd = Some sd1 ->
  create_control_pattern_data m2 sd1 = Some sd12 ->
  create_control_pattern_data m2 sd = Some sd2 ->
  sd12 = sd2.
Proof.
  intros HW HR HD EW ER ED H1 H12 H2.
  pose proof (wf_size m2 HW HR HD) as Hsz.
  rewrite create_control_pattern_data_fill in H1, H12, H2.
  rewrite EW, ER, ED in H1.
  apply fill_cells_partial in H1 as (_ & _ & Hrest); try lia.
  eapply (fill_cells_agree _ _ _ _ _ sd1 sd); try eassumption; try lia.
  unfold BITSTREAM_CTRL_BYTE. lia.
Qed.

Lemma create_control_pattern_data_length (m : matrix_t) (sd sd' : list Z) :
  0 < width m < 65536 -> 0 < rows m < 256 -> 1 <= color_depth m <= 8 ->
  create_control_pattern_data m sd = Some sd' -> length sd' = length sd.
Proof.
  intros HW HR HD Hrun. rewrite create_control_pattern_data_fill in Hrun.
  apply fill_cells_partial in Hrun as (Hlen & _);
    try lia; now apply wf_size.
Qed.

Lemma wf_matrix_brightness (b : Z) (m : matrix_t) :
  wf_matrix m -> wf_matrix (set_brightness_field b m).
Proof. intros H. exact H. Qed.

(** What a successful [set_brightness] leaves behind. *)
Lemma set_brightness_step (m : matrix_t) (v : Z) :
  wf_matrix m -> initialized m = true -> 0 <= v <= width m - 2 ->
  exists sd0 dd0 sb1 sd0' sb1',
    buffer m = [mk_stream_buffer (Some sd0) dd0; sb1] /\
    ledmatrix_set_brightness (MpSmallInt v) m
    = Done tt (set_buffer [mk_stream_buffer (Some sd0') dd0; sb1']
                 (set_brightness_field (v + 1) m)) /\
    wf_matrix (set_buffer [mk_stream_buffer (Some sd0') dd0; sb1']
                 (set_brightness_field (v + 1) m)) /\
    create_control_pattern_data (set_brightness_field (v + 1) m) sd0
    = Some sd0' /\
    (if double_buffer m
     then exists sd1 dd1 sd1',
            sb1 = mk_stream_buffer (Some sd1) dd1 /\
            sb1' = mk_stream_buffer (Some sd1') dd1 /\
            create_control_pattern_data (set_brightness_field (v + 1) m) sd1
            = Some sd1'
     else sb1' = sb1).
Proof.
  intros Hwf Hinit Hv.
  destruct (set_brightness_run m v Hwf Hinit Hv)
    as (sd0 & dd0 & sb1 & sd0' & sb1' & Hbuf & Hrun & Hc0 & Hrest).
  exists sd0, dd0, sb1, sd0', sb1'.
  split; [assumption |]. split; [assumption |].
  split; [| split; assumption].
  pose proof Hwf as (HW & HR & HD & _).
  pose proof (create_control_pattern_data_length
                (set_brightness_field (v + 1) m) _ _ HW HR HD Hc0) as Hl0.
  pose proof (wf_matrix_stream_0 (set_brightness_field (v + 1) m) sd0 sd0'
                dd0 sb1 (wf_matrix_brightness _ _ Hwf) Hbuf Hl0) as Hwf0.
  destruct (double_buffer m) eqn:Hdbl.
  - destruct Hrest as (sd1 & dd1 & sd1' & -> & -> & Hc1).
    pose proof (create_control_pattern_data_length
                  (set_brightness_field (v + 1) m) _ _ HW HR HD Hc1) as Hl1.
    apply (wf_matrix_stream_1
             (set_buffer [mk_stream_buffer (Some sd0') dd0;
                          mk_stream_buffer (Some sd1) dd1]
                (set_brightness_field (v + 1) m)) sd1 sd1' dd1
             (mk_stream_buffer (Some sd0') dd0) Hwf0 eq_refl Hl1).
  - subst sb1'. exact Hwf0.
Qed.

(** X10. Two calls of [set_brightness] in a row leave the global as the second
    call alone leaves it. *)
Theorem set_brightness_last_wins (m : matrix_t) (v1 v2 : Z) :
  wf_matrix m -> initialized m = true ->
  0 <= v1 <= width m - 2 -> 0 <= v2 <= width m - 2 ->
  (ledmatrix_set_brightness (MpSmallInt v1) ;;
   ledmatrix_set_brightness (MpSmallInt v2)) m
  = ledmatrix_set_brightness (MpSmallInt v2) m.
Proof.
  intros Hwf Hinit Hv1 Hv2.
  destruct (set_brightness_step m v1 Hwf Hinit Hv1)
    as (sd0 & dd0 & sb1 & sd0' & sb1' & Hbuf & Hrun1 & Hwf1 & Hc1 & Hr1).
  destruct (set_brightness_step _ v2 Hwf1 Hinit Hv2)
    as (x0 & y0 & z1 & x0' & z1' & Hbuf2 & Hrun2 & _ & Hc2 & Hr2).
  destruct (set_brightness_step m v2 Hwf Hinit Hv2)
    as (a0 & b0 & c1 & a0' & c1' & Hbuf3 & Hrun3 & _ & Hc3 & Hr3).
  simpl in Hbuf2. inversion Hbuf2; subst x0 y0 z1. clear Hbuf2.
  rewrite Hbuf in Hbuf3. inversion Hbuf3; subst a0 b0 c1. clear Hbuf3.
  unfold bind at 1. rewrite Hrun1, Hrun2, Hrun3.
  pose proof Hwf as (HW & HR & HD & _).
  assert (E0 : x0' = a0').
  { apply (create_control_pattern_data_twice
             (set_brightness_field (v1 + 1) m)
             (set_brightness_field (v2 + 1) m) sd0 sd0' a0' x0');
      try assumption; reflexivity. }
  subst x0'.
  assert (E1 : z1' = c1').
  { simpl in Hr2. destruct (double_buffer m).
    - destruct Hr1 as (sd1 & dd1 & sd1' & -> & -> & Hp1).
      destruct Hr2 as (t1 & e1 & t1' & Et & -> & Hp2).
      destruct Hr3 as (u1 & f1 & u1' & Eu & -> & Hp3).
      inversion Et; subst t1 e1. inversion Eu; subst u1 f1.
      f_equal. f_equal.
      apply (create_control_pattern_data_twice
               (set_brightness_field (v1 + 1) m)
               (set_brightness_field (v2 + 1) m) sd1 sd1' u1' t1');
        try assumption; reflexivity.
    - congruence. }
  subst z1'. reflexivity.
Qed.

Lemma set_brightness_last_wins_witness :
  (ledmatrix_set_brightness (MpSmallInt 0) ;;
   ledmatrix_set_brightness (MpSmallInt 2)) demo_matrix
  = ledmatrix_set_brightness (MpSmallInt 2) demo_matrix.
Proof.
  apply (set_brightness_last_wins demo_matrix 0 2).
  - exact demo_matrix_wf.
  - vm_compute. reflexivity.
  - vm_compute. split; discriminate.
  - vm_compute. split; discriminate.
Defined.

Lemma filter_none {A} (f : A -> bool) (l : list A) :
  (forall x, In x l -> f x = false) -> List.filter f l = [].
Proof.
  induction l as [| x l IH]; intros H; [reflexivity |]. simpl.
  rewrite (H x) by (left; reflexivity). apply IH.
  intros y Hy. apply H. right. assumption.
Qed.

Lemma filter_all {A} (f : A -> bool) (l : list A) :
  (forall x, In x l -> f x = true) -> List.filter f l = l.
Proof.
  induction l as [| x l IH]; intros H; [reflexivity |]. simpl.
  rewrite (H x) by (left; reflexivity). f_equal. apply IH.
  intros y Hy. apply H. right. assumption.
Qed.

Lemma In_seqZ (x lo n : Z) : In x (seqZ lo n) <-> lo <= x < lo + n.
Proof. rewrite <- list_elem_of_In. apply elem_of_seqZ. Qed.

Lemma filter_seqZ_range (a n len : Z) :
  0 <= a -> 0 <= n -> a + n <= len ->
  List.filter (fun p => (a <=? p) && (p <? a + n)) (seqZ 0 len) = seqZ a n.
Proof.
  intros Ha Hn Hlen.
  replace len with (a + (n + (len - a - n))) by lia.
  rewrite seqZ_app by lia. rewrite seqZ_app by lia.
  rewrite !List.filter_app. simpl (0 + a).
  rewrite filter_none, filter_all, filter_none.
  - rewrite app_nil_r. reflexivity.
  - intros x Hx. apply In_seqZ in Hx.
    destruct (Z.leb_spec a x), (Z.ltb_spec x (a + n)); try reflexivity; lia.
  - intros x Hx. apply In_seqZ in Hx.
    destruct (Z.leb_spec a x), (Z.ltb_spec x (a + n)); try reflexivity; lia.
  - intros x Hx. apply In_seqZ in Hx.
    destruct (Z.leb_spec a x), (Z.ltb_spec x (a + n)); try reflexivity; lia.
Qed.

Lemma oe_bit_control_byte (m : matrix_t) (row pixel : Z) :
  oe_bit m (control_byte m (u8 (row - 1)) pixel)
  = (pixel <? 2) || (pixel >? brightness m).
Proof.
  destruct (control_byte_fields m 0 row pixel ltac:(lia))
    as (ctrl & -> & _ & _ & Hoe & _).
  unfold oe_bit. destruct (invert m).
  - rewrite u8_lnot_testbit by (unfold BITSTREAM_CTRL_OE_BIT; lia).
    rewrite Hoe. destruct ((pixel <? 2) || (pixel >? brightness m)); reflexivity.
  - rewrite Hoe. apply xorb_false_r.
Qed.

(** The control bytes a control pass leaves keep the output on during the
    columns [2 .. brightness] of every row, and during no other. *)
Lemma lit_columns_control (m : matrix_t) (sd sd' : list Z) (l row : Z) :
  0 < width m < 65536 -> 0 < rows m < 256 -> 1 <= color_depth m <= 8 ->
  2 * width m * rows m * color_depth m <= Z.of_nat (length sd) ->
  1 <= brightness m < width m ->
  0 <= l < color_depth m -> 0 <= row < rows m ->
  create_control_pattern_data m sd = Some sd' ->
  lit_columns m sd' l row = seqZ 2 (brightness m - 1).
Proof.
  intros HW HR HD Hlen HB Hl Hrow Hrun.
  destruct (create_control_pattern_data_cells m sd)
    as (s & Hrun' & _ & Hcells & _); try lia; [now apply wf_size |].
  rewrite Hrun in Hrun'. inversion Hrun'; subst s. clear Hrun'.
  unfold lit_columns.
  rewrite <- (filter_seqZ_range 2 (brightness m - 1) (width m)) by lia.
  apply List.filter_ext_in. intros p Hp. apply In_seqZ in Hp.
  rewrite Hcells by lia. rewrite oe_bit_control_byte.
  destruct (Z.ltb_spec p 2), (Z.gtb_spec p (brightness m)),
    (Z.leb_spec 2 p), (Z.ltb_spec p (2 + (brightness m - 1)));
    try reflexivity; lia.
Qed.

(** X11. After [set_brightness(v)] the output is on during exactly the [v]
    columns [2 .. v + 1] of every row of every plane of the buffers in
    use. *)
Theorem set_brightness_duty (m : matrix_t) (v b l row : Z) :
  wf_matrix m -> initialized m = true ->
  0 <= v <= width m - 2 ->
  b = 0 \/ (b = 1 /\ double_buffer m = true) ->
  0 <= l < color_depth m -> 0 <= row < rows m ->
  exists m' sd',
    ledmatrix_set_brightness (MpSmallInt v) m = Done tt m' /\
    stream_of m' b = Some sd' /\
    lit_columns m' sd' l row = seqZ 2 v.
Proof.
  intros Hwf Hinit Hv Hb Hl Hrow.
  destruct (set_brightness_step m v Hwf Hinit Hv)
    as (sd0 & dd0 & sb1 & sd0' & sb1' & Hbuf & Hrun & _ & Hc0 & Hrest).
  pose proof Hwf as (HW & HR & HD & _ & _ & x0 & x1 & Hbuf' & Ha0 & Ha1).
  rewrite Hbuf in Hbuf'. inversion Hbuf'; subst x0 x1. clear Hbuf'.
  eexists. 
  assert (Hlit : forall sd sd',
            Z.of_nat (length sd) = 2 * width m * rows m * color_depth m ->
            create_control_pattern_data (set_brightness_field (v + 1) m) sd
            = Some sd' ->
            lit_columns (set_brightness_field (v + 1) m) sd' l row = seqZ 2 v).
  { intros sd sd' Hlen Hc.
    rewrite (lit_columns_control (set_brightness_field (v + 1) m) sd sd' l row);
      try assumption; simpl; try lia.
    f_equal. lia. }
  destruct Hb as [-> | (-> & Hdbl)].
  - exists sd0'. split; [exact Hrun |]. split; [reflexivity |].
    destruct Ha0 as (y & d & E & Hy & _). inversion E; subst y.
    exact (Hlit sd0 sd0' Hy Hc0).
  - rewrite Hdbl in Hrest.
    destruct Hrest as (sd1 & dd1 & sd1' & -> & -> & Hc1).
    exists sd1'. split; [exact Hrun |]. split; [reflexivity |].
    destruct (Ha1 Hdbl) as (y & d & E & Hy & _). inversion E; subst y.
    exact (Hlit sd1 sd1' Hy Hc1).
Qed.

Lemma set_brightness_duty_witness :
  exists m' sd',
    ledmatrix_set_brightness (MpSmallInt 1) demo_matrix = Done tt m' /\
    stream_of m' 1 = Some sd' /\
    lit_columns m' sd' 1 0 = seqZ 2 1.
Proof.
  apply (set_brightness_duty demo_matrix 1 1 1 0).
  - exact demo_matrix_wf.
  - vm_compute. reflexivity.
  - vm_compute. split; discriminate.
  - right. split; vm_compute; reflexivity.
  - vm_compute. split; [discriminate | reflexivity].
  - vm_compute. split; [discriminate | reflexivity].
Defined.

(** ** [init]: the accepted arguments *)

Lemma store_app_mid {A} (pre rest : list A) (x v : A) (i : Z) :
  Z.of_nat (length pre) = i ->
  store (pre ++ x :: rest) i v = Some (pre ++ v :: rest).
Proof.
  intros Hi. rewrite store_in_range
    by (rewrite length_app; simpl; lia).
  f_equal. replace (Z.to_nat i) with (length pre + 0)%nat by lia.
  rewrite insert_app_r. reflexivity.
Qed.

Lemma read_colors_run (items : list mp_obj) :
  forall (k : nat) (pre mid post : list Z),
  length mid = k -> (k <= 6)%nat ->
  Z.of_nat (length pre) = 6 - Z.of_nat k ->
  forallb is_small_int (take k items) = true ->
  read_colors items (6 - Z.of_nat k) (pre ++ mid ++ post)
  = inr (Some (6 - Z.of_nat k + Z.of_nat (length (take k items)),
               pre ++ map pin_value (take k items)
               ++ drop (length (take k items)) mid ++ post)).
Proof.
  induction items as [| item rest IH]; intros k pre mid post Hmid Hk Hpre Hall.
  - rewrite take_nil. cbn [read_colors length map Z.of_nat app].
    rewrite Z.add_0_r, drop_0. reflexivity.
  - simpl read_colors.
    destruct (Z.geb_spec (6 - Z.of_nat k) 6) as [Hge | Hlt].
    + destruct k as [| k]; [| lia].
      destruct mid as [| x mid]; [| discriminate].
      cbn [firstn length map Z.of_nat app drop].
      rewrite Z.add_0_r. reflexivity.
    + destruct k as [| k]; [lia |].
      destruct mid as [| x mid]; [discriminate |].
      simpl in Hall. apply andb_prop in Hall as (Hitem & Hall).
      destruct item as [v |]; [| discriminate].
      unfold BITSTREAM_COLOR_START_IO.
      simpl app at 2.
      rewrite (store_app_mid pre (mid ++ post) x v) by lia.
      replace (6 - Z.of_nat (Datatypes.S k) + 1) with (6 - Z.of_nat k) by lia.
      replace (pre ++ v :: mid ++ post) with ((pre ++ [v]) ++ mid ++ post)
        by (rewrite <- app_assoc; reflexivity).
      rewrite (IH k (pre ++ [v]) mid post);
        [| simpl in Hmid; lia | lia | rewrite length_app; simpl; lia
         | assumption].
      simpl. rewrite <- app_assoc. simpl.
      do 3 f_equal. lia.
Qed.

Lemma read_rows_run (items : list mp_obj) :
  forall (k : nat) (pre mid post : list Z),
  length mid = k -> (k <= 6)%nat ->
  Z.of_nat (length pre) = 10 + (6 - Z.of_nat k) ->
  (length items <= k)%nat ->
  forallb is_small_int items = true ->
  read_rows items (6 - Z.of_nat k) (pre ++ mid ++ post)
  = inr (Some (6 - Z.of_nat k + Z.of_nat (length items),
               pre ++ map pin_value items
               ++ drop (length items) mid ++ post)).
Proof.
  induction items as [| item rest IH];
    intros k pre mid post Hmid Hk Hpre Hlen Hall.
  - cbn [read_rows length map Z.of_nat app drop].
    rewrite Z.add_0_r, drop_0. reflexivity.
  - simpl read_rows. unfold BITSTREAM_ROWS_MAX.
    destruct k as [| k]; [simpl in Hlen; lia |].
    destruct (Z.geb_spec (6 - Z.of_nat (Datatypes.S k)) 6) as [Hge | Hlt];
      [lia |].
    destruct mid as [| x mid]; [discriminate |].
    simpl in Hall. apply andb_prop in Hall as (Hitem & Hall).
    destruct item as [v |]; [| discriminate].
    unfold BITSTREAM_CTRL_ROW_START_IO.
    simpl app at 2.
    rewrite (store_app_mid pre (mid ++ post) x v) by lia.
    replace (6 - Z.of_nat (Datatypes.S k) + 1) with (6 - Z.of_nat k) by lia.
    replace (pre ++ v :: mid ++ post) with ((pre ++ [v]) ++ mid ++ post)
      by (rewrite <- app_assoc; reflexivity).
    rewrite (IH k (pre ++ [v]) mid post);
      [| simpl in Hmid; lia | lia | rewrite length_app; simpl; lia
       | simpl in Hlen; lia | assumption].
    simpl. rewrite <- app_assoc. simpl.
    do 3 f_equal. lia.
Qed.

Lemma drop_repeat {A} (x : A) (n k : nat) :
  drop n (repeat x k) = repeat x (k - n).
Proof.
  revert n. induction k as [| k IH]; intros n.
  - simpl. now rewrite drop_nil.
  - destruct n as [| n]; [reflexivity |]. simpl. apply IH.
Qed.

Lemma read_colors_start (items : list mp_obj) (mid post : list Z) :
  length mid = 6%nat ->
  forallb is_small_int (take 6 items) = true ->
  read_colors items 0 (mid ++ post)
  = inr (Some (Z.of_nat (length (take 6 items)),
               map pin_value (take 6 items)
               ++ drop (length (take 6 items)) mid ++ post)).
Proof.
  intros Hmid Hall.
  exact (read_colors_run items 6 [] mid post Hmid ltac:(lia) eq_refl Hall).
Qed.

Lemma read_rows_start (items : list mp_obj) (pre mid : list Z) :
  length pre = 10%nat -> length mid = 6%nat ->
  (length items <= 6)%nat ->
  forallb is_small_int items = true ->
  read_rows items 0 (pre ++ mid)
  = inr (Some (Z.of_nat (length items),
               pre ++ map pin_value items ++ drop (length items) mid)).
Proof.
  intros Hpre Hmid Hlen Hall.
  pose proof (read_rows_run items 6 pre mid [] Hmid ltac:(lia)
                ltac:(rewrite Hpre; reflexivity) Hlen Hall) as H.
  rewrite !app_nil_r in H. exact H.
Qed.

Lemma init_arguments (heap_caps_malloc : Z -> bool)
  (i2s_parallel_driver_install : i2s_parallel_config_t -> bool -> Z)
  (i2s_parallel_send_dma : desc_ptr -> Z) (args : init_args) (m0 : matrix_t) :
  init_accepts args = true ->
  0 < arg_width args < 65536 -> 0 <= arg_color_depth args < 256 ->
  arg_brightness args < 65536 ->
  ledmatrix_init heap_caps_malloc i2s_parallel_driver_install
    i2s_parallel_send_dma args m0
  = (initialize_buffer heap_caps_malloc 0 ;;
     create_control_pattern 0 ;;
     (if arg_double_buffer args then
        initialize_buffer heap_caps_malloc 1 ;;
        create_control_pattern 1 ;;
        modify (set_backbuffer 1)
      else ret tt) ;;
     (if negb (i2s_parallel_driver_install (init_config args)
                 (arg_invert args) =? ESP_OK)
      then mp_raise (OSError (i2s_parallel_driver_install (init_config args)
                                (arg_invert args)))
      else ret tt) ;;
     modify (set_initialized true) ;;
     start_dma i2s_parallel_send_dma) (init_geometry args).
Proof.
  destruct args as [colors rws oe lat clk W D khz inv dbl swap single v].
  unfold init_accepts, init_invalid, init_config, init_geometry, init_bus,
    init_rows, init_brightness.
  cbn [arg_width arg_color_depth arg_invert arg_double_buffer arg_column_swap
       arg_single_channel arg_brightness io_colors io_rows io_oe io_lat io_clk
       arg_clock_speed_khz].
  intros Hacc HW HD Hv.
  apply andb_prop in Hacc as (Hacc & Hrows).
  apply andb_prop in Hacc as (Hinv & Hcols).
  apply negb_true_iff in Hinv.
  apply orb_false_elim in Hinv as (Hinv & Hcnt).
  apply orb_false_elim in Hinv as (Hinv & Hnr).
  apply orb_false_elim in Hinv as (Hinv & HD0).
  apply orb_false_elim in Hinv as (Hodd & Hbr).
  unfold ledmatrix_init.
  cbn [arg_width arg_color_depth arg_invert arg_double_buffer arg_column_swap
       arg_single_channel arg_brightness io_colors io_rows io_oe io_lat io_clk
       arg_clock_speed_khz].
  rewrite (bind_Done _ _ _ _ _ (deinit_run m0)).
  rewrite bind_modify, bind_get.
  cbn [width set_geometry].
  rewrite width_parity, Hodd. cbn [negb]. rewrite bind_ret.
  assert (EW : u16 W = W) by (unfold u16; apply Z.mod_small; lia).
  assert (ED : u8 D = D) by (unfold u8; apply Z.mod_small; lia).
  rewrite EW, ED in *.
  match goal with
  | |- bind ?c _ ?m = _ =>
      assert (Hblock : c m = Done tt (set_brightness_field
                                        (if 0 <? v then v + 1 else W - 1) m))
  end.
  { destruct (Z.gtb_spec v 0) as [Hpos | Hneg].
    - destruct (Z.ltb_spec 0 v) as [_ |]; [| lia].
      cbn [andb] in Hbr. apply Z.leb_gt in Hbr.
      assert (Ev : u16 v = v) by (unfold u16; apply Z.mod_small; lia).
      rewrite Ev in *.
      cbv beta iota delta [bind modify get ret mp_raise].
      cbn [brightness width set_brightness_field set_geometry].
      destruct (Z.geb_spec v (W - 1)); [lia |].
      replace (u16 (v + 1)) with (v + 1)
        by (unfold u16; symmetry; apply Z.mod_small; lia).
      reflexivity.
    - destruct (Z.ltb_spec 0 v) as [| _]; [lia |].
      replace (u16 (W - 1)) with (W - 1)
        by (unfold u16; symmetry; apply Z.mod_small; lia).
      reflexivity. }
  rewrite (bind_Done _ _ _ _ _ Hblock). clear Hblock.
  rewrite bind_get.
  cbn [color_depth set_brightness_field set_geometry].
  rewrite HD0, bind_ret.
  assert (E1 : store (repeat (-1) (Z.to_nat GPIOS_BUS_SIZE))
                 BITSTREAM_CTRL_OE_IO oe
               = Some ([-1; -1; -1; -1; -1; -1; -1; -1; oe; -1; -1; -1; -1;
                        -1; -1; -1])) by reflexivity.
  rewrite E1. cbn [defined]. rewrite bind_ret.
  assert (E2 : store [-1; -1; -1; -1; -1; -1; -1; -1; oe; -1; -1; -1; -1;
                      -1; -1; -1] BITSTREAM_CTRL_LAT_IO lat
               = Some ([-1; -1; -1; -1; -1; -1] ++
                       [-1; -1; oe; lat; -1; -1; -1; -1; -1; -1]))
    by reflexivity.
  rewrite E2. cbn [defined]. rewrite bind_ret.
  rewrite read_colors_start by (try reflexivity; assumption).
  cbn [lift_read defined]. rewrite bind_ret. cbn [fst snd].
  cbn [single_chn set_brightness_field set_geometry].
  assert (Hk : (length (take 6 colors) <= 6)%nat)
    by (rewrite length_take; lia).
  assert (Hn : (length rws <= 6)%nat) by (apply Z.ltb_ge in Hnr; lia).
  assert (Hcheck : single && negb (Z.of_nat (length (take 6 colors)) =? 3)
                   || negb single
                      && negb (Z.of_nat (length (take 6 colors)) =? 6)
                   = false).
  { rewrite length_take.
    replace (Z.of_nat (6 `min` length colors))
      with (Z.min 6 (Z.of_nat (length colors))) by lia.
    destruct single; cbn [andb negb orb].
    - rewrite orb_false_r. exact Hcnt.
    - apply Z.ltb_ge in Hcnt. rewrite Z.min_l by lia. reflexivity. }
  rewrite Hcheck, bind_ret. clear Hcheck.
  replace (map pin_value (take 6 colors)
           ++ drop (length (take 6 colors)) [-1; -1; -1; -1; -1; -1]
           ++ [-1; -1; oe; lat; -1; -1; -1; -1; -1; -1])
    with ((map pin_value (take 6 colors)
           ++ drop (length (take 6 colors)) [-1; -1; -1; -1; -1; -1]
           ++ [-1; -1; oe; lat]) ++ [-1; -1; -1; -1; -1; -1])
    by (rewrite <- !app_assoc; reflexivity).
  rewrite read_rows_start;
    [| rewrite !length_app, length_map, length_drop; simpl; lia
     | reflexivity | assumption | assumption].
  cbn [lift_read defined]. rewrite bind_ret. cbn [fst snd].
  rewrite bind_modify, bind_get.
  cbn [single_chn rows set_rows set_brightness_field set_geometry].
  rewrite !bind_modify.
  cbn [double_buffer invert set_rows set_brightness_field set_geometry].
  assert (ER : u8 (Z.shiftl 1 (Z.of_nat (length rws)))
               = 2 ^ Z.of_nat (length rws)).
  { rewrite Z.shiftl_1_l. unfold u8. apply Z.mod_small.
    split; [apply Z.pow_nonneg; lia |].
    apply (Z.le_lt_trans _ (2 ^ 6)); [| reflexivity].
    apply Z.pow_le_mono_r; lia. }
  rewrite ER.
  assert (EH : u16 (Z.shiftl (2 ^ Z.of_nat (length rws)) 1)
               = 2 * 2 ^ Z.of_nat (length rws)).
  { rewrite Z.shiftl_mul_pow2 by lia. change (2 ^ 1) with 2.
    rewrite Z.mul_comm. unfold u16. apply Z.mod_small.
    assert (0 < 2 ^ Z.of_nat (length rws) <= 2 ^ 6).
    { split; [apply Z.pow_pos_nonneg; lia |].
      apply Z.pow_le_mono_r; lia. }
    change (2 ^ 6) with 64 in *. lia. }
  rewrite EH.
  assert (Ebus : (map pin_value (take 6 colors)
                  ++ drop (length (take 6 colors)) [-1; -1; -1; -1; -1; -1]
                  ++ [-1; -1; oe; lat])
                 ++ map pin_value rws
                 ++ drop (length rws) [-1; -1; -1; -1; -1; -1]
                 = map pin_value (take 6 colors)
                   ++ repeat (-1) (8 - length (map pin_value (take 6 colors)))
                   ++ [oe; lat] ++ map pin_value rws
                   ++ repeat (-1) (6 - length (map pin_value rws))).
  { rewrite !length_map.
    change [-1; -1; -1; -1; -1; -1] with (repeat (-1) 6).
    rewrite !drop_repeat.
    replace (8 - length (take 6 colors))%nat
      with ((6 - length (take 6 colors)) + 2)%nat by lia.
    rewrite repeat_app. rewrite <- !app_assoc. reflexivity. }
  rewrite Ebus. reflexivity.
Qed.



Lemma init_rows_range (args : init_args) :
  init_accepts args = true -> 0 < init_rows args <= 64.
Proof.
  unfold init_accepts, init_invalid, init_rows. intros Hacc.
  apply andb_prop in Hacc as (Hacc & _).
  apply andb_prop in Hacc as (Hinv & _).
  apply negb_true_iff in Hinv.
  apply orb_false_elim in Hinv as (Hinv & _).
  apply orb_false_elim in Hinv as (_ & Hnr).
  apply Z.ltb_ge in Hnr.
  split; [apply Z.pow_pos_nonneg; lia |].
  change 64 with (2 ^ 6). apply Z.pow_le_mono_r; lia.
Qed.













Lemma shl_int_overflow (n : Z) : 31 <= n -> shl_int 1 n = None.
Proof.
  intros Hn. unfold shl_int.
  destruct (Z.ltb_spec n 32).
  - assert (n = 31) by lia. subst n. reflexivity.
  - rewrite andb_false_r. reflexivity.
Qed.

Lemma initialize_buffer_undefined (heap_caps_malloc : Z -> bool) (b : Z)
  (m : matrix_t) :
  31 <= color_depth m -> initialize_buffer heap_caps_malloc b m = Undefined.
Proof.
  intros HD. unfold initialize_buffer, bind, get, defined.
  rewrite shl_int_overflow by assumption. reflexivity.
Qed.

(** X16. The argument [color_depth] is only checked against 0: from 31 on,
    [init] evaluates [1 << color_depth] outside the range of [int], which
    is undefined behaviour. *)
Theorem init_depth_undefined (heap_caps_malloc : Z -> bool)
  (i2s_parallel_driver_install : i2s_parallel_config_t -> bool -> Z)
  (i2s_parallel_send_dma : desc_ptr -> Z) (args : init_args) (m0 : matrix_t) :
  init_accepts args = true ->
  0 < arg_width args < 65536 -> 31 <= arg_color_depth args < 256 ->
  arg_brightness args < 65536 ->
  ledmatrix_init heap_caps_malloc i2s_parallel_driver_install
    i2s_parallel_send_dma args m0 = Undefined.
Proof.
  intros Hacc HW HD Hv.
  rewrite init_arguments by (try assumption; lia).
  unfold bind at 1.
  rewrite initialize_buffer_undefined by (simpl; lia). reflexivity.
Qed.

Lemma init_depth_undefined_witness :
  ledmatrix_init always_allocates install_ok send_ok
    (mk_init_args (map MpSmallInt [1; 2; 3; 4; 5; 6]) [MpSmallInt 7] 8 9 10
       4 31 2500 false true true false (-1)) matrix_zero = Undefined.
Proof.
  apply (init_depth_undefined always_allocates install_ok send_ok
           (mk_init_args (map MpSmallInt [1; 2; 3; 4; 5; 6]) [MpSmallInt 7]
              8 9 10 4 31 2500 false true true false (-1)) matrix_zero).
  - reflexivity.
  - vm_compute. split; reflexivity.
  - vm_compute. split; [discriminate | reflexivity].
  - vm_compute. reflexivity.
Defined.

Lemma initialize_buffer_no_memory (heap_caps_malloc : Z -> bool) (b : Z)
  (m : matrix_t) (sb : stream_buffer_t) :
  0 < width m < 65536 -> 0 < rows m < 256 -> 1 <= color_depth m <= 8 ->
  load (buffer m) b = Some sb ->
  let stride := 2 * width m * rows m in
  let count := (2 ^ color_depth m - 1) * ceil_div stride DMA_MAX_XFER_SIZE in
  heap_caps_malloc (stride * color_depth m) = false \/
  heap_caps_malloc (count * SIZEOF_LLDESC) = false ->
  exists m',
    initialize_buffer heap_caps_malloc b m
    = Raised (OSError ESP_ERR_NO_MEM) m' /\
    initialized m' = initialized m.
Proof.
  intros HW HR HD Hsb stride count Hfail.
  unfold count in *. rewrite ceil_div_pred in *.
  destruct (geometry_sizes (width m) (rows m) (color_depth m) HW HR HD)
    as (Hstride & Hper & Hcount & Hsize & Hslots).
  fold stride in Hstride, Hper, Hcount, Hsize.
  set (per := (stride - 1) / DMA_MAX_XFER_SIZE + 1) in *.
  set (cnt := (2 ^ color_depth m - 1) * per) in *.
  assert (Hcnt : 0 < cnt <= 255 * 8168) by (unfold cnt; nia).
  unfold initialize_buffer.
  cbv beta iota zeta delta [bind get modify defined ret put_opt].
  rewrite shl_int_one by lia.
  cbv beta iota.
  rewrite (u32_small (2 * width m)) by lia.
  rewrite (u32_small (2 * width m * rows m)) by (fold stride; lia).
  fold stride.
  rewrite (u32_small (stride * color_depth m)) by nia.
  rewrite (u32_small (stride - 1)) by lia.
  rewrite (u32_small ((stride - 1) / DMA_MAX_XFER_SIZE + 1))
    by (fold per; lia).
  fold per.
  rewrite (u32_small ((2 ^ color_depth m - 1) * per)) by (fold cnt; lia).
  fold cnt.
  rewrite (u32_small (cnt * SIZEOF_LLDESC)) by (unfold SIZEOF_LLDESC; lia).
  set (sd := if heap_caps_malloc (stride * color_depth m)
             then Some (repeat 0 (Z.to_nat (stride * color_depth m)))
             else None).
  set (dd := if heap_caps_malloc (cnt * SIZEOF_LLDESC)
             then Some (repeat lldesc_zero (Z.to_nat cnt)) else None).
  destruct (set_stream_spec b sd (set_dma_desc_count cnt m) sb Hsb)
    as (bs1 & E1 & L1 & N1 & O1).
  rewrite E1.
  destruct (set_descs_spec b dd
              (set_buffer bs1 (set_dma_desc_count cnt m)) _ N1)
    as (bs2 & E2 & L2 & N2 & O2).
  rewrite E2.
  exists (set_buffer bs2 (set_buffer bs1 (set_dma_desc_count cnt m))).
  split; [| reflexivity].
  unfold sd, dd.
  destruct Hfail as [-> | ->].
  - reflexivity.
  - destruct (heap_caps_malloc (stride * color_depth m)); reflexivity.
Qed.

(** X17. [init] when the allocator refuses the stream data or the descriptor
    array: it raises [OSError(ESP_ERR_NO_MEM)] and the display is not
    marked initialised. *)
Theorem init_no_memory (heap_caps_malloc : Z -> bool)
  (i2s_parallel_driver_install : i2s_parallel_config_t -> bool -> Z)
  (i2s_parallel_send_dma : desc_ptr -> Z) (args : init_args) (m0 : matrix_t) :
  init_accepts args = true ->
  0 < arg_width args < 65536 -> 1 <= arg_color_depth args <= 8 ->
  arg_brightness args < 65536 ->
  heap_caps_malloc (init_stream_bytes args) = false \/
  heap_caps_malloc (init_descriptors args * SIZEOF_LLDESC) = false ->
  exists m',
    ledmatrix_init heap_caps_malloc i2s_parallel_driver_install
      i2s_parallel_send_dma args m0
    = Raised (OSError ESP_ERR_NO_MEM) m' /\
    initialized m' = false.
Proof.
  intros Hacc HW HD Hv Hfail.
  pose proof (init_rows_range args Hacc) as HR.
  rewrite init_arguments by (try assumption; lia).
  destruct (initialize_buffer_no_memory heap_caps_malloc 0
              (init_geometry args) stream_buffer_zero)
    as (m' & Hrun & Hinit);
    [exact HW | simpl; lia | exact HD | reflexivity | exact Hfail |].
  exists m'. split; [| exact Hinit].
  unfold bind at 1. rewrite Hrun. reflexivity.
Qed.

Lemma init_no_memory_witness :
  exists m',
    ledmatrix_init (fun size => size <? 34) install_ok send_ok demo_args
      matrix_zero
    = Raised (OSError ESP_ERR_NO_MEM) m' /\
    initialized m' = false.
Proof.
  apply (init_no_memory (fun size => size <? 34) install_ok send_ok
           demo_args matrix_zero).
  - reflexivity.
  - vm_compute. split; reflexivity.
  - vm_compute. split; discriminate.
  - vm_compute. reflexivity.
  - right. reflexivity.
Defined.



(** ** [stop], [resume], [deinitialize] and scripts of calls *)

Lemma start_dma_run (i2s_parallel_send_dma : desc_ptr -> Z) (m : matrix_t) :
  start_dma i2s_parallel_send_dma m
  = let desc := DescPtr (if double_buffer m
                         then u8 (Z.lxor (backbuffer m) 1) else 0) 0 in
    if i2s_parallel_send_dma desc =? ESP_OK then Done tt m
    else Raised (OSError (i2s_parallel_send_dma desc)) m.
Proof.
  unfold start_dma, bind, get, ret, mp_raise. cbv zeta.
  destruct (i2s_parallel_send_dma _ =? ESP_OK); reflexivity.
Qed.

(** X19. After a [show] in double-buffer mode, [resume] hands the engine the
    first descriptor of the buffer that [show] wrote, and raises the error
    code of the engine as an [OSError] when it is refused; the global is
    not changed. *)
Theorem resume_after_show (i2s_parallel_send_dma : desc_ptr -> Z)
  (m m' : matrix_t) (fb : list Z) (color mode : Z) :
  wf_matrix m -> initialized m = true -> double_buffer m = true ->
  ledmatrix_show fb color mode m = Done tt m' ->
  ledmatrix_resume i2s_parallel_send_dma m'
  = if i2s_parallel_send_dma (DescPtr (backbuffer m) 0) =? ESP_OK
    then Done tt m'
    else Raised (OSError (i2s_parallel_send_dma (DescPtr (backbuffer m) 0)))
           m'.
Proof.
  intros Hwf Hinit Hdbl Hrun.
  destruct (show_double_step fb color mode m m' Hwf Hinit Hdbl Hrun)
    as (_ & Hinit' & Hdbl' & _ & _ & _ & Hfront & _).
  unfold ledmatrix_resume.
  rewrite bind_get, Hinit'. cbn [negb]. rewrite bind_ret.
  rewrite start_dma_run. cbv zeta. rewrite Hdbl'.
  fold (frontbuffer m'). rewrite Hfront. reflexivity.
Qed.

Lemma resume_after_show_witness :
  let m' := state_of (ledmatrix_show demo_fbA (-1) COLOR_RGB565 demo_matrix) in
  ledmatrix_resume (fun d => match d with DescPtr 1 0 => 0 | _ => 5 end) m'
  = if (fun d => match d with DescPtr 1 0 => 0 | _ => 5 end)
         (DescPtr (backbuffer demo_matrix) 0) =? ESP_OK
    then Done tt m'
    else Raised (OSError ((fun d => match d with DescPtr 1 0 => 0 | _ => 5 end)
                            (DescPtr (backbuffer demo_matrix) 0))) m'.
Proof.
  intros m'.
  apply (resume_after_show _ demo_matrix m' demo_fbA (-1) COLOR_RGB565).
  - exact demo_matrix_wf.
  - vm_compute. reflexivity.
  - vm_compute. reflexivity.
  - vm_compute. reflexivity.
Defined.

(** X20. After [deinitialize] the global is zeroed, whatever it held, and every
    entry point but [init] raises a [ValueError] and leaves it zeroed. *)
Theorem deinitialize_then (i2s_parallel_send_dma : desc_ptr -> Z)
  (m : matrix_t) (c : api_call) :
  (ledmatrix_deinitialize ;; run_call i2s_parallel_send_dma c) m
  = Raised (ValueError "ledmatrix not initialized") matrix_zero.
Proof.
  unfold ledmatrix_deinitialize.
  rewrite (bind_Done _ _ _ _ _ (deinit_run m)).
  destruct c; reflexivity.
Qed.

Lemma set_brightness_rejects (m : matrix_t) (b : mp_obj) :
  initialized m = true ->
  match b with
  | MpSmallInt v => ~ 0 <= v <= width m - 2
  | MpOther => True
  end ->
  exists e, ledmatrix_set_brightness b m = Raised e m.
Proof.
  intros Hinit Hb. unfold ledmatrix_set_brightness.
  rewrite bind_get, Hinit. cbn [negb]. rewrite bind_ret.
  destruct b as [v |]; [| eexists; reflexivity].
  assert (E : (v <? 0) || (v >=? width m - 1) = true).
  { destruct (Z.ltb_spec v 0); [reflexivity |].
    destruct (Z.geb_spec v (width m - 1)); [reflexivity | lia]. }
  rewrite E. eexists. reflexivity.
Qed.

(** Every call on an initialised display that is not a [show] in the
    monochrome mode returns or raises, and leaves an initialised display. *)
Lemma run_call_safe (i2s_parallel_send_dma : desc_ptr -> Z) (c : api_call)
  (m : matrix_t) :
  wf_display m -> is_mono_show c = false ->
  exists m',
    (run_call i2s_parallel_send_dma c m = Done tt m' \/
     exists e, run_call i2s_parallel_send_dma c m = Raised e m') /\
    wf_display m'.
Proof.
  intros Hwf Hmono.
  pose proof Hwf as (Hwfm & Hinit & Hev & HH & Hc).
  destruct c as [fb color mode | b | |]; simpl in Hmono |- *.
  - (* show *)
    destruct (decoder_of mode) as [dec |] eqn:Hdec.
    + assert (Hmode : mode = COLOR_RGB565 \/ mode = COLOR_GS8).
      { unfold decoder_of in Hdec.
        destruct (Z.eqb_spec mode COLOR_RGB565); [auto |].
        destruct (Z.eqb_spec mode COLOR_GS8); [auto |].
        rewrite Hmono in Hdec. discriminate. }
      destruct (Z.eq_dec (Z.of_nat (length fb)) (frame_size m mode))
        as [Hlen | Hlen].
      * destruct (show_returns_frame m fb color mode Hwf Hmode Hlen)
          as (m' & Hrun & Hwf').
        exists m'. auto.
      * exists (show_tint color m). split.
        -- right. eexists. apply show_rejects_size; [assumption | tauto
                                                   | assumption].
        -- now apply wf_display_tint.
    + destruct (show_total fb color mode m Hwf) as (m' & Hrun); [auto |].
      exists m'. split; [auto |].
      now apply (show_keeps_display fb color mode m).
  - (* set_brightness *)
    destruct b as [v |].
    + destruct (Z.le_gt_cases 0 v) as [H0 |];
        [destruct (Z.le_gt_cases v (width m - 2)) as [H1 |] |].
      * destruct (set_brightness_step m v Hwfm Hinit ltac:(lia))
          as (sd0 & dd0 & sb1 & sd0' & sb1' & _ & Hrun & Hwf' & _).
        eexists. split; [left; exact Hrun |].
        split; [exact Hwf' |]. split; [exact Hinit |].
        split; [exact Hev |]. split; [exact HH | exact Hc].
      * destruct (set_brightness_rejects m (MpSmallInt v) Hinit) as (e & He);
          [simpl; lia |].
        exists m. split; [right; eauto | assumption].
      * destruct (set_brightness_rejects m (MpSmallInt v) Hinit) as (e & He);
          [simpl; lia |].
        exists m. split; [right; eauto | assumption].
    + destruct (set_brightness_rejects m MpOther Hinit I) as (e & He).
      exists m. split; [right; eauto | assumption].
  - (* stop *)
    exists m. split; [| assumption]. left.
    unfold ledmatrix_stop. rewrite bind_get, Hinit. reflexivity.
  - (* resume *)
    exists m. split; [| assumption].
    unfold ledmatrix_resume. rewrite bind_get, Hinit. cbn [negb].
    rewrite bind_ret, start_dma_run. cbv zeta.
    destruct (i2s_parallel_send_dma _ =? ESP_OK); [left | right; eexists];
      reflexivity.
Qed.

(** X21. No script of calls on an initialised display has undefined behaviour,
    provided it holds no [show] in the monochrome mode: every call returns
    or raises an exception, whatever its arguments, and the display stays
    well formed.  The wait of [stop_dma] for the peripheral is outside the
    model. *)
Theorem run_script_safe (i2s_parallel_send_dma : desc_ptr -> Z)
  (cs : list api_call) (m : matrix_t) :
  wf_display m -> existsb is_mono_show cs = false ->
  exists m', run_script i2s_parallel_send_dma cs m = Some m' /\ wf_display m'.
Proof.
  revert m.
  induction cs as [| c rest IH]; intros m Hwf Hmono.
  - exists m. split; [reflexivity | assumption].
  - simpl in Hmono. apply orb_false_elim in Hmono as (Hc & Hrest).
    destruct (run_call_safe i2s_parallel_send_dma c m Hwf Hc)
      as (m1 & [Hrun | (e & Hrun)] & Hwf1);
      simpl; rewrite Hrun; now apply IH.
Qed.

Lemma run_script_safe_witness :
  exists m', run_script send_ok demo_script demo_matrix = Some m' /\
             wf_display m'.
Proof.
  apply (run_script_safe send_ok demo_script demo_matrix).
  - exact demo_display_wf.
  - reflexivity.
Defined.

(** ** The blocks of the descriptor ring *)

Lemma fill_blocks_tiles (b : Z) :
  forall (fuel : nat) (d : list lldesc_t) (i0 o rem : Z)
         (d' : list lldesc_t) (i' : Z),
  0 <= i0 <= Z.of_nat (length d) -> Z.of_nat (length d) < 4294967296 ->
  0 <= rem < 4294967296 ->
  fill_blocks fuel d (u32 (i0 - 1)) (StreamPtr b o) rem = Some (d', i') ->
  (forall i, i < i0 -> load d' i = load d i) /\
  (forall k, 0 <= k -> DMA_MAX_XFER_SIZE * k < rem ->
     exists e, load d' (i0 + k) = Some e /\ slot_block b rem o k e).
Proof.
  assert (HM : DMA_MAX_XFER_SIZE = 4092) by reflexivity.
  induction fuel as [| fuel IH]; intros d i0 o rem d' i' Hi0 Hlen Hrem Hrun.
  - simpl in Hrun. destruct (Z.eqb_spec rem 0) as [-> | Hne];
      [| discriminate].
    inversion Hrun; subst d' i'. split; [reflexivity |]. intros k Hk Hlt. lia.
  - simpl in Hrun. destruct (Z.eqb_spec rem 0) as [-> | Hne].
    { inversion Hrun; subst d' i'. split; [reflexivity |].
      intros k Hk Hlt. lia. }
    rewrite (u32_pred_succ i0) in Hrun by lia.
    set (block := if rem >? DMA_MAX_XFER_SIZE then DMA_MAX_XFER_SIZE else rem)
      in *.
    assert (Hblock : block = Z.min DMA_MAX_XFER_SIZE rem /\ 0 < block <= 4092).
    { unfold block. destruct (Z.gtb_spec rem DMA_MAX_XFER_SIZE); lia. }
    destruct Hblock as (Eblock & Hb).
    destruct (load d i0) as [e |] eqn:He; [| discriminate]. simpl in Hrun.
    destruct (store d i0 (set_block (StreamPtr b o) block e)) as [d1 |] eqn:Hst;
      [| discriminate].
    simpl in Hrun.
    pose proof (load_Some_range _ _ _ He) as Hr0.
    pose proof (length_store _ _ _ _ Hst) as Hl1.
    replace i0 with (u32 (i0 + 1 - 1)) in Hrun at 1
      by (replace (i0 + 1 - 1) with i0 by lia; apply u32_small; lia).
    rewrite (u32_small (rem - block)) in Hrun by lia.
    destruct (IH d1 (i0 + 1) (o + block) (rem - block) d' i') as (Hpre & Hblk);
      [rewrite Hl1; lia | rewrite Hl1; lia | lia | exact Hrun |].
    split.
    + intros i Hi. rewrite Hpre by lia.
      apply (load_store_ne _ _ _ _ _ Hst). lia.
    + intros k Hk Hlt.
      destruct (Z.eq_dec k 0) as [-> | Hk0].
      * exists (set_block (StreamPtr b o) block e).
        rewrite Z.add_0_r. split.
        -- rewrite Hpre by lia. apply (load_store_eq _ _ _ _ Hst).
        -- unfold slot_block, set_block. simpl.
           rewrite Z.mul_0_r, Z.add_0_r, Z.sub_0_r.
           rewrite (Z.mod_small block 4096) by lia.
           repeat split; lia.
      * assert (Hbig : block = DMA_MAX_XFER_SIZE) by lia.
        destruct (Hblk (k - 1)) as (e' & He' & Hs'); [lia | lia |].
        exists e'. split.
        -- replace (i0 + k) with (i0 + 1 + (k - 1)) by lia. exact He'.
        -- destruct Hs' as (B1 & B2 & B3 & B4).
           unfold slot_block.
           split; [rewrite B1; f_equal; lia |].
           split; [rewrite B2; f_equal; lia |].
           split; assumption.
Qed.

Section Tiles.

Variables b stride per depth : Z.
Hypothesis Hper : per = (stride - 1) / DMA_MAX_XFER_SIZE + 1.
Hypothesis Hstride : 0 < stride.
Hypothesis Hdepth : 1 <= depth <= 30.
Hypothesis Hcount : (2 ^ depth - 1) * per * 2 ^ depth < 4294967296.
Hypothesis Hsize : stride * depth < 4294967296.

(** The second loop cuts every slot into the blocks of its subimage. *)
Lemma fill_remaining_tiles (d1 : list lldesc_t) :
  (forall s, 0 <= s < 2 ^ depth - 1 ->
     head per d1 s = NullData \/
     exists j, 0 <= j < depth - 1 /\ head per d1 s = StreamPtr b (stride * j)) ->
  forall (fuel : nat) (s : Z) (d d' : list lldesc_t),
  0 <= s <= 2 ^ depth - 1 ->
  fill_inv b stride per depth d1 s d ->
  tiled b stride per s d ->
  fill_remaining fuel b stride ((2 ^ depth - 1) * per) depth d (s * per)
  = Some d' ->
  tiled b stride per (2 ^ depth - 1) d'.
Proof.
  intros Hkinds.
  pose proof (per_bounds stride per depth Hper Hstride Hdepth)
    as (Hper0 & Hlo & Hhi).
  assert (HM : DMA_MAX_XFER_SIZE = 4092) by reflexivity.
  assert (Hidx32 : (2 ^ depth - 1) * per < 4294967296).
  { assert (2 ^ 1 <= 2 ^ depth) by (apply Z.pow_le_mono_r; lia).
    change (2 ^ 1) with 2 in *. nia. }
  induction fuel as [| fuel IH]; intros s d d' Hs Hinv Htiled Hrun.
  - simpl in Hrun.
    destruct (Z.ltb_spec (s * per) ((2 ^ depth - 1) * per)) as [| Hge];
      [discriminate |].
    inversion Hrun; subst d'.
    assert (s = 2 ^ depth - 1) by nia. subst s. assumption.
  - destruct (Z.eq_dec s (2 ^ depth - 1)) as [-> | Hne].
    + simpl in Hrun.
      destruct (Z.ltb_spec ((2 ^ depth - 1) * per) ((2 ^ depth - 1) * per));
        [lia |].
      inversion Hrun; subst d'. assumption.
    + assert (Hs' : 0 <= s < 2 ^ depth - 1) by lia.
      destruct Hinv as (Hlen & Hheads & Hok & Hsum).
      simpl in Hrun.
      destruct (Z.ltb_spec (s * per) ((2 ^ depth - 1) * per)) as [_ | Hge];
        [| nia].
      destruct (head_in_range per _ d s Hper0 Hs' Hlen) as (e & He & Hhe).
      rewrite He in Hrun. simpl in Hrun.
      destruct (fill_head_step b stride per depth Hper Hstride Hdepth Hcount
                  Hsize s d e Hs' Hlen He)
        as (d_a & e_a & Hda & Hea & Hbuf & Hlen_a & Hsame & Htake).
      rewrite Hda in Hrun. simpl in Hrun. rewrite Hea in Hrun. simpl in Hrun.
      assert (Hptr : exists j, 0 <= j < depth /\
                       d_buf e_a = StreamPtr b (stride * j)).
      { rewrite Hbuf, <- Hhe, (Hheads s Hs').
        destruct (Z.ltb_spec s s); [lia |].
        destruct (Hkinds s Hs') as [-> | (j & Hj & ->)].
        - exists (depth - 1). split; [lia | reflexivity].
        - exists j. split; [lia | reflexivity]. }
      destruct Hptr as (j & Hj & Hptr).
      pose proof (fill_blocks_spec b stride per depth Hper Hstride Hdepth
                    Hcount Hsize s (stride * j) Hs' ltac:(nia) ltac:(nia)
                    (Z.to_nat stride) 0 d_a) as Hblocks.
      rewrite Z.mul_0_r, Z.min_r in Hblocks by lia.
      replace (stride - 0) with stride in Hblocks by lia.
      replace (stride * j + 0) with (stride * j) in Hblocks by lia.
      replace (s * per + 0) with (s * per) in Hblocks by lia.
      replace (s * stride + 0) with (s * stride) in Hblocks by lia.
      destruct Hblocks as (d'' & Hrunb & Hlen' & Hothers & Hhead' & Hok' & Hsum').
      * lia.
      * nia.
      * assumption.
      * lia.
      * intros i x Hi Hx. apply (Hok i x Hi).
        rewrite <- Hsame; [assumption | lia].
      * rewrite Htake. assumption.
      * rewrite Hptr, Hrunb in Hrun. simpl in Hrun.
        rewrite (u32_pred_succ (s * per + per)) in Hrun by nia.
        replace (s * per + per) with ((s + 1) * per) in Hrun by ring.
        destruct (fill_blocks_tiles b (Z.to_nat stride) d_a (s * per)
                    (stride * j) stride d'' (u32 (s * per + per - 1)))
          as (Hpre & Hblk); [nia | lia | nia | exact Hrunb |].
        assert (Hheads1 : forall s1, 0 <= s1 < 2 ^ depth - 1 -> s1 <> s ->
                  head per d'' s1 = head per d s1).
        { intros s1 Hs1 Hs1ne. rewrite (Hothers s1 Hs1ne).
          unfold head. rewrite Hsame; [reflexivity |].
          intros E. apply Hs1ne.
          apply (Z.mul_cancel_r s1 s per); lia. }
        apply (IH (s + 1) d'' d'); [lia | | | exact Hrun].
        -- split; [assumption |]. split; [| split; assumption].
           intros s1 Hs1.
           destruct (Z.eq_dec s1 s) as [-> | Hs1ne].
           ++ rewrite Hhead'. destruct (Z.ltb_spec s (s + 1)); [| lia].
              rewrite <- Hptr, Hbuf, <- Hhe, (Hheads s Hs').
              destruct (Z.ltb_spec s s); [lia | reflexivity].
           ++ rewrite (Hheads1 s1 Hs1 Hs1ne), (Hheads s1 Hs1).
              destruct (Z.ltb_spec s1 s); destruct (Z.ltb_spec s1 (s + 1));
                try lia; reflexivity.
        -- intros s1 k Hs1 Hk.
           destruct (Z.eq_dec s1 s) as [-> | Hs1ne].
           ++ destruct (Hblk k) as (x & Hx & Hxb); [lia | nia |].
              exists (stride * j), x. auto.
           ++ destruct (Htiled s1 k) as (o & x & Ho & Hx & Hxb); [lia | lia |].
              exists o, x. split; [| split; [| exact Hxb]].
              ** rewrite Hheads1 by lia. exact Ho.
              ** rewrite Hpre by nia. rewrite Hsame by nia. exact Hx.
Qed.

End Tiles.

Section RingBlocks.

Variables b stride per depth : Z.
Hypothesis Hper : per = (stride - 1) / DMA_MAX_XFER_SIZE + 1.
Hypothesis Hstride : 0 < stride.
Hypothesis Hdepth : 1 <= depth <= 30.
Hypothesis Hcount : (2 ^ depth - 1) * per * 2 ^ depth < 4294967296.
Hypothesis Hsize : stride * depth < 4294967296.

(** Every slot of the finished ring is cut into the blocks of one
    subimage. *)
Lemma build_ring_tiles (d : list lldesc_t) :
  build_ring b stride per ((2 ^ depth - 1) * per) depth
    (repeat lldesc_zero (Z.to_nat ((2 ^ depth - 1) * per))) = Some d ->
  forall s, 0 <= s < 2 ^ depth - 1 ->
    exists l,
      0 <= l < depth /\
      forall j, 0 <= j < per ->
        exists e,
          load d (s * per + j) = Some e /\
          slot_block b stride (stride * l) j e.
Proof.
  intros Hbuild s Hs.
  pose proof (per_bounds stride per depth Hper Hstride Hdepth)
    as (Hper0 & Hlo & Hhi).
  pose proof (count_small stride per depth Hper0 Hstride Hdepth Hcount Hsize)
    as HN.
  destruct (spread_subimages_spec b stride per depth Hper0 Hstride Hdepth
              Hcount Hsize) as (d1 & Hrun1 & Hlen1 & Hkinds & Happ & Hnull).
  assert (Hinv0 : fill_inv b stride per depth d1 0 d1).
  { split; [assumption |]. split; [| split].
    - intros s' Hs'. destruct (Z.ltb_spec s' 0); [lia | reflexivity].
    - intros i e Hi. lia.
    - reflexivity. }
  destruct (fill_remaining_spec b stride per depth Hper Hstride Hdepth Hcount
              Hsize d1 Hkinds (Z.to_nat ((2 ^ depth - 1) * per)) 0 d1)
    as (d2 & Hrun2 & Hlen2 & Hheads2 & Hok2 & Hsum2);
    [lia | nia | exact Hinv0 |].
  assert (Htiled : tiled b stride per (2 ^ depth - 1) d2).
  { apply (fill_remaining_tiles b stride per depth Hper Hstride Hdepth Hcount
             Hsize d1 Hkinds (Z.to_nat ((2 ^ depth - 1) * per)) 0 d1 d2);
      [lia | exact Hinv0 | | exact Hrun2].
    intros s' j' Hs'. lia. }
  destruct (link_ring_spec b ((2 ^ depth - 1) * per) d2 HN Hlen2)
    as (d3 & Hrun3 & Hlen3 & Hlink).
  unfold build_ring in Hbuild. rewrite Hrun1 in Hbuild. simpl in Hbuild.
  replace (0 * per) with 0 in Hrun2 by lia.
  rewrite Hrun2 in Hbuild. simpl in Hbuild. rewrite Hrun3 in Hbuild.
  inversion Hbuild; subst d3. clear Hbuild.
  assert (Ho : exists l, 0 <= l < depth /\
                        head per d2 s = StreamPtr b (stride * l)).
  { pose proof (Hheads2 s Hs) as H2.
    destruct (Z.ltb_spec s (2 ^ depth - 1)); [| lia].
    unfold fill_head in H2.
    destruct (Hkinds s Hs) as [E | (l & Hl & E)]; rewrite E in H2;
      simpl in H2.
    - exists (depth - 1). split; [lia | exact H2].
    - exists l. split; [lia | exact H2]. }
  destruct Ho as (l & Hl & Hhd).
  exists l. split; [exact Hl |].
  intros j Hj.
  destruct (Htiled s j Hs Hj) as (o & e & Hhead & Hload & Hb1 & Hb2 & Hb3 & Hb4).
  rewrite Hhd in Hhead. inversion Hhead; subst o. clear Hhead.
  destruct (Hlink (s * per + j)) as (x & Hx & Hx3); [nia |].
  rewrite Hload in Hx. inversion Hx; subst x. clear Hx.
  exists (set_next (DescPtr b (if s * per + j <? (2 ^ depth - 1) * per - 1
                               then s * per + j + 1 else 0)) e).
  split; [exact Hx3 |].
  unfold slot_block. simpl. auto.
Qed.

End RingBlocks.

Lemma even_width_aligned (W R : Z) :
  Z.even W = true -> (2 * W * R) mod 4 = 0.
Proof.
  intros Hev. apply Z.even_spec in Hev as [k ->].
  replace (2 * (2 * k) * R) with (k * R * 4) by ring.
  apply Z.mod_mul. lia.
Qed.

(** X22. The ring [initialize_buffer] builds transfers whole subimages:
    every slot [s] has one subimage [l] that its [seg] descriptors cover
    from the first byte to the last, descriptor [j] of the slot taking the
    block at byte [DMA_MAX_XFER_SIZE * j] of that subimage, in blocks of
    [DMA_MAX_XFER_SIZE] bytes and a shorter last one; with the even width
    [init] insists on, every block starts on a word boundary and is a whole
    number of words long. *)
Theorem initialize_buffer_blocks (heap_caps_malloc : Z -> bool) (b : Z)
  (m : matrix_t) (sb : stream_buffer_t) (s : Z) :
  0 < width m < 65536 -> 0 < rows m < 256 -> 1 <= color_depth m <= 8 ->
  load (buffer m) b = Some sb ->
  let stride := 2 * width m * rows m in
  let seg := ceil_div stride DMA_MAX_XFER_SIZE in
  let N := (2 ^ color_depth m - 1) * seg in
  heap_caps_malloc (stride * color_depth m) = true ->
  heap_caps_malloc (N * SIZEOF_LLDESC) = true ->
  0 <= s < 2 ^ color_depth m - 1 ->
  exists m' d l,
    initialize_buffer heap_caps_malloc b m = Done tt m' /\
    descs_of m' b = Some d /\
    0 <= l < color_depth m /\
    forall j, 0 <= j < seg ->
      exists e,
        load d (s * seg + j) = Some e /\
        d_buf e = StreamPtr b (stride * l + DMA_MAX_XFER_SIZE * j) /\
        d_length e
        = Z.min DMA_MAX_XFER_SIZE (stride - DMA_MAX_XFER_SIZE * j) /\
        d_size e = d_length e /\ d_owner e = 1 /\
        (Z.even (width m) = true ->
         (stride * l + DMA_MAX_XFER_SIZE * j) mod 4 = 0 /\
         d_length e mod 4 = 0).
Proof.
  intros HW HR HD Hsb stride seg N Hm1 Hm2 Hs.
  unfold N, seg in *. rewrite ceil_div_pred in *.
  destruct (initialize_buffer_spec heap_caps_malloc b m sb HW HR HD Hsb Hm1 Hm2)
    as (bs & d & Hrun & Hlen & Hnew & Hother & Hring).
  destruct (geometry_sizes (width m) (rows m) (color_depth m) HW HR HD)
    as (Hstride & Hper & Hcount & Hsize & Hslots).
  fold stride in Hring, Hstride, Hper, Hcount, Hsize.
  destruct (build_ring_tiles b stride ((stride - 1) / DMA_MAX_XFER_SIZE + 1)
              (color_depth m) eq_refl ltac:(lia) ltac:(lia) Hcount Hsize d
              Hring s Hs) as (l & Hl & Hblocks).
  eexists. exists d, l.
  split; [exact Hrun |].
  split; [unfold descs_of; simpl; rewrite Hnew; reflexivity |].
  split; [exact Hl |].
  intros j Hj.
  destruct (Hblocks j Hj) as (e & Hload & B1 & B2 & B3 & B4).
  exists e.
  split; [exact Hload |].
  split; [exact B1 |]. split; [exact B2 |]. split; [exact B3 |].
  split; [exact B4 |].
  intros Hev.
  pose proof (even_width_aligned (width m) (rows m) Hev) as Hal.
  fold stride in Hal.
  assert (HM : DMA_MAX_XFER_SIZE = 4092) by reflexivity.
  apply Z.mod_divide in Hal; [| lia]. destruct Hal as [q Hq].
  split.
  - apply Z.mod_divide; [lia |]. exists (q * l + 1023 * j). lia.
  - rewrite B2. apply Z.mod_divide; [lia |].
    destruct (Z.min_spec DMA_MAX_XFER_SIZE (stride - DMA_MAX_XFER_SIZE * j))
      as [(_ & ->) | (_ & ->)].
    + exists 1023. lia.
    + exists (q - 1023 * j). lia.
Qed.

Lemma initialize_buffer_blocks_witness :
  let m := set_geometry 2048 2 false false true false
             (set_rows 2 (set_height 4 matrix_zero)) in
  let stride := 2 * width m * rows m in
  let seg := ceil_div stride DMA_MAX_XFER_SIZE in
  exists m' d l,
    initialize_buffer always_allocates 0 m = Done tt m' /\
    descs_of m' 0 = Some d /\
    0 <= l < color_depth m /\
    forall j, 0 <= j < seg ->
      exists e,
        load d (2 * seg + j) = Some e /\
        d_buf e = StreamPtr 0 (stride * l + DMA_MAX_XFER_SIZE * j) /\
        d_length e
        = Z.min DMA_MAX_XFER_SIZE (stride - DMA_MAX_XFER_SIZE * j) /\
        d_size e = d_length e /\ d_owner e = 1 /\
        (Z.even (width m) = true ->
         (stride * l + DMA_MAX_XFER_SIZE * j) mod 4 = 0 /\
         d_length e mod 4 = 0).
Proof.
  intros m stride seg.
  apply (initialize_buffer_blocks always_allocates 0 m stream_buffer_zero 2).
  - vm_compute. split; reflexivity.
  - vm_compute. split; reflexivity.
  - vm_compute. split; discriminate.
  - reflexivity.
  - reflexivity.
  - reflexivity.
  - vm_compute. split; [discriminate | reflexivity].
Defined.



(** The colour pass reads the geometry and the tint only. *)
Lemma update_framebuffer_data_ext (m1 m2 : matrix_t) (mode : Z)
  (dec : get_color_func) (fb sd : list Z) :
  decoder_of mode = Some dec ->
  width m2 = width m1 -> rows m2 = rows m1 ->
  color_depth m2 = color_depth m1 -> invert m2 = invert m1 ->
  column_swap m2 = column_swap m1 -> single_chn m2 = single_chn m1 ->
  mono_color m2 = mono_color m1 ->
  update_framebuffer_data m2 fb dec sd = update_framebuffer_data m1 fb dec sd.
Proof.
  intros Hdec HW HR HD HI HC HS HM. unfold decoder_of in Hdec.
  destruct (mode =? COLOR_RGB565);
    [| destruct (mode =? COLOR_GS8);
       [| destruct (mode =? COLOR_MONO); [| discriminate]]];
    inversion Hdec; subst dec;
    unfold update_framebuffer_data, color_byte, get_color_bits_rgb,
      get_color_bits_gs8, get_color_bits_mono_hlsb, get_mono_color_bits;
    rewrite HW, HR, HD, HI, HC, HS, ?HM; reflexivity.
Qed.

(** X24. In single-buffer mode nothing of a frame survives the next one: a
    [show] after another [show] leaves the global as it leaves it when
    called alone, provided it encodes a frame and its tint does not depend
    on the first call. *)
Theorem show_last_frame_wins (m m1 m2 : matrix_t) (fbA fbB : list Z)
  (cA cB modeA modeB : Z) :
  wf_display m -> double_buffer m = false ->
  cA < 0 \/ 0 <= cB ->
  modeB = COLOR_RGB565 \/ modeB = COLOR_GS8 \/ modeB = COLOR_MONO ->
  ledmatrix_show fbA cA modeA m = Done tt m1 ->
  ledmatrix_show fbB cB modeB m1 = Done tt m2 ->
  ledmatrix_show fbB cB modeB m = Done tt m2.
Proof.
  intros Hwf Hdbl Htint HmodeB HA HB.
  pose proof (show_keeps_display fbA cA modeA m m1 Hwf HA) as Hwf1.
  pose proof Hwf as (Hwfm & Hinit & _).
  pose proof Hwf1 as (Hwfm1 & Hinit1 & _).
  destruct (show_single_spec fbA cA modeA m m1 Hwfm Hinit Hdbl HA)
    as (sd0 & d0 & sb1 & sdA & Hbuf & Hbb & Em1 & HencA & HlenA).
  assert (Hdbl1 : double_buffer m1 = false).
  { subst m1. simpl.
    destruct (show_tint_fields cA m)
      as ((_ & _ & _ & _ & _ & _ & _ & _ & _ & -> & _) & _). exact Hdbl. }
  destruct (show_single_spec fbB cB modeB m1 m2 Hwfm1 Hinit1 Hdbl1 HB)
    as (x & y & z & sdB & Hbuf1 & Hbb1 & Em2 & HencB & HlenB).
  rewrite Em1 in Hbuf1. simpl in Hbuf1. inversion Hbuf1; subst x y z.
  clear Hbuf1.
  assert (Hdec : exists dec, decoder_of modeB = Some dec)
    by (destruct HmodeB as [-> | [-> | ->]]; eexists; reflexivity).
  destruct Hdec as (dec & Hdec).
  (* the size check *)
  assert (HsizeB : Z.of_nat (length fbB) = frame_size m1 modeB).
  { destruct (Z.eq_dec (Z.of_nat (length fbB)) (frame_size m1 modeB))
      as [E | NE]; [exact E |].
    rewrite (show_rejects_size m1 fbB cB modeB Hwf1 HmodeB NE) in HB.
    discriminate. }
  destruct (show_tint_fields cA m)
    as ((AW & AH & AR & AD & AI & AC & AS & _) & Abuf & Abb).
  destruct (show_tint_fields cB m)
    as ((BW & BH & BR & BD & BI & BC & BS & _) & Bbuf & Bbb).
  destruct (show_tint_fields cB m1)
    as ((CW & CH & CR & CD & CI & CC & CS & _) & Cbuf & Cbb).
  assert (Hfs : frame_size (show_tint cB m) modeB = frame_size m1 modeB).
  { unfold frame_size. rewrite BW, BH. subst m1. simpl. rewrite AW, AH.
    reflexivity. }
  (* the tint of the second call *)
  assert (Hmono : mono_color (show_tint cB m1) = mono_color (show_tint cB m)).
  { subst m1. unfold show_tint.
    destruct (Z.geb_spec cB 0); [reflexivity |].
    destruct (Z.geb_spec cA 0); [lia | reflexivity]. }
  pose proof (wf_display_tint cB m Hwf) as Hwt.
  pose proof (wf_display_height _ Hwt) as HH.
  pose proof Hwt as (Hwt' & _).
  rewrite show_split_tint by assumption. rewrite Hdbl.
  pose proof (show_colors_run fbB modeB (show_tint cB m) Hwt') as Hrun.
  rewrite Hdec in Hrun.
  assert (Hsd0 : stream_of (show_tint cB m) (backbuffer (show_tint cB m))
                 = Some sd0).
  { unfold stream_of. rewrite Bbb, Hbb, Bbuf, Hbuf. reflexivity. }
  rewrite (Hrun sd0 Hsd0) by lia. clear Hrun.
  rewrite Hfs, HsizeB, Z.eqb_refl.
  (* the colour pass on the two inputs *)
  unfold encoded in HencB. rewrite Hdec in HencB.
  rewrite (update_framebuffer_data_ext (show_tint cB m) (show_tint cB m1)
             modeB dec fbB sdA Hdec) in HencB;
    [| first [exact Hmono
             | rewrite ?CW, ?CR, ?CD, ?CI, ?CC, ?CS,
                 ?BW, ?BR, ?BD, ?BI, ?BC, ?BS, Em1; simpl; assumption] ..].
  pose proof Hwt' as (HW & HR & HD & _).
  pose proof (wf_size _ HW HR HD) as Hsz.
  assert (Hl0 : Z.of_nat (length sd0)
                = 2 * width (show_tint cB m) * rows (show_tint cB m)
                  * color_depth (show_tint cB m)).
  { destruct Hwfm as (_ & _ & _ & _ & _ & u0 & u1 & Hu & Ha0 & _).
    rewrite Hbuf in Hu. inversion Hu; subst u0 u1.
    destruct Ha0 as (s & d & E & Hs & _). inversion E; subst s.
    rewrite BW, BR, BD. exact Hs. }
  assert (Hagree : forall a,
            ~ (a - BITSTREAM_COLOR_BYTE
               < 2 * width (show_tint cB m) * rows (show_tint cB m)
                 * color_depth (show_tint cB m)
               /\ (a - BITSTREAM_COLOR_BYTE) mod 2 = 0) ->
            load sdA a = load sd0 a).
  { intros a Ha. unfold encoded in HencA.
    destruct (decoder_of modeA) as [decA |]; [| subst sdA; reflexivity].
    rewrite update_framebuffer_data_fill in HencA.
    apply fill_cells_partial in HencA as (_ & _ & Hrest);
      try (rewrite ?AW, ?AR, ?AD, <- ?BW, <- ?BR, <- ?BD; lia).
    apply Hrest. rewrite AW, AR, AD, <- BW, <- BR, <- BD. exact Ha. }
  rewrite update_framebuffer_data_fill in HencB.
  pose proof HencB as HencB'.
  apply fill_cells_partial in HencB' as (_ & HcellsB & _); try lia.
  destruct (fill_cells_total (width (show_tint cB m)) (rows (show_tint cB m))
              (color_depth (show_tint cB m)) BITSTREAM_COLOR_BYTE
              (color_byte (show_tint cB m) dec fbB) sd0)
    as (sdB' & HrunB'); try lia.
  { unfold BITSTREAM_COLOR_BYTE. lia. }
  { intros l r p Hl Hr Hp.
    pose proof (cell_bound _ _ _ l r p Hl Hr Hp) as Hcb.
    destruct (HcellsB l r p Hl Hr Hp) as (c & Hc & _); [lia |]. congruence. }
  assert (E : sdB = sdB').
  { apply (fill_cells_agree (width (show_tint cB m)) (rows (show_tint cB m))
             (color_depth (show_tint cB m)) BITSTREAM_COLOR_BYTE
             (color_byte (show_tint cB m) dec fbB) sdA sd0 sdB sdB');
      try lia; try assumption.
    unfold BITSTREAM_COLOR_BYTE. lia. }
  subst sdB'.
  rewrite update_framebuffer_data_fill, HrunB'.
  unfold ret. f_equal.
  rewrite Em2. unfold descs_of.
  rewrite Bbb, Hbb, Bbuf, Hbuf. simpl.
  subst m1. unfold show_tint in *.
  destruct m. simpl in *.
  destruct (Z.geb_spec cB 0); destruct (Z.geb_spec cA 0); simpl;
    try reflexivity; lia.
Qed.

Lemma show_last_frame_wins_witness :
  let m1 := state_of (ledmatrix_show demo_fbA 255 COLOR_RGB565 single_matrix) in
  let m2 := state_of (ledmatrix_show demo_fbG 65280 COLOR_GS8 m1) in
  ledmatrix_show demo_fbG 65280 COLOR_GS8 single_matrix = Done tt m2.
Proof.
  intros m1 m2.
  apply (show_last_frame_wins single_matrix m1 m2 demo_fbA demo_fbG 255 65280
           COLOR_RGB565 COLOR_GS8).
  - split; [exact single_matrix_wf |]. vm_compute. repeat split. eauto.
  - vm_compute. reflexivity.
  - right. lia.
  - right. left. reflexivity.
  - vm_compute. reflexivity.
  - vm_compute. reflexivity.
Defined.
